(** * venvkit: the ecosystem map (mapRender.ts), task clustering
    (taskCluster.ts), the doctor's score (doctorLite.ts) and the run log
    summary (runLog.ts)

    A shallow embedding of the graph builder, the clustering engine, the
    insight rules, the scoring of a report and the counting of a run log,
    with the properties of the specification proved about it.

    Modelling conventions.
    - JS strings are [string]s of 8-bit characters; case mapping and white
      space are those JS defines on the ASCII range, and [createHash("sha256")]
      hashes the characters as bytes (UTF-8 of ASCII text).
    - JS numbers that count things are [nat]; scores and penalties are [Z];
      the success rate, the one quotient the code compares with decimal
      literals, is an IEEE-754 double ([float]).
    - An optional (or nullish-guarded) field is an [option].
    - [Map]s that are iterated are association lists in insertion order;
      [Map]s only looked up are [gmap]s; a [Record<string, number>] is a
      [jsobj] with the own-property order of a JS object.
    - Keys of a [Record<string, number>] other than [__proto__] are assumed
      not to name a member of [Object.prototype] (such a key would count in
      strings).
    - [os.platform()], [os.arch()], [os.hostname()] and the wall clock behind
      [nowIso()] form the [World] a call runs in. *)

From Stdlib Require Import ZArith NArith List String Ascii Floats.
From stdpp Require Import base strings gmap list sorting pretty.
Import ListNotations.

(** ** SHA-256 (node:crypto's createHash("sha256")), FIPS 180-4 *)

Module Sha256.
Local Open Scope N_scope.

Definition add32 (a b : N) : N := (a + b) mod 2^32.
Definition rotr (n x : N) : N :=
  N.lor (N.shiftr x n) (N.shiftl x (32 - n) mod 2^32).
Definition not32 (x : N) : N := N.lxor x 0xffffffff.
Definition Ch (x y z : N) : N := N.lxor (N.land x y) (N.land (not32 x) z).
Definition Maj (x y z : N) : N :=
  N.lxor (N.lxor (N.land x y) (N.land x z)) (N.land y z).
Definition bsig0 (x : N) : N := N.lxor (N.lxor (rotr 2 x) (rotr 13 x)) (rotr 22 x).
Definition bsig1 (x : N) : N := N.lxor (N.lxor (rotr 6 x) (rotr 11 x)) (rotr 25 x).
Definition ssig0 (x : N) : N := N.lxor (N.lxor (rotr 7 x) (rotr 18 x)) (N.shiftr x 3).
Definition ssig1 (x : N) : N := N.lxor (N.lxor (rotr 17 x) (rotr 19 x)) (N.shiftr x 10).

(** The first 64 primes. *)
Definition is_prime (n : N) : bool :=
  forallb (λ d, negb (n mod d =? 0)) (map N.of_nat (seq 2 (N.to_nat n - 2))).
Definition primes : list N := List.filter is_prime (map N.of_nat (seq 2 310)).

(** The largest [r] below [2^bits] with [r^3 <= n]. *)
Fixpoint cube_root (bits : nat) (n r : N) : N :=
  match bits with
  | O => r
  | S b =>
      let r' := r + 2 ^ N.of_nat b in
      cube_root b n (if r' * r' * r' <=? n then r' else r)
  end.

(** The round constants: the first 32 bits of the fractional parts of the
    cube roots of the first 64 primes. *)
Definition K : list N :=
  Eval vm_compute in map (λ p, cube_root 36 (p * 2^96) 0 mod 2^32) primes.

(** The initial hash value: the first 32 bits of the fractional parts of
    the square roots of the first 8 primes. *)
Definition H0 : list N :=
  Eval vm_compute in map (λ p, N.sqrt (p * 2^64) mod 2^32) (firstn 8 primes).

Definition w (i : nat) (l : list N) : N := nth i l 0.

(** One round on the working variables a..h and the window W[t..t+15] of
    the message schedule. *)
Definition round (k : N) (st : list N * list N) : list N * list N :=
  let '(v, ws) := st in
  let t1 := add32 (add32 (add32 (add32 (w 7 v) (bsig1 (w 4 v)))
                                 (Ch (w 4 v) (w 5 v) (w 6 v))) k) (w 0 ws) in
  let t2 := add32 (bsig0 (w 0 v)) (Maj (w 0 v) (w 1 v) (w 2 v)) in
  let nxt := add32 (add32 (add32 (ssig1 (w 14 ws)) (w 9 ws)) (ssig0 (w 1 ws))) (w 0 ws) in
  ([add32 t1 t2; w 0 v; w 1 v; w 2 v; add32 (w 3 v) t1; w 4 v; w 5 v; w 6 v],
   tl ws ++ [nxt]).

Definition compress (h : list N) (block : list N) : list N :=
  let '(v, _) := fold_left (fun st k => round k st) K (h, block) in
  zip_with add32 h v.

Fixpoint be_words (bytes : list N) : list N :=
  match bytes with
  | b0 :: b1 :: b2 :: b3 :: rest =>
      (b0 * 2^24 + b1 * 2^16 + b2 * 2^8 + b3) :: be_words rest
  | _ => []
  end.

Fixpoint blocks (fuel : nat) (ws : list N) : list (list N) :=
  match fuel with
  | O => []
  | S f => match ws with
           | [] => []
           | _ => firstn 16 ws :: blocks f (skipn 16 ws)
           end
  end.

Definition pad (msg : list N) : list N :=
  let len := N.of_nat (length msg) in
  let zeros := N.to_nat ((119 - len mod 64) mod 64) in
  let bits := len * 8 in
  msg ++ [0x80] ++ repeat 0 zeros
      ++ map (fun i => N.shiftr bits (8 * i) mod 256) [7; 6; 5; 4; 3; 2; 1; 0].

Definition digest (msg : list N) : list N :=
  let ws := be_words (pad msg) in
  fold_left compress (blocks (length ws) ws) H0.

Definition hexdigit (n : N) : ascii :=
  ascii_of_N (if n <? 10 then 48 + n else 87 + n).

Definition hex32 (x : N) : list ascii :=
  map (fun i => hexdigit (N.shiftr x (4 * i) mod 16)) [7; 6; 5; 4; 3; 2; 1; 0].

Definition bytes_of_string (s : string) : list N :=
  map N_of_ascii (list_ascii_of_string s).

(** [createHash("sha256").update(input).digest("hex")] *)
Definition sha256Hex (input : string) : string :=
  string_of_list_ascii (concat (map hex32 (digest (bytes_of_string input)))).

End Sha256.

(** ** The JavaScript library functions the code calls *)

Module JS.

Definition chars (s : string) : list ascii := list_ascii_of_string s.
Definition str (l : list ascii) : string := string_of_list_ascii l.

(** [s.slice(0, n)] *)
Definition slice0 (n : nat) (s : string) : string := str (firstn n (chars s)).

Definition is_upper (c : ascii) : bool :=
  (65 <=? N_of_ascii c)%N && (N_of_ascii c <=? 90)%N.
Definition lower_char (c : ascii) : ascii :=
  if is_upper c then ascii_of_N (N_of_ascii c + 32) else c.
(** [s.toLowerCase()] *)
Definition toLowerCase (s : string) : string := str (map lower_char (chars s)).

(** The characters [\s] and [trim()] treat as white space: TAB, LF, VT, FF,
    CR and SPACE. *)
Definition is_space (c : ascii) : bool :=
  bool_decide (N_of_ascii c ∈ [9; 10; 11; 12; 13; 32]%N).
Definition is_digit (c : ascii) : bool :=
  (48 <=? N_of_ascii c)%N && (N_of_ascii c <=? 57)%N.

Fixpoint drop_space (l : list ascii) : list ascii :=
  match l with
  | c :: l' => if is_space c then drop_space l' else l
  | [] => []
  end.
(** [s.trim()] *)
Definition trim_chars (l : list ascii) : list ascii :=
  rev (drop_space (rev (drop_space l))).

(** [s.replace(/\s+/g, " ")]: [in_run] tells that the previous character
    was white space, whose run is already replaced. *)
Fixpoint collapse_space (in_run : bool) (l : list ascii) : list ascii :=
  match l with
  | [] => []
  | c :: l' =>
      if is_space c
      then (if in_run then collapse_space true l'
            else " "%char :: collapse_space true l')
      else c :: collapse_space false l'
  end.

(** [s.split(re).filter(Boolean)] for a [re] matching runs of the characters
    [sep]: the non-empty pieces between separators. [cur] is the piece read
    so far, reversed. *)
Fixpoint pieces (sep : ascii → bool) (cur l : list ascii) : list (list ascii) :=
  match l with
  | [] => match cur with [] => [] | _ => [rev cur] end
  | c :: l' =>
      if sep c
      then match cur with
           | [] => pieces sep [] l'
           | _ => rev cur :: pieces sep [] l'
           end
      else pieces sep (c :: cur) l'
  end.

(** [parts.join(sep)] *)
Fixpoint join (sep : string) (parts : list string) : string :=
  match parts with
  | [] => ""
  | [p] => p
  | p :: rest => p +:+ sep +:+ join sep rest
  end.

(** [s.replace(/c/g, by)] for a single character [c]. *)
Definition replace_char (c : ascii) (by_ : string) (s : string) : string :=
  str (concat (map (λ x, if Ascii.eqb x c then chars by_ else [x]) (chars s))).

(** [s.startsWith(p)] *)
Definition startsWith (s p : string) : bool := String.prefix p s.

(** A comparator sort. [before a b] is [cmp(a, b) < 0]; [Array.prototype.sort]
    is stable, and the stable order of a list under a consistent comparator
    is unique, so insertion from the right gives it. *)
Section sort.
Context {A : Type} (before : A → A → bool).

Fixpoint sort_insert (x : A) (l : list A) : list A :=
  match l with
  | [] => [x]
  | y :: l' => if before y x then y :: sort_insert x l' else x :: y :: l'
  end.

Definition sort : list A → list A := foldr sort_insert [].

End sort.

(** [l.sort()] on strings: ascending by code units. *)
Definition sort_strings : list string → list string := sort String.ltb.
(** [l.sort((a, b) => a - b)] on numbers. *)
Definition sort_numbers : list Z → list Z := sort Z.ltb.

(** [l.slice(0, n)] for a number [n]: a negative [n] counts from the end. *)
Definition slice_to {A} (n : Z) (l : list A) : list A :=
  if (n <? 0)%Z then firstn (length l - Z.to_nat (- n)) l
  else firstn (Z.to_nat n) l.

(** The number [n] as a double (exact below 2^53). *)
Fixpoint float_of_pos (p : positive) : float :=
  match p with
  | xH => 1
  | xO q => 2 * float_of_pos q
  | xI q => 2 * float_of_pos q + 1
  end%float.
Definition float_of_nat (n : nat) : float :=
  match N.of_nat n with N0 => 0%float | Npos p => float_of_pos p end.

(** [Math.round(x)]: the integer nearest to [x], ties towards +infinity
    (0 for NaN and the infinities, which are no integers). *)
Definition Math_round (x : float) : Z :=
  match Prim2SF x with
  | S754_finite s m e =>
      let v := if s then Z.neg m else Z.pos m in
      if (0 <=? e)%Z then (v * 2 ^ e)%Z
      else ((2 * v + 2 ^ (- e)) / 2 ^ (1 - e))%Z
  | _ => 0%Z
  end.

(** ** Own properties of a plain object used as a string-keyed record

    [Object.entries] and [Object.keys] list array-index keys first, in
    ascending numeric order, then the other keys in insertion order. *)

Definition digits_value (l : list ascii) : N :=
  fold_left (λ acc c, acc * 10 + (N_of_ascii c - 48))%N l 0%N.

(** The array index a key denotes: a canonical decimal numeral of at most
    2^32 - 2. *)
Definition array_index (k : string) : option N :=
  match chars k with
  | [] => None
  | c :: rest =>
      if forallb is_digit (c :: rest)
         && (negb (Ascii.eqb c "0") || bool_decide (rest = []))
         && (length rest <? 10)%nat
         && (digits_value (c :: rest) <=? 4294967294)%N
      then Some (digits_value (c :: rest))
      else None
  end.

Definition jsobj (V : Type) : Type := list (string * V).

Fixpoint obj_get {V} (k : string) (o : jsobj V) : option V :=
  match o with
  | [] => None
  | (k', v) :: o' => if String.eqb k' k then Some v else obj_get k o'
  end.

Fixpoint obj_replace {V} (k : string) (v : V) (o : jsobj V) : jsobj V :=
  match o with
  | [] => []
  | (k', v') :: o' =>
      if String.eqb k' k then (k, v) :: o' else (k', v') :: obj_replace k v o'
  end.

Fixpoint obj_add_index {V} (n : N) (k : string) (v : V) (o : jsobj V) : jsobj V :=
  match o with
  | [] => [(k, v)]
  | (k', v') :: o' =>
      match array_index k' with
      | Some n' => if (n' <? n)%N then (k', v') :: obj_add_index n k v o'
                   else (k, v) :: o
      | None => (k, v) :: o
      end
  end.

(** [o[k] = v] *)
Definition obj_set {V} (k : string) (v : V) (o : jsobj V) : jsobj V :=
  match obj_get k o with
  | Some _ => obj_replace k v o
  | None =>
      match array_index k with
      | Some n => obj_add_index n k v o
      | None => o ++ [(k, v)]
      end
  end.

(** A [Map] that the code iterates: entries in insertion order; [set] on a
    present key keeps its place. *)
Definition map_set {V} (k : string) (v : V) (m : list (string * V)) : list (string * V) :=
  match obj_get k m with
  | Some _ => obj_replace k v m
  | None => m ++ [(k, v)]
  end.

End JS.

Import JS.
Set Warnings "-inexact-float".

(** ** Data model *)

(** *** doctorLite.ts: the reports the probe hands over *)

Inductive Severity := SevInfo | SevWarn | SevBad.
Inductive HealthStatus := Good | Warn | Bad | Unknown.

Global Instance Severity_eq_dec : EqDecision Severity.
Proof. solve_decision. Defined.
Global Instance HealthStatus_eq_dec : EqDecision HealthStatus.
Proof. solve_decision. Defined.

Record Finding := {
  f_code : string;
  f_severity : Severity;
  f_penalty : option Z;
  f_what : string;
}.

Record FactsResult := {
  fa_version : option string;
  fa_version_info : option (list Z);
  fa_prefix : option string;
  fa_base_prefix : option string;
  fa_bits : option Z;
}.

Record DoctorLiteReport := {
  r_pythonPath : string;
  r_ranAt : option string;
  r_status : option HealthStatus;
  r_score : option Z;
  r_facts : option FactsResult;
  r_findings : list Finding;
}.

(** *** runLog.ts: RunLogEventV1 *)

Record Requirements := {
  rq_python : option string;
  rq_packages : option (list string);
  rq_features : option (list string);
  rq_tags : option (list string);
  rq_requireX64 : option bool;
}.

Record Task := {
  t_name : string;
  t_command : string;
  t_requirements : option Requirements;
}.

Record Selected := {
  s_pythonPath : string;
  s_score : option Z;
  s_status : option HealthStatus;
}.

(** [exitCode?: number | null]: absent, null or a number. *)
Inductive ExitCode := ExitAbsent | ExitNull | ExitNum (n : Z).

Record Outcome := {
  o_ok : bool;
  o_exitCode : ExitCode;
  o_errorClass : option string;
  o_stderrSnippet : option string;
}.

Record Doctor := { d_dominantIssue : option string }.

Record RunLogEventV1 := {
  runId : string;
  at_ : string;
  cwd : option string;
  task : Task;
  selected : Selected;
  outcome : Outcome;
  doctor : option Doctor;
}.

(** ** taskCluster.ts *)

Record TaskSignature := {
  sigId : string;
  sig_name : string;
  sig_command : string;
  requirementsKey : string;
}.

Record TaskCluster := {
  c_sig : TaskSignature;
  c_runs : nat;
  c_ok : nat;
  c_fail : nat;
  c_successRate : float;
  c_lastAt : string;
  c_dominantFailure : option string;
  c_failureCounts : jsobj nat;
  c_envCounts : jsobj nat;
  c_envFailCounts : jsobj nat;
  c_envOkCounts : jsobj nat;
}.

Definition sha16 (s : string) : string := slice0 16 (Sha256.sha256Hex s).

Definition normCmd_chars (l : list ascii) : list ascii :=
  map lower_char (collapse_space false (trim_chars l)).

Definition normCmd (cmd : string) : string := str (normCmd_chars (chars cmd)).

Definition normList (l : option (list string)) : string :=
  join "," (sort_strings (map toLowerCase (default [] l))).

Definition normReq (req : option Requirements) : string :=
  match req with
  | None => ""
  | Some req =>
      let pkgs := normList (rq_packages req) in
      let feats := normList (rq_features req) in
      let tags := normList (rq_tags req) in
      let py := toLowerCase (default "" (rq_python req)) in
      let x64 := if default false (rq_requireX64 req) then "x64" else "" in
      "py=" +:+ py +:+ "|pkgs=" +:+ pkgs +:+ "|feat=" +:+ feats
        +:+ "|tags=" +:+ tags +:+ "|" +:+ x64
  end.

Definition signatureForRun (run : RunLogEventV1) : TaskSignature :=
  let command := normCmd (t_command (task run)) in
  let requirementsKey := normReq (t_requirements (task run)) in
  let base := t_name (task run) +:+ "|" +:+ command +:+ "|" +:+ requirementsKey in
  {| sigId := "task_" +:+ sha16 base;
     sig_name := t_name (task run);
     sig_command := command;
     requirementsKey := requirementsKey |}.

(** [o[k] = (o[k] ?? 0) + 1]. The key [__proto__] is the prototype accessor
    of a plain object: assigning a primitive value to it stores nothing. *)
Definition bump (k : string) (o : jsobj nat) : jsobj nat :=
  if String.eqb k "__proto__" then o
  else obj_set k (default 0 (obj_get k o) + 1) o.

(** [r.doctor?.dominantIssue ?? r.outcome.errorClass ?? "RUN_FAILED"] *)
Definition failureCode (r : RunLogEventV1) : string :=
  default (default "RUN_FAILED" (o_errorClass (outcome r)))
          (doctor r ≫= d_dominantIssue).

Definition newCluster (sig : TaskSignature) (r : RunLogEventV1) : TaskCluster :=
  {| c_sig := sig; c_runs := 0; c_ok := 0; c_fail := 0; c_successRate := 0;
     c_lastAt := at_ r; c_dominantFailure := None; c_failureCounts := [];
     c_envCounts := []; c_envFailCounts := []; c_envOkCounts := [] |}.

(** The body of the loop over the runs, on the cluster of the run. *)
Definition foldRun (c : TaskCluster) (r : RunLogEventV1) : TaskCluster :=
  let py := s_pythonPath (selected r) in
  let is_ok := o_ok (outcome r) in
  {| c_sig := c_sig c;
     c_runs := c_runs c + 1;
     c_ok := if is_ok then c_ok c + 1 else c_ok c;
     c_fail := if is_ok then c_fail c else c_fail c + 1;
     c_successRate := c_successRate c;
     c_lastAt := if String.ltb (c_lastAt c) (at_ r) then at_ r else c_lastAt c;
     c_dominantFailure := c_dominantFailure c;
     c_failureCounts :=
       if is_ok then c_failureCounts c else bump (failureCode r) (c_failureCounts c);
     c_envCounts := bump py (c_envCounts c);
     c_envFailCounts := if is_ok then c_envFailCounts c else bump py (c_envFailCounts c);
     c_envOkCounts := if is_ok then bump py (c_envOkCounts c) else c_envOkCounts c |}.

Definition clusterStep (m : list (string * TaskCluster)) (r : RunLogEventV1)
  : list (string * TaskCluster) :=
  let sig := signatureForRun r in
  let key := sigId sig in
  let c := default (newCluster sig r) (obj_get key m) in
  map_set key (foldRun c r) m.

(** The entry of the failure histogram with the highest count, the first
    one among equals. *)
Definition bestFailure (o : jsobj nat) : option (string * nat) :=
  fold_left (λ best kv,
               match best with
               | None => Some kv
               | Some b => if (b.2 <? kv.2)%nat then Some kv else best
               end) o None.

Definition derive (c : TaskCluster) : TaskCluster :=
  {| c_sig := c_sig c; c_runs := c_runs c; c_ok := c_ok c; c_fail := c_fail c;
     c_successRate :=
       if (c_runs c =? 0)%nat then 0%float
       else (float_of_nat (c_ok c) / float_of_nat (c_runs c))%float;
     c_lastAt := c_lastAt c;
     c_dominantFailure :=
       match bestFailure (c_failureCounts c) with
       | Some b => Some b.1
       | None => c_dominantFailure c
       end;
     c_failureCounts := c_failureCounts c; c_envCounts := c_envCounts c;
     c_envFailCounts := c_envFailCounts c; c_envOkCounts := c_envOkCounts c |}.

Definition clusterRuns (runs : list RunLogEventV1) : list TaskCluster :=
  let m := fold_left clusterStep runs [] in
  sort (λ a b, (c_runs b <? c_runs a)%nat) (map (λ kv, derive kv.2) m).

Definition isFlaky (cluster : TaskCluster) : bool :=
  if ((c_ok cluster =? 0)%nat || (c_fail cluster =? 0)%nat)%bool then false
  else (PrimFloat.ltb 0.2 (c_successRate cluster)
        && PrimFloat.ltb (c_successRate cluster) 0.95)%bool.

Definition isEnvDependentFlaky (cluster : TaskCluster) : bool :=
  let envs := map fst (c_envCounts cluster) in
  if (length envs <? 2)%nat then false
  else
    let okOf py := default 0 (obj_get py (c_envOkCounts cluster)) in
    let failOf py := default 0 (obj_get py (c_envFailCounts cluster)) in
    existsb (λ py, (0 <? okOf py)%nat && (failOf py =? 0)%nat) envs
    && existsb (λ py, (0 <? failOf py)%nat && (okOf py =? 0)%nat) envs.

Record FailingEnv := {
  fe_pythonPath : string;
  fe_failCount : nat;
  fe_totalCount : nat;
  fe_failRate : float;
}.

Definition getFailingEnvs (cluster : TaskCluster) (limit : Z) : list FailingEnv :=
  slice_to limit
    (sort (λ a b, (fe_failCount b <? fe_failCount a)%nat)
       (map (λ kv,
               let total := default kv.2 (obj_get kv.1 (c_envCounts cluster)) in
               {| fe_pythonPath := kv.1; fe_failCount := kv.2; fe_totalCount := total;
                  fe_failRate := (float_of_nat kv.2 / float_of_nat total)%float |})
            (c_envFailCounts cluster))).

(** ** mapRender.ts: the graph *)

Inductive NodeType := NVenv | NBase | NTask | NArtifact.
Inductive EdgeType :=
  USES_BASE | CREATED_FROM | ROUTES_TASK_TO | FAILED_RUN | SHARES_WHEELHOUSE | SHADOWS_PATH.

Global Instance NodeType_eq_dec : EqDecision NodeType.
Proof. solve_decision. Defined.
Global Instance EdgeType_eq_dec : EqDecision EdgeType.
Proof. solve_decision. Defined.

Record GraphIssue := {
  gi_code : string;
  gi_severity : Severity;
  gi_message : string;
}.

Record PythonInfo := {
  py_version : option string;
  py_impl : option string;
  py_arch : option string;
}.

Record Health := {
  h_status : HealthStatus;
  h_score : option Z;
  h_issues : option (list GraphIssue);
}.

Record Caps := {
  cap_features : option (list string);
  cap_tags : option (list string);
}.

Record Fingerprints := {
  fp_env : option string;
  fp_python : option string;
}.

Record GraphNode := {
  n_id : string;
  n_type : NodeType;
  n_label : string;
  n_path : option string;
  n_python : option PythonInfo;
  n_health : option Health;
  n_caps : option Caps;
  n_fingerprints : option Fingerprints;
  n_lastSeenAt : option string;
}.

(** The values the metadata bags hold. *)
Inductive JSValue :=
  | VUndefined
  | VNull
  | VStr (s : string)
  | VNum (n : Z)
  | VStrings (l : list string).

Definition Meta : Type := list (string * JSValue).

Record GraphEdge := {
  e_id : string;
  e_from : string;
  e_to : string;
  e_type : EdgeType;
  e_label : option string;
  e_weight : option nat;
  e_meta : option Meta;
}.

Record TopIssue := {
  ti_code : string;
  ti_count : nat;
  ti_hint : string;
}.

Record GraphSummary := {
  envCount : nat;
  baseCount : nat;
  taskCount : nat;
  healthy : nat;
  warning : nat;
  broken : nat;
  runsPassed : nat;
  runsFailed : nat;
  topIssues : list TopIssue;
}.

Record Host := {
  host_os : string;
  host_arch : string;
  host_hostname : string;
}.

Record GraphJSONv1 := {
  g_version : string;
  generatedAt : string;
  g_host : Host;
  g_summary : GraphSummary;
  g_nodes : list GraphNode;
  g_edges : list GraphEdge;
}.

Inductive InsightSeverity := Low | Medium | High.

(** An insight's metadata also holds a success rate, a double. *)
Inductive InsightValue :=
  | IVal (v : JSValue)
  | IRate (x : float).

Record MapInsight := {
  i_severity : InsightSeverity;
  i_text : string;
  i_meta : option (list (string * InsightValue));
}.

Inductive Format := FJson | FMermaid | FBoth.
Inductive TaskMode := TMNone | TMRuns | TMClustered.

Global Instance TaskMode_eq_dec : EqDecision TaskMode.
Proof. solve_decision. Defined.

Record Filter := {
  minScore : option Z;
  codes : option (list string);
  pathsUnder : option string;
}.

(** [focus] and [filter.tags] are never read and are left out. *)
Record MapRenderOptions := {
  format : option Format;
  filter_ : option Filter;
  includeBaseSubgraphs : option bool;
  includeHotEdgeLabels : option bool;
  maxTopIssues : option Z;
  taskMode : option TaskMode;
}.

Record MapRenderResult := {
  graph : GraphJSONv1;
  mermaid : option string;
  insights : list MapInsight;
}.

(** What a call reads from its surroundings: [os.platform()], [os.arch()],
    [os.hostname()], and the clock: [clock n] is what the [n]-th call of
    [nowIso()] returns. *)
Record World := {
  platform : string;
  arch : string;
  hostname : string;
  clock : nat → string;
}.

(** The double quote character, for the texts that contain it. *)
Definition dq : string := String (ascii_of_nat 34) EmptyString.

Definition stableId (prefix input : string) : string :=
  prefix +:+ ":" +:+ slice0 16 (Sha256.sha256Hex input).

Section world.
Context (W : World).

Definition normPath (p : string) : string :=
  if String.eqb p "" then ""
  else if String.eqb (platform W) "win32" then toLowerCase p else p.

End world.

Definition pickArch (facts : option FactsResult) : option string :=
  match facts ≫= fa_bits with
  | Some 64%Z => Some "x86_64"
  | Some 32%Z => Some "x86"
  | _ => None
  end.

Definition statusFromReport (r : DoctorLiteReport) : HealthStatus :=
  default Unknown (r_status r).

Definition issuesFromFindings (findings : list Finding) : list GraphIssue :=
  map (λ f, {| gi_code := f_code f; gi_severity := f_severity f; gi_message := f_what f |})
      findings.

Definition hasCode (code : string) (findings : list Finding) : bool :=
  existsb (λ f, String.eqb (f_code f) code) findings.

Definition hintForIssue (code : string) : string :=
  if String.eqb code "SSL_BROKEN"
  then "Fix base Python / OpenSSL; this blocks installs and HTTPS."
  else if String.eqb code "DLL_LOAD_FAIL" || String.eqb code "ABI_MISMATCH"
  then "Native deps mismatch; recreate venv with compatible Python + wheels."
  else if String.eqb code "USER_SITE_LEAK" || String.eqb code "PYTHONPATH_INJECTED"
  then "Path leakage; disable user-site, remove PYTHONPATH, prefer editable installs."
  else if String.eqb code "PIP_CHECK_FAIL"
  then "Dependency conflicts; pip check then reinstall or recreate venv."
  else if String.eqb code "PYVENV_CFG_INVALID"
  then "Stale pyvenv.cfg; venv likely moved‚Äîrecreate it."
  else "Investigate and apply the doctor fix plan; recreating the venv is often fastest.".

Definition emojiForIssue (code : string) : string :=
  if String.eqb code "SSL_BROKEN"
  then "üîí"
  else if String.eqb code "CERT_STORE_FAIL"
  then "ü™™"
  else if String.eqb code "DLL_LOAD_FAIL"
  then "üß©"
  else if String.eqb code "ABI_MISMATCH"
  then "‚öôÔ∏è"
  else if String.eqb code "USER_SITE_LEAK"
  then "üï≥Ô∏è"
  else if String.eqb code "PYTHONPATH_INJECTED"
  then "üßµ"
  else if String.eqb code "PIP_CHECK_FAIL"
  then "üß®"
  else if String.eqb code "PIP_MISSING"
  then "üì¶"
  else if String.eqb code "ARCH_MISMATCH"
  then "üèóÔ∏è"
  else if String.eqb code "PYVENV_CFG_INVALID"
  then "üß±"
  else "‚ùó".

Definition shouldIncludeReport (W : World) (r : DoctorLiteReport) (opts : MapRenderOptions) : bool :=
  let flt := filter_ opts in
  let okScore :=
    match flt ≫= minScore with
    | Some m => negb (default 0 (r_score r) <? m)%Z
    | None => true
    end in
  let okPath :=
    match flt ≫= pathsUnder with
    | Some under =>
        if String.eqb under "" then true
        else startsWith (normPath W (r_pythonPath r)) (normPath W under)
    | None => true
    end in
  let okCodes :=
    match flt ≫= codes with
    | Some cs =>
        if (0 <? length cs)%nat
        then existsb (λ c, hasCode c (r_findings r)) cs
        else true
    | None => true
    end in
  okScore && okPath && okCodes.

Definition safeMermaidId (nodeId : string) : string :=
  "n_" +:+ slice0 10 (Sha256.sha256Hex nodeId).

Definition is_slash (c : ascii) : bool := Ascii.eqb c "/" || Ascii.eqb c "\".

(** [parts[Math.max(0, parts.length - 2)]] of the non-empty path segments,
    the path itself when there is none. *)
Definition guessEnvLabel (pythonPath : string) : string :=
  let parts := map str (pieces is_slash [] (chars pythonPath)) in
  match parts with
  | [] => pythonPath
  | _ => default pythonPath (parts !! (length parts - 2))
  end.

Definition mermaidClass (status : HealthStatus) : string :=
  match status with
  | Good => "good"
  | Warn => "warn"
  | Bad => "bad"
  | Unknown => "unknown"
  end.

Definition nonInfo (f : Finding) : bool :=
  negb (bool_decide (f_severity f = SevInfo)).

Definition countTopIssues (reports : list DoctorLiteReport) (maxTop : Z) : list TopIssue :=
  let counts :=
    fold_left
      (λ counts r,
         fold_left
           (λ counts f,
              if nonInfo f
              then map_set (f_code f) (default 0 (obj_get (f_code f) counts) + 1) counts
              else counts)
           (r_findings r) counts)
      reports [] in
  map (λ kv, {| ti_code := kv.1; ti_count := kv.2; ti_hint := hintForIssue kv.1 |})
      (slice_to maxTop (sort (λ a b : string * nat, (b.2 <? a.2)%nat) counts)).

Definition dominantIssue (findings : list Finding) : option string :=
  let sorted :=
    sort (λ a b, (default 0 (f_penalty b) <? default 0 (f_penalty a))%Z)
         (List.filter nonInfo findings) in
  f_code <$> head sorted.

Definition deriveBaseKey (r : DoctorLiteReport) : string :=
  let basePrefix := default "" (r_facts r ≫= fa_base_prefix) in
  if negb (String.eqb basePrefix "") then basePrefix
  else
    let prefix := default "" (r_facts r ≫= fa_prefix) in
    if negb (String.eqb prefix "") then prefix
    else r_pythonPath r.

(** The longest prefix of digits. *)
Fixpoint digitsOf (l : list ascii) : list ascii :=
  match l with
  | c :: l' => if is_digit c then c :: digitsOf l' else []
  | [] => []
  end.

(** [/(\d+)\.(\d+)\.(\d+)/] tried at the start of [l]: the first two groups. *)
Definition semverAt (l : list ascii) : option (list ascii * list ascii) :=
  let d1 := digitsOf l in
  match d1, drop (length d1) l with
  | _ :: _, "."%char :: l2 =>
      let d2 := digitsOf l2 in
      match d2, drop (length d2) l2 with
      | _ :: _, "."%char :: l3 =>
          match l3 with
          | c :: _ => if is_digit c then Some (d1, d2) else None
          | [] => None
          end
      | _, _ => None
      end
  | _, _ => None
  end.

(** [v.match(/(\d+)\.(\d+)\.(\d+)/)]: the leftmost match. *)
Fixpoint semverMatch (l : list ascii) : option (list ascii * list ascii) :=
  match semverAt l with
  | Some m => Some m
  | None => match l with
            | [] => None
            | _ :: l' => semverMatch l'
            end
  end.

Definition derivePyVersion (r : DoctorLiteReport) : option string :=
  match r_facts r ≫= fa_version_info with
  | Some (v0 :: v1 :: _) => Some (pretty v0 +:+ "." +:+ pretty v1)
  | _ =>
      match r_facts r ≫= fa_version with
      | Some v =>
          match semverMatch (chars v) with
          | Some (m1, m2) => Some (str m1 +:+ "." +:+ str m2)
          | None => None
          end
      | None => None
      end
  end.

Definition deriveImpl : string := "CPython".

Definition newline : ascii := ascii_of_nat 10.

Definition nodeLabelForBase (baseKey : string) (pyVersion arch : option string) : string :=
  "Base: " +:+ default "py?" pyVersion +:+ " " +:+ default "" arch
    +:+ String newline EmptyString +:+ baseKey.

Definition countType (t : NodeType) (nodes : list GraphNode) : list GraphNode :=
  List.filter (λ n, bool_decide (n_type n = t)) nodes.

Definition hasStatus (s : HealthStatus) (n : GraphNode) : bool :=
  bool_decide (h_status <$> n_health n = Some s).

Definition summarizeCounts (nodes : list GraphNode) : nat * nat * nat :=
  let venvs := countType NVenv nodes in
  (length (List.filter (hasStatus Good) venvs),
   length (List.filter (hasStatus Warn) venvs),
   length (List.filter (hasStatus Bad) venvs)).

(** ** The builder's state: the arrays and maps [mapRender] fills, and the
    number of [nowIso()] calls made so far. *)
Record Builder := {
  nodes : list GraphNode;
  edges : list GraphEdge;
  baseIdByKey : gmap string string;
  envIdByPyPath : gmap string string;
  nodeIndex : gmap string GraphNode;
  ticks : nat;
}.

Definition emptyBuilder : Builder :=
  {| nodes := []; edges := []; baseIdByKey := ∅; envIdByPyPath := ∅;
     nodeIndex := ∅; ticks := 0 |}.

Definition bullet : string := " ‚Ä¢ ".

Section builder.
Context (W : World).

Definition baseNode (id baseKey keyNorm : string) (pyVersion arch : option string)
    (now : string) : GraphNode :=
  {| n_id := id;
     n_type := NBase;
     n_label := replace_char newline bullet (nodeLabelForBase baseKey pyVersion arch);
     n_path := Some baseKey;
     n_python := Some {| py_version := pyVersion; py_impl := Some deriveImpl; py_arch := arch |};
     n_health := Some {| h_status := Unknown; h_score := None; h_issues := None |};
     n_caps := None;
     n_fingerprints :=
       Some {| fp_env := None;
               fp_python := Some ("sha256:" +:+ slice0 24 (Sha256.sha256Hex keyNorm)) |};
     n_lastSeenAt := Some now |}.

(** The helper [getOrCreateBaseNode]: the id, and the builder after it. *)
Definition getOrCreateBaseNode (b : Builder) (baseKey : string)
    (pyVersion arch : option string) : string * Builder :=
  let keyNorm := normPath W baseKey in
  match baseIdByKey b !! keyNorm with
  | Some id => (id, b)
  | None =>
      let id := stableId "base" keyNorm in
      (id,
       {| nodes := nodes b ++ [baseNode id baseKey keyNorm pyVersion arch (clock W (ticks b))];
          edges := edges b;
          baseIdByKey := <[keyNorm := id]> (baseIdByKey b);
          envIdByPyPath := envIdByPyPath b;
          nodeIndex := nodeIndex b;
          ticks := S (ticks b) |})
  end.

Definition envFeatures (findings : list Finding) : list string :=
  [ if hasCode "SSL_BROKEN" findings then "ssl:broken" else "ssl:ok";
    if hasCode "USER_SITE_LEAK" findings then "usersite:leak" else "usersite:clean";
    if hasCode "PYTHONPATH_INJECTED" findings then "pythonpath:set" else "pythonpath:clean" ].

Definition envNode (r : DoctorLiteReport) (envId pyPath : string)
    (pyVersion arch dominant : option string) (seen : string) : GraphNode :=
  {| n_id := envId;
     n_type := NVenv;
     n_label := guessEnvLabel (r_pythonPath r);
     n_path := Some (r_pythonPath r);
     n_python := Some {| py_version := pyVersion; py_impl := Some deriveImpl; py_arch := arch |};
     n_health := Some {| h_status := statusFromReport r;
                         h_score := r_score r;
                         h_issues := Some (issuesFromFindings (r_findings r)) |};
     n_caps := Some {| cap_features := Some (envFeatures (r_findings r));
                       cap_tags := Some [] |};
     n_fingerprints :=
       Some {| fp_env :=
                 Some ("sha256:" +:+
                       slice0 24 (Sha256.sha256Hex
                                    (pyPath +:+ "|" +:+ default "undefined" pyVersion
                                       +:+ "|" +:+ default "" dominant)));
               fp_python := None |};
     n_lastSeenAt := Some seen |}.

Definition usesBaseEdge (baseId envId : string) (dominant : option string) : GraphEdge :=
  {| e_id := stableId "e" (baseId +:+ "->" +:+ envId);
     e_from := baseId;
     e_to := envId;
     e_type := USES_BASE;
     e_label := None;
     e_weight := Some 1;
     e_meta := Some [("dominantIssue", from_option VStr VNull dominant)] |}.

(** The body of the loop over the included reports. *)
Definition envStep (b : Builder) (r : DoctorLiteReport) : Builder :=
  let pyPath := normPath W (r_pythonPath r) in
  let envId := stableId "env" pyPath in
  let pyVersion := derivePyVersion r in
  let arch := pickArch (r_facts r) in
  let dominant := dominantIssue (r_findings r) in
  let '(seen, t) :=
    match r_ranAt r with
    | Some at_ => (at_, ticks b)
    | None => (clock W (ticks b), S (ticks b))
    end in
  let b1 :=
    {| nodes := nodes b ++ [envNode r envId pyPath pyVersion arch dominant seen];
       edges := edges b;
       baseIdByKey := baseIdByKey b;
       envIdByPyPath := <[pyPath := envId]> (envIdByPyPath b);
       nodeIndex := nodeIndex b;
       ticks := t |} in
  let '(baseId, b2) := getOrCreateBaseNode b1 (deriveBaseKey r) pyVersion arch in
  {| nodes := nodes b2;
     edges := edges b2 ++ [usesBaseEdge baseId envId dominant];
     baseIdByKey := baseIdByKey b2;
     envIdByPyPath := envIdByPyPath b2;
     nodeIndex := nodeIndex b2;
     ticks := ticks b2 |}.

End builder.

(** *** The roll-up of base health from the child environments *)

Definition childEdgesOf (edges : list GraphEdge) (base : GraphNode) : list GraphEdge :=
  List.filter (λ e, bool_decide (e_type e = USES_BASE) && String.eqb (e_from e) (n_id base))
              edges.

Definition childNodesOf (nodes : list GraphNode) (edges : list GraphEdge)
    (base : GraphNode) : list GraphNode :=
  let childEdges := childEdgesOf edges base in
  List.filter (λ n, existsb (λ e, String.eqb (e_to e) (n_id n)) childEdges) nodes.

(** The numeric scores of the nodes, sorted ascending. *)
Definition sortedScores (ns : list GraphNode) : list Z :=
  sort_numbers (omap (λ n, n_health n ≫= h_score) ns).

(** [scores.length ? scores[Math.floor(scores.length / 2)] : undefined] *)
Definition medianOf (scores : list Z) : option Z :=
  scores !! (length scores / 2).

Definition worstOf (ns : list GraphNode) : HealthStatus :=
  if existsb (hasStatus Bad) ns then Bad
  else if existsb (hasStatus Warn) ns then Warn
  else if existsb (hasStatus Good) ns then Good
  else Unknown.

Definition setHealth (n : GraphNode) (h : Health) : GraphNode :=
  {| n_id := n_id n; n_type := n_type n; n_label := n_label n; n_path := n_path n;
     n_python := n_python n; n_health := Some h; n_caps := n_caps n;
     n_fingerprints := n_fingerprints n; n_lastSeenAt := n_lastSeenAt n |}.

(** One iteration of the roll-up loop, on the node at index [i]: a base
    node with children gets [{ status: worst, score: median }]. *)
Definition rollupAt (edges : list GraphEdge) (nodes : list GraphNode) (i : nat)
  : list GraphNode :=
  match nodes !! i with
  | Some base =>
      if bool_decide (n_type base = NBase) then
        let childNodes := childNodesOf nodes edges base in
        match childNodes with
        | [] => nodes
        | _ =>
            <[i := setHealth base {| h_status := worstOf childNodes;
                                     h_score := medianOf (sortedScores childNodes);
                                     h_issues := None |}]> nodes
        end
      else nodes
  | None => nodes
  end.

Definition rollup (edges : list GraphEdge) (nodes : list GraphNode) : list GraphNode :=
  fold_left (rollupAt edges) (seq 0 (length nodes)) nodes.

(** *** Task nodes and edges from the run log *)

Definition indexNodes (nodes : list GraphNode) : gmap string GraphNode :=
  fold_left (λ m n, <[n_id n := n]> m) nodes ∅.

(** [nodes.push(n); nodeIndex.set(n.id, n)] *)
Definition pushIndexed (b : Builder) (n : GraphNode) : Builder :=
  {| nodes := nodes b ++ [n]; edges := edges b; baseIdByKey := baseIdByKey b;
     envIdByPyPath := envIdByPyPath b; nodeIndex := <[n_id n := n]> (nodeIndex b);
     ticks := ticks b |}.

Definition pushEdge (b : Builder) (e : GraphEdge) : Builder :=
  {| nodes := nodes b; edges := edges b ++ [e]; baseIdByKey := baseIdByKey b;
     envIdByPyPath := envIdByPyPath b; nodeIndex := nodeIndex b; ticks := ticks b |}.

(** The environment node made for a path no report describes. *)
Definition missingEnvNode (envId pyPath : string) (h : Health) (seen : string) : GraphNode :=
  {| n_id := envId; n_type := NVenv; n_label := guessEnvLabel pyPath;
     n_path := Some pyPath; n_python := None; n_health := Some h; n_caps := None;
     n_fingerprints := None; n_lastSeenAt := Some seen |}.

(** "Ensure env node exists even if missing from reports". *)
Definition ensureEnv (b : Builder) (envPy : string) (n : GraphNode) : Builder :=
  match nodeIndex b !! n_id n with
  | Some _ => b
  | None =>
      let b' := pushIndexed b n in
      {| nodes := nodes b'; edges := edges b'; baseIdByKey := baseIdByKey b';
         envIdByPyPath := <[envPy := n_id n]> (envIdByPyPath b');
         nodeIndex := nodeIndex b'; ticks := ticks b' |}
  end.

Definition routeEdge (taskId envId label : string) (weight : nat) (meta : Meta) : GraphEdge :=
  {| e_id := stableId "e" (taskId +:+ "->" +:+ envId +:+ ":route");
     e_from := taskId; e_to := envId; e_type := ROUTES_TASK_TO;
     e_label := Some label; e_weight := Some weight; e_meta := Some meta |}.

Definition failEdge (taskId envId label : string) (weight : nat) (meta : Meta) : GraphEdge :=
  {| e_id := stableId "e" (taskId +:+ "->" +:+ envId +:+ ":fail");
     e_from := taskId; e_to := envId; e_type := FAILED_RUN;
     e_label := Some label; e_weight := Some weight; e_meta := Some meta |}.

(** A string in a condition: [undefined] and the empty string are falsy. *)
Definition truthy (s : option string) : option string :=
  match s with
  | Some s => if String.eqb s "" then None else Some s
  | None => None
  end.

Definition clusterTaskNode (c : TaskCluster) (taskId : string) : GraphNode :=
  {| n_id := taskId;
     n_type := NTask;
     n_label := sig_name (c_sig c);
     n_path := None;
     n_python := None;
     n_health :=
       Some {| h_status := if (c_fail c =? 0)%nat then Good
                           else if (c_ok c =? 0)%nat then Bad else Warn;
               h_score := Some (Math_round (100 * c_successRate c)%float);
               h_issues :=
                 Some match truthy (c_dominantFailure c) with
                      | Some d =>
                          [{| gi_code := d;
                              gi_severity := if (0 <? c_fail c)%nat then SevWarn else SevInfo;
                              gi_message :=
                                "dominant failure ("
                                  +:+ from_option pretty "undefined" (obj_get d (c_failureCounts c))
                                  +:+ ")" |}]
                      | None => []
                      end |};
     n_caps :=
       Some {| cap_features :=
                 Some [ "runs:" +:+ pretty (c_runs c);
                        "ok:" +:+ pretty (c_ok c);
                        "fail:" +:+ pretty (c_fail c);
                        if isFlaky c then "flaky:true" else "flaky:false";
                        if isEnvDependentFlaky c then "env-flaky:true" else "env-flaky:false" ];
               cap_tags := Some [] |};
     n_fingerprints := None;
     n_lastSeenAt := Some (c_lastAt c) |}.

Section tasks.
Context (W : World).

(** [envIdByPyPath.get(envPy) ?? stableId("env", envPy)] *)
Definition envIdFor (b : Builder) (envPy : string) : string :=
  default (stableId "env" envPy) (envIdByPyPath b !! envPy).

(** The body of the loop over [Object.entries(c.envCounts)]. *)
Definition clusterEnvStep (c : TaskCluster) (taskId : string) (b : Builder)
    (kv : string * nat) : Builder :=
  let '(pyPath, count) := kv in
  let envPy := normPath W pyPath in
  let envId := envIdFor b envPy in
  let b1 :=
    ensureEnv b envPy
      (missingEnvNode envId pyPath
         {| h_status := Unknown; h_score := None; h_issues := None |} (c_lastAt c)) in
  let b2 :=
    pushEdge b1 (routeEdge taskId envId ("x" +:+ pretty count) count
                   [("taskSig", VStr (sigId (c_sig c)))]) in
  let failCount := default 0 (obj_get pyPath (c_envFailCounts c)) in
  if (0 <? failCount)%nat then
    let dom := default "RUN_FAILED" (c_dominantFailure c) in
    pushEdge b2 (failEdge taskId envId
                   (emojiForIssue dom +:+ " " +:+ dom +:+ " x" +:+ pretty failCount)
                   failCount
                   [("taskSig", VStr (sigId (c_sig c))); ("dominantIssue", VStr dom)])
  else b2.

(** The body of the loop over the clusters. *)
Definition clusterTaskStep (b : Builder) (c : TaskCluster) : Builder :=
  let taskId := "task:" +:+ sigId (c_sig c) in
  fold_left (clusterEnvStep c taskId) (c_envCounts c)
            (pushIndexed b (clusterTaskNode c taskId)).

Definition runTaskNode (run : RunLogEventV1) (taskId : string) : GraphNode :=
  let is_ok := o_ok (outcome run) in
  {| n_id := taskId;
     n_type := NTask;
     n_label := t_name (task run);
     n_path := cwd run;
     n_python := None;
     n_health :=
       Some {| h_status := if is_ok then Good else Bad;
               h_score := Some (if is_ok then 100 else 40)%Z;
               h_issues :=
                 Some (if is_ok then []
                       else [{| gi_code := default "RUN_FAILED" (o_errorClass (outcome run));
                                gi_severity := SevBad;
                                gi_message :=
                                  default "Task failed" (o_stderrSnippet (outcome run)) |}]) |};
     n_caps :=
       Some {| cap_features :=
                 Some [ match t_requirements (task run) ≫= rq_packages with
                        | Some (p :: ps) => "pkgs:" +:+ join "," (firstn 3 (p :: ps))
                        | _ => "pkgs:none"
                        end ];
               cap_tags := Some (default [] (t_requirements (task run) ≫= rq_tags)) |};
     n_fingerprints := None;
     n_lastSeenAt := Some (at_ run) |}.

Definition exitCodeValue (c : ExitCode) : JSValue :=
  match c with
  | ExitAbsent => VUndefined
  | ExitNull => VNull
  | ExitNum n => VNum n
  end.

(** The body of the loop over the runs in "runs" mode. *)
Definition runTaskStep (b : Builder) (run : RunLogEventV1) : Builder :=
  let taskKey :=
    t_name (task run) +:+ "|" +:+ t_command (task run) +:+ "|" +:+ at_ run
      +:+ "|" +:+ s_pythonPath (selected run) in
  let taskId := stableId "task" (if String.eqb (runId run) "" then taskKey else runId run) in
  let b0 := pushIndexed b (runTaskNode run taskId) in
  let envPy := normPath W (s_pythonPath (selected run)) in
  let envId := envIdFor b0 envPy in
  let b1 :=
    ensureEnv b0 envPy
      (missingEnvNode envId (s_pythonPath (selected run))
         {| h_status := default Unknown (s_status (selected run));
            h_score := s_score (selected run); h_issues := None |} (at_ run)) in
  let b2 :=
    pushEdge b1 (routeEdge taskId envId "routes" 1
                   [("runId", VStr (runId run)); ("command", VStr (t_command (task run)))]) in
  if o_ok (outcome run) then b2
  else
    let dom := failureCode run in
    pushEdge b2 (failEdge taskId envId (emojiForIssue dom +:+ " " +:+ dom) 2
                   [("runId", VStr (runId run));
                    ("exitCode", exitCodeValue (o_exitCode (outcome run)));
                    ("dominantIssue", VStr dom)]).

End tasks.

(** ** The insight rules of [aggregateInsights], in the order they run *)

Definition insight (sev : InsightSeverity) (text : string)
    (meta : list (string * InsightValue)) : MapInsight :=
  {| i_severity := sev; i_text := text; i_meta := Some meta |}.

Definition num (n : nat) : InsightValue := IVal (VNum (Z.of_nat n)).
Definition text (s : string) : InsightValue := IVal (VStr s).

(** Rule 1: the top recurring issue. *)
Definition topIssueInsights (g : GraphJSONv1) : list MapInsight :=
  match topIssues (g_summary g) with
  | t0 :: _ =>
      [insight (if (3 <=? ti_count t0)%nat then High else Medium)
         ("Top recurring issue: " +:+ ti_code t0 +:+ " (" +:+ pretty (ti_count t0) +:+ "). "
            +:+ ti_hint t0)
         [("code", text (ti_code t0)); ("count", num (ti_count t0))]]
  | [] => []
  end.

(** The nodes the USES_BASE edges leaving [base] point to. *)
Definition blastChildren (g : GraphJSONv1) (base : GraphNode) : list GraphNode :=
  let childIds := map e_to (childEdgesOf (g_edges g) base) in
  List.filter (λ n, bool_decide (n_id n ∈ childIds)) (g_nodes g).

Definition blastInsight (base : GraphNode) (badCount total : nat) : MapInsight :=
  insight High
    ("Base interpreter " +:+ dq +:+ n_label base +:+ dq +:+ " has a large blast radius: "
       +:+ pretty badCount +:+ "/" +:+ pretty total
       +:+ " attached envs are bad. Fix the base first, then recreate envs.")
    [("baseId", text (n_id base)); ("total", num total); ("bad", num badCount)].

(** Rule 2: blast radius. [Math.ceil(n / 2)] is [(n + 1) / 2]. *)
Definition blastRadiusInsights (g : GraphJSONv1) : list MapInsight :=
  flat_map
    (λ base,
       let childNodes := blastChildren g base in
       let badCount := length (List.filter (hasStatus Bad) childNodes) in
       if (3 <=? length childNodes)%nat && ((length childNodes + 1) / 2 <=? badCount)%nat
       then [blastInsight base badCount (length childNodes)]
       else [])
    (countType NBase (g_nodes g)).

Definition countWith (code : string) (reports : list DoctorLiteReport) : nat :=
  length (List.filter (λ r, hasCode code (r_findings r)) reports).

(** Rule 3: ecosystem hygiene. *)
Definition hygieneInsights (reports : list DoctorLiteReport) : list MapInsight :=
  let leakCount := countWith "USER_SITE_LEAK" reports in
  let pyPathCount := countWith "PYTHONPATH_INJECTED" reports in
  if (2 <=? leakCount)%nat || (2 <=? pyPathCount)%nat
  then [insight High
          ("Ecosystem hygiene problem: USER_SITE_LEAK in " +:+ pretty leakCount
             +:+ " env(s), PYTHONPATH_INJECTED in " +:+ pretty pyPathCount
             +:+ " env(s). This causes " +:+ dq +:+ "works here, fails there." +:+ dq
             +:+ " Lock these down (PYTHONNOUSERSITE=1, remove PYTHONPATH).")
          [("leakCount", num leakCount); ("pyPathCount", num pyPathCount)]]
  else [].

Definition uniqueIssues (reports : list DoctorLiteReport) : gset string :=
  list_to_set (flat_map (λ r, map f_code (List.filter nonInfo (r_findings r))) reports).

(** Rule 4: high entropy. *)
Definition entropyInsights (reports : list DoctorLiteReport) : list MapInsight :=
  let n := size (uniqueIssues reports) in
  if (5 <=? length reports)%nat && (8 <=? n)%nat
  then [insight Medium
          ("High entropy detected: " +:+ pretty n +:+ " different issue types across "
             +:+ pretty (length reports)
             +:+ " envs. Consider standardizing on 2‚Äì3 " +:+ dq +:+ "golden envs" +:+ dq
             +:+ " (data, web, ml) and routing tasks into them.")
          [("envs", num (length reports)); ("uniqueIssues", num n)]]
  else [].

(** [x.toFixed(0)] for a finite [x] below 10^21: the nearest integer, ties
    away from zero. *)
Definition toFixed0 (x : float) : string :=
  if PrimFloat.ltb x 0 then "-" +:+ pretty (Math_round (- x)%float)
  else pretty (Math_round x).

(** The clusters with their positions: [flakyTasks.includes(c)] compares
    objects, and a cluster object is the element at one index. *)
Definition indexed {A} (l : list A) : list (nat * A) := zip (seq 0 (length l)) l.

Definition flakyTasks (clusters : list TaskCluster) : list (nat * TaskCluster) :=
  firstn 3 (List.filter (λ ic, isFlaky ic.2) (indexed clusters)).

Definition envLabels (envs : list FailingEnv) : string :=
  join ", " (map (λ e, guessEnvLabel (fe_pythonPath e)) envs).

(** Rule 5: flaky tasks. *)
Definition flakyInsights (clusters : list TaskCluster) : list MapInsight :=
  map
    (λ ic : nat * TaskCluster,
       let c := ic.2 in
       let failingEnvs := getFailingEnvs c 2 in
       let envHint :=
         if (0 <? length failingEnvs)%nat
         then " Failures concentrated in: " +:+ envLabels failingEnvs +:+ "."
         else "" in
       insight High
         ("Flaky task detected: " +:+ dq +:+ sig_name (c_sig c) +:+ dq +:+ " (success "
            +:+ toFixed0 (c_successRate c * 100)%float +:+ "%, " +:+ pretty (c_runs c)
            +:+ " runs). Dominant failure: " +:+ default "unknown" (c_dominantFailure c)
            +:+ "." +:+ envHint)
         [("taskSig", text (sigId (c_sig c))); ("runs", num (c_runs c));
          ("successRate", IRate (c_successRate c));
          ("dominantFailure", IVal (from_option VStr VUndefined (c_dominantFailure c)))])
    (flakyTasks clusters).

(** Rule 6: env-dependent flakes not already reported as flaky. *)
Definition envFlakyInsights (clusters : list TaskCluster) : list MapInsight :=
  let reported := map fst (flakyTasks clusters) in
  flat_map
    (λ ic : nat * TaskCluster,
       if bool_decide (ic.1 ∈ reported) then []
       else
         let c := ic.2 in
         let failingEnvs := getFailingEnvs c 2 in
         [insight High
            ("Env-dependent flake: " +:+ dq +:+ sig_name (c_sig c) +:+ dq
               +:+ " succeeds on some envs but fails on others. Problem envs: "
               +:+ envLabels failingEnvs +:+ ".")
            [("taskSig", text (sigId (c_sig c)));
             ("failingEnvs", IVal (VStrings (map fe_pythonPath failingEnvs)))]])
    (firstn 2 (List.filter (λ ic, isEnvDependentFlaky ic.2) (indexed clusters))).

Definition failByEnv (g : GraphJSONv1) : list (string * nat) :=
  fold_left
    (λ m e, map_set (e_to e) (default 0 (obj_get (e_to e) m) + default 1 (e_weight e)) m)
    (List.filter (λ e, bool_decide (e_type e = FAILED_RUN)) (g_edges g)) [].

Definition descByCount (l : list (string * nat)) : list (string * nat) :=
  sort (λ a b : string * nat, (b.2 <? a.2)%nat) l.

(** Rule 7: failure hotspots. *)
Definition hotspotInsights (g : GraphJSONv1) : list MapInsight :=
  flat_map
    (λ kv : string * nat,
       let '(envId, failCount) := kv in
       if (failCount <? 3)%nat then []
       else
         match List.find (λ n, String.eqb (n_id n) envId) (g_nodes g) with
         | None => []
         | Some env =>
             [insight High
                ("Failure hotspot: env " +:+ dq +:+ n_label env +:+ dq +:+ " is associated with "
                   +:+ pretty failCount
                   +:+ " failing runs. Consider rebuilding it or isolating it from routing.")
                [("envId", text envId); ("failCount", num failCount)]]
         end)
    (firstn 2 (descByCount (failByEnv g))).

Definition failureCodeCounts (clusters : list TaskCluster) : list (string * nat) :=
  fold_left
    (λ m c,
       fold_left (λ m kv, map_set kv.1 (default 0 (obj_get kv.1 m) + kv.2) m)
                 (c_failureCounts c) m)
    clusters [].

(** Rule 8: contagion. *)
Definition contagionInsights (g : GraphJSONv1) (clusters : list TaskCluster)
  : list MapInsight :=
  match clusters with
  | [] => []
  | _ =>
      let totalFailures := runsFailed (g_summary g) in
      match descByCount (failureCodeCounts clusters) with
      | (code, count) :: _ =>
          if (0 <? totalFailures)%nat
             && PrimFloat.leb 0.5 (float_of_nat count / float_of_nat totalFailures)
          then [insight High
                  ("Most failures (" +:+ pretty count +:+ "/" +:+ pretty totalFailures
                     +:+ ") share the same root cause: " +:+ code +:+ ". " +:+ hintForIssue code)
                  [("code", text code); ("count", num count);
                   ("totalFailures", num totalFailures)]]
          else []
      | [] => []
      end
  end.

Definition fallbackInsight : MapInsight :=
  {| i_severity := Low;
     i_text := "No major systemic risks detected. Keep env count small and prefer reproducible installs.";
     i_meta := None |}.

(** What the eight rules push, in order. *)
Definition ruleInsights (g : GraphJSONv1) (reports : list DoctorLiteReport)
    (clusters : list TaskCluster) : list MapInsight :=
  topIssueInsights g ++ blastRadiusInsights g ++ hygieneInsights reports
    ++ entropyInsights reports ++ flakyInsights clusters ++ envFlakyInsights clusters
    ++ hotspotInsights g ++ contagionInsights g clusters.

Definition aggregateInsights (g : GraphJSONv1) (reports : list DoctorLiteReport)
    (clusters : list TaskCluster) : list MapInsight :=
  let insights := ruleInsights g reports clusters in
  if (length insights =? 0)%nat then insights ++ [fallbackInsight] else insights.

(** ** The Mermaid renderer *)

Definition escapeMermaid (s : string) : string :=
  replace_char "|" "\|" (replace_char (ascii_of_nat 34) ("\" +:+ dq) s).

Definition mermaidLabel (node : GraphNode) : string :=
  let py := match truthy (n_python node ≫= py_version) with
            | Some v => "py" +:+ v
            | None => ""
            end in
  let score := match n_health node ≫= h_score with
               | Some s => "score " +:+ pretty s
               | None => ""
               end in
  let caps := match n_caps node ≫= cap_features with
              | Some (f :: fs) => join "," (firstn 3 (f :: fs))
              | _ => ""
              end in
  let nonEmpty := List.filter (λ s, negb (String.eqb s "")) in
  let line2 := join bullet (nonEmpty [py; score; caps]) in
  join "<br/>" (nonEmpty [n_label node; line2]).

(** [idMap.get(id)]: defined for the ids of the graph's nodes. *)
Definition mermaidIdOf (g : GraphJSONv1) (id : string) : option string :=
  if existsb (λ n, String.eqb (n_id n) id) (g_nodes g) then Some (safeMermaidId id)
  else None.

(** [nodeById.get(id)]: a later node of the same id replaces an earlier one. *)
Definition nodeById (g : GraphJSONv1) (id : string) : option GraphNode :=
  List.find (λ n, String.eqb (n_id n) id) (rev (g_nodes g)).

(** The value of [meta.dominantIssue] when it is truthy: the emoji of the
    code (a value that is no string has the default one) and its text. *)
Definition hotLabel (e : GraphEdge) : option string :=
  match e_meta e ≫= obj_get "dominantIssue" with
  | Some (VStr s) =>
      if String.eqb s "" then None else Some (emojiForIssue s +:+ " " +:+ s)
  | Some (VNum n) =>
      if (n =? 0)%Z then None else Some (emojiForIssue "" +:+ " " +:+ pretty n)
  | Some (VStrings l) => Some (emojiForIssue "" +:+ " " +:+ join "," l)
  | _ => None
  end.

Definition edgeTypeName (t : EdgeType) : string :=
  match t with
  | USES_BASE => "USES_BASE"
  | CREATED_FROM => "CREATED_FROM"
  | ROUTES_TASK_TO => "ROUTES_TASK_TO"
  | FAILED_RUN => "FAILED_RUN"
  | SHARES_WHEELHOUSE => "SHARES_WHEELHOUSE"
  | SHADOWS_PATH => "SHADOWS_PATH"
  end.

Definition nodeLine (g : GraphJSONv1) (n : GraphNode) : string :=
  let cls := match n_type n with
             | NBase => "base"
             | NTask => "task"
             | _ => mermaidClass (from_option h_status Unknown (n_health n))
             end in
  "  " +:+ default "undefined" (mermaidIdOf g (n_id n)) +:+ "[" +:+ dq
    +:+ escapeMermaid (mermaidLabel n) +:+ dq +:+ "]:::" +:+ cls.

Definition usesBaseLine (g : GraphJSONv1) (hotEdges : bool) (e : GraphEdge) : string :=
  let label := if hotEdges then default "USES_BASE" (hotLabel e) else "USES_BASE" in
  "  " +:+ default "undefined" (mermaidIdOf g (e_from e)) +:+ " -->|"
    +:+ escapeMermaid label +:+ "| " +:+ default "undefined" (mermaidIdOf g (e_to e)).

Definition subgraphLines (g : GraphJSONv1) (usesBase : list GraphEdge) (base : GraphNode)
  : list string :=
  let attached :=
    List.filter (λ n, bool_decide (n_type n = NVenv))
      (omap (λ e, nodeById g (e_to e))
            (List.filter (λ e, String.eqb (e_from e) (n_id base)) usesBase)) in
  match attached with
  | [] => []
  | _ =>
      ["  subgraph " +:+ default "undefined" (mermaidIdOf g (n_id base)) +:+ "_cluster["
         +:+ dq +:+ escapeMermaid (n_label base) +:+ dq +:+ "]"]
        ++ map (λ v, "    " +:+ default "undefined" (mermaidIdOf g (n_id v))) attached
        ++ ["  end"]
  end.

Definition taskEdgeLines (g : GraphJSONv1) (e : GraphEdge) : list string :=
  match mermaidIdOf g (e_from e), mermaidIdOf g (e_to e) with
  | Some from, Some to =>
      let label := default (edgeTypeName (e_type e)) (e_label e) in
      let style := if bool_decide (e_type e = FAILED_RUN) then " -.->|" else " -->|" in
      ["  " +:+ from +:+ style +:+ escapeMermaid label +:+ "| " +:+ to]
  | _, _ => []
  end.

Definition legendLine : string :=
  "  legend[" +:+ dq
    +:+ "Legend<br/>green=good ‚Ä¢ yellow=warn ‚Ä¢ red=bad ‚Ä¢ purple=task<br/>edge label = dominant failure"
    +:+ dq +:+ "]:::unknown".

Definition renderMermaid (g : GraphJSONv1) (includeSubgraphs hotEdges : option bool)
  : string :=
  let includeSubgraphs := default true includeSubgraphs in
  let hotEdges := default true hotEdges in
  let baseNodes := countType NBase (g_nodes g) in
  let usesBase := List.filter (λ e, bool_decide (e_type e = USES_BASE)) (g_edges g) in
  let taskEdges :=
    List.filter (λ e, bool_decide (e_type e = ROUTES_TASK_TO)
                      || bool_decide (e_type e = FAILED_RUN)) (g_edges g) in
  join (String newline EmptyString)
    (["graph TD"]
       ++ map (nodeLine g) (g_nodes g)
       ++ map (usesBaseLine g hotEdges) usesBase
       ++ (if includeSubgraphs then flat_map (subgraphLines g usesBase) baseNodes else [])
       ++ flat_map (taskEdgeLines g) taskEdges
       ++ [ "";
            "  classDef good fill:#eaffea,stroke:#2b8a3e,stroke-width:1px;";
            "  classDef warn fill:#fff4d6,stroke:#b7791f,stroke-width:1px;";
            "  classDef bad fill:#ffe3e3,stroke:#c92a2a,stroke-width:1px;";
            "  classDef unknown fill:#f1f3f5,stroke:#868e96,stroke-width:1px;";
            "  classDef base fill:#e7f5ff,stroke:#1c7ed6,stroke-width:1px;";
            "  classDef task fill:#f8f0fc,stroke:#862e9c,stroke-width:1px;";
            "";
            legendLine ]).

(** ** mapRender *)

Section mapRender.
Context (W : World).

(** The task part: the builder after it, the pass and fail totals and the
    clusters. *)
Definition taskPhase (mode : TaskMode) (runs : list RunLogEventV1) (b : Builder)
  : Builder * nat * nat * list TaskCluster :=
  if negb (bool_decide (mode = TMNone)) && (0 <? length runs)%nat then
    let runsPassed := length (List.filter (λ r, o_ok (outcome r)) runs) in
    let runsFailed := length (List.filter (λ r, negb (o_ok (outcome r))) runs) in
    if bool_decide (mode = TMClustered) then
      let clusters := clusterRuns runs in
      (fold_left (clusterTaskStep W) clusters b, runsPassed, runsFailed, clusters)
    else
      (fold_left (runTaskStep W) runs b, runsPassed, runsFailed, [])
  else (b, 0, 0, []).

(** The surviving reports. *)
Definition includedReports (reports : list DoctorLiteReport) (options : MapRenderOptions)
  : list DoctorLiteReport :=
  List.filter (λ r, shouldIncludeReport W r options) reports.

(** The report part: the environment nodes and base edges, then the base
    health rolled up from the children, then the node index. *)
Definition reportPhase (included : list DoctorLiteReport) : Builder :=
  let b1 := fold_left (envStep W) included emptyBuilder in
  let rolled := rollup (edges b1) (nodes b1) in
  {| nodes := rolled; edges := edges b1; baseIdByKey := baseIdByKey b1;
     envIdByPyPath := envIdByPyPath b1; nodeIndex := indexNodes rolled;
     ticks := ticks b1 |}.

(** The builder when all nodes and edges are made, with the pass and fail
    totals and the clusters. *)
Definition build (reports : list DoctorLiteReport) (runs : list RunLogEventV1)
    (options : MapRenderOptions) : Builder * nat * nat * list TaskCluster :=
  taskPhase (default TMClustered (taskMode options)) runs
            (reportPhase (includedReports reports options)).

Definition mapRender (reports : list DoctorLiteReport) (runs : list RunLogEventV1)
    (options : MapRenderOptions) : MapRenderResult :=
  let fmt := default FBoth (format options) in
  let maxTop := default 10%Z (maxTopIssues options) in
  let included := includedReports reports options in
  let '(b, passed, failed, clusters) := build reports runs options in
  let '(healthy, warning, broken) := summarizeCounts (nodes b) in
  let g :=
    {| g_version := "1.0";
       generatedAt := clock W (ticks b);
       g_host := {| host_os := platform W; host_arch := arch W; host_hostname := hostname W |};
       g_summary :=
         {| envCount := length (countType NVenv (nodes b));
            baseCount := length (countType NBase (nodes b));
            taskCount := length (countType NTask (nodes b));
            healthy := healthy; warning := warning; broken := broken;
            runsPassed := passed; runsFailed := failed;
            topIssues := countTopIssues included maxTop |};
       g_nodes := nodes b;
       g_edges := edges b |} in
  {| graph := g;
     mermaid :=
       match fmt with
       | FJson => None
       | _ => Some (renderMermaid g (Some (default true (includeBaseSubgraphs options)))
                                    (Some (default true (includeHotEdgeLabels options))))
       end;
     insights := aggregateInsights g included clusters |}.

(** The id of the environment node of a path. *)
Definition envIdOf (pythonPath : string) : string :=
  stableId "env" (normPath W pythonPath).

End mapRender.

(** ** Example inputs *)

Module Ex.

Definition world : World :=
  {| platform := "linux"; arch := "x64"; hostname := "devbox";
     clock := λ n, "2024-06-01T12:00:0" +:+ pretty n +:+ "Z" |}.

(** The same host one hour later. *)
Definition laterWorld : World :=
  {| platform := "linux"; arch := "x64"; hostname := "devbox";
     clock := λ n, "2024-06-01T13:00:0" +:+ pretty n +:+ "Z" |}.

Definition options : MapRenderOptions :=
  {| format := None; filter_ := None; includeBaseSubgraphs := None;
     includeHotEdgeLabels := None; maxTopIssues := None; taskMode := None |}.

Definition runsMode : MapRenderOptions :=
  {| format := None; filter_ := None; includeBaseSubgraphs := None;
     includeHotEdgeLabels := None; maxTopIssues := None; taskMode := Some TMRuns |}.

Definition report (pythonPath : string) (status : HealthStatus) (score : Z)
    (basePrefix : string) : DoctorLiteReport :=
  {| r_pythonPath := pythonPath;
     r_ranAt := Some "2024-01-01T00:00:00Z";
     r_status := Some status;
     r_score := Some score;
     r_facts := Some {| fa_version := Some "3.11.4"; fa_version_info := Some [3; 11; 4]%Z;
                        fa_prefix := None; fa_base_prefix := Some basePrefix;
                        fa_bits := Some 64%Z |};
     r_findings := [] |}.

(** Three environments of scores 90, 50 and 30 under one base, two of them bad. *)
Definition threeUnderOneBase : list DoctorLiteReport :=
  [ report "/p1/.venv/bin/python" Bad 90 "/usr";
    report "/p2/.venv/bin/python" Good 50 "/usr";
    report "/p3/.venv/bin/python" Bad 30 "/usr" ].

Definition run (name command pythonPath : string) (ok : bool)
    (status : option HealthStatus) : RunLogEventV1 :=
  {| runId := "run-" +:+ name; at_ := "2024-02-01T00:00:00Z"; cwd := None;
     task := {| t_name := name; t_command := command; t_requirements := None |};
     selected := {| s_pythonPath := pythonPath; s_score := None; s_status := status |};
     outcome := {| o_ok := ok; o_exitCode := ExitAbsent; o_errorClass := None;
                   o_stderrSnippet := None |};
     doctor := None |}.

Definition emptyGraph : GraphJSONv1 :=
  {| g_version := "1.0"; generatedAt := "2024-06-01T12:00:00Z";
     g_host := {| host_os := "linux"; host_arch := "x64"; host_hostname := "devbox" |};
     g_summary := {| envCount := 0; baseCount := 0; taskCount := 0; healthy := 0;
                     warning := 0; broken := 0; runsPassed := 0; runsFailed := 0;
                     topIssues := [] |};
     g_nodes := []; g_edges := [] |}.

(** A run on an environment no report describes. *)
Definition lintRun : RunLogEventV1 := run "lint" "ruff check" "/zz/bin/python" false None.

(** A run whose selected environment was recorded as good. *)
Definition goodEnvRun : RunLogEventV1 :=
  run "lint" "ruff check" "/zz/bin/python" true (Some Good).

End Ex.

Module Ex2.

(** A report that carries no time of its own. *)
Definition timelessReport : DoctorLiteReport :=
  {| r_pythonPath := "/p4/.venv/bin/python";
     r_ranAt := None;
     r_status := Some Good;
     r_score := Some 80%Z;
     r_facts := Some {| fa_version := Some "3.11.4"; fa_version_info := Some [3; 11; 4]%Z;
                        fa_prefix := None; fa_base_prefix := Some "/usr";
                        fa_bits := Some 64%Z |};
     r_findings := [] |}.

(** A report with its time, one without, and a run on an environment that
    no report describes. *)
Definition reports : list DoctorLiteReport :=
  [Ex.report "/p1/.venv/bin/python" Bad 90 "/usr"; timelessReport].

End Ex2.

(** A node standing for "no node", where a lookup needs a default. *)
Definition fallbackNode : GraphNode :=
  {| n_id := ""; n_type := NArtifact; n_label := ""; n_path := None; n_python := None;
     n_health := None; n_caps := None; n_fingerprints := None; n_lastSeenAt := None |}.


(** ** Notions the properties are stated with *)

(** [a] may stand before [b] in a list sorted by [before]: [b] is not
    strictly before [a]. *)
Definition notAfter {A} (before : A → A → bool) (a b : A) : Prop := before b a = false.







(** Text of ASCII characters: on it [trim], [\s] and [toLowerCase] are the
    functions above, and the digest is that of its UTF-8 bytes. *)
Definition asciiText (s : string) : Prop :=
  Forall (λ c, (N_of_ascii c < 128)%N) (chars s).


(** Trimming the end and collapsing the runs of white space in one pass:
    a run that reaches the end of the text is dropped. *)
Fixpoint squeeze (in_run : bool) (l : list ascii) : list ascii :=
  match l with
  | [] => []
  | c :: l' =>
      if is_space c
      then (if forallb is_space l' then []
            else if in_run then squeeze true l' else " "%char :: squeeze true l')
      else c :: squeeze false l'
  end.

(** A cluster as [clusterRuns] leaves it after [ok] passing and [fail]
    failing runs of one task, and the flakiness test on the counts in exact
    arithmetic: 1/5 < ok/(ok+fail) < 95/100. *)
Definition tally (ok fail : nat) : TaskCluster :=
  derive {| c_sig := {| sigId := "task_0"; sig_name := "t"; sig_command := "t";
                        requirementsKey := "" |};
            c_runs := ok + fail; c_ok := ok; c_fail := fail; c_successRate := 0;
            c_lastAt := ""; c_dominantFailure := None; c_failureCounts := [];
            c_envCounts := []; c_envFailCounts := []; c_envOkCounts := [] |}.

Definition strictlyBetween (ok fail : nat) : bool :=
  ((0 <? ok) && (0 <? fail)
   && (ok + fail <? 5 * ok) && (100 * ok <? 95 * (ok + fail)))%nat.

Module Ex5.





End Ex5.

(** ** Invariants of the builder *)

Definition ids (ns : list GraphNode) : list string := map n_id ns.

(** The first character of an id tells the kind of node: [env:], [base:]
    and [task:] ids cannot coincide. *)
Definition kindOf (id : string) : option ascii :=
  match id with
  | String c _ => Some c
  | EmptyString => None
  end.

Definition nodeKindOk (n : GraphNode) : Prop :=
  match n_type n with
  | NVenv => kindOf (n_id n) = Some "e"%char
  | NBase => kindOf (n_id n) = Some "b"%char
  | NTask => kindOf (n_id n) = Some "t"%char
  | NArtifact => False
  end.

Definition edgeKindOk (e : GraphEdge) : Prop :=
  match e_type e with
  | USES_BASE => kindOf (e_from e) = Some "b"%char ∧ kindOf (e_to e) = Some "e"%char
  | ROUTES_TASK_TO | FAILED_RUN =>
      kindOf (e_from e) = Some "t"%char ∧ kindOf (e_to e) = Some "e"%char
  | _ => False
  end.

Record BuilderInv (b : Builder) : Prop := {
  inv_edges : ∀ e, e ∈ edges b → e_from e ∈ ids (nodes b) ∧ e_to e ∈ ids (nodes b);
  inv_bases : ∀ k id, baseIdByKey b !! k = Some id →
                      id = stableId "base" k ∧ id ∈ ids (nodes b);
  inv_index : ∀ k, is_Some (nodeIndex b !! k) → k ∈ ids (nodes b);
  inv_envIds : ∀ k id, envIdByPyPath b !! k = Some id → id = stableId "env" k;
  inv_nodeKinds : Forall nodeKindOk (nodes b);
  inv_edgeKinds : Forall edgeKindOk (edges b);
}.

(** [b'] has the nodes and edges of [b] and possibly more after them. *)
Definition extends (b b' : Builder) : Prop :=
  (∃ ns, nodes b' = nodes b ++ ns) ∧ (∃ es, edges b' = edges b ++ es).

(** What [rollupAt] leaves in place of a node. *)
Definition sameButHealth (n n' : GraphNode) : Prop :=
  n' = n ∨ (n_type n = NBase ∧ ∃ h, n' = setHealth n h).

(** Every node is in the node index (true from the roll-up on). *)
Definition indexComplete (b : Builder) : Prop :=
  ∀ id, id ∈ ids (nodes b) → is_Some (nodeIndex b !! id).

(** What the task part adds to [b]: edges other than USES_BASE, task nodes,
    and environment nodes of ids [b] does not have. *)
Definition taskExtends (b b' : Builder) : Prop :=
  ∃ ns es,
    nodes b' = nodes b ++ ns ∧ edges b' = edges b ++ es
    ∧ Forall (λ e, e_type e ≠ USES_BASE) es
    ∧ Forall (λ n, n_type n = NTask ∨ (n_type n = NVenv ∧ n_id n ∉ ids (nodes b))) ns.

Definition usesBase (e : GraphEdge) : bool := bool_decide (e_type e = USES_BASE).

Definition fallbackEdge : GraphEdge :=
  {| e_id := ""; e_from := ""; e_to := ""; e_type := SHADOWS_PATH; e_label := None;
     e_weight := None; e_meta := None |}.




(** The node has the id [X]. *)
Definition idIs (X : string) (n : GraphNode) : bool := String.eqb (n_id n) X.

(** An environment node of unknown health. *)
Definition unknownEnv (n : GraphNode) : Prop :=
  n_type n = NVenv
  ∧ n_health n = Some {| h_status := Unknown; h_score := None; h_issues := None |}.

(** A ROUTES_TASK_TO edge from [taskId] to [envId]. *)
Definition routes (taskId envId : string) (e : GraphEdge) : Prop :=
  e_type e = ROUTES_TASK_TO ∧ e_from e = taskId ∧ e_to e = envId.

(** The id of the task node of a run in "runs" mode. *)
Definition runTaskId (run : RunLogEventV1) : string :=
  stableId "task"
    (if String.eqb (runId run) ""
     then t_name (task run) +:+ "|" +:+ t_command (task run) +:+ "|" +:+ at_ run
            +:+ "|" +:+ s_pythonPath (selected run)
     else runId run).

(** The environment node "runs" mode makes for the path of [run]. *)
Definition runEnvNode (W : World) (run : RunLogEventV1) : GraphNode :=
  missingEnvNode (envIdOf W (s_pythonPath (selected run))) (s_pythonPath (selected run))
    {| h_status := default Unknown (s_status (selected run));
       h_score := s_score (selected run); h_issues := None |} (at_ run).

(** The run is counted in the cluster of its signature, under its path. *)
Definition clustered (r : RunLogEventV1) (c : TaskCluster) : Prop :=
  sigId (c_sig c) = sigId (signatureForRun r)
  ∧ is_Some (obj_get (s_pythonPath (selected r)) (c_envCounts c)).

(** In clustered mode: every node of id [X] is an environment node of
    unknown health, and there is at most one. *)
Definition unknownOnly (X : string) (b : Builder) : Prop :=
  BuilderInv b ∧ indexComplete b
  ∧ (∀ n, n ∈ nodes b → n_id n = X → unknownEnv n)
  ∧ length (List.filter (idIs X) (nodes b)) ≤ 1.

(** In "runs" mode, from the first run on [X]: the one node of id [X] is
    [n0]. *)
Definition onlyNode (X : string) (n0 : GraphNode) (b : Builder) : Prop :=
  BuilderInv b ∧ indexComplete b ∧ List.filter (idIs X) (nodes b) = [n0].

(** In "runs" mode, before the first run on [X]: no node has the id [X]. *)
Definition noNode (X : string) (b : Builder) : Prop :=
  BuilderInv b ∧ indexComplete b ∧ X ∉ ids (nodes b).

(** ** Results up to the wall clock *)

(** The node without its last-seen time, for the node types [q] selects. *)
Definition erase (q : NodeType → bool) (n : GraphNode) : GraphNode :=
  if q (n_type n) then
    {| n_id := n_id n; n_type := n_type n; n_label := n_label n; n_path := n_path n;
       n_python := n_python n; n_health := n_health n; n_caps := n_caps n;
       n_fingerprints := n_fingerprints n; n_lastSeenAt := None |}
  else n.

(** The graph without its generation time and the selected last-seen times. *)
Definition eraseGraph (q : NodeType → bool) (g : GraphJSONv1) : GraphJSONv1 :=
  {| g_version := g_version g; generatedAt := ""; g_host := g_host g;
     g_summary := g_summary g; g_nodes := map (erase q) (g_nodes g);
     g_edges := g_edges g |}.

Definition eraseResult (q : NodeType → bool) (res : MapRenderResult) : MapRenderResult :=
  {| graph := eraseGraph q (graph res); mermaid := mermaid res; insights := insights res |}.

(** The result without the generation time alone. *)
Definition withoutGeneratedAt (res : MapRenderResult) : MapRenderResult :=
  {| graph := {| g_version := g_version (graph res); generatedAt := "";
                 g_host := g_host (graph res); g_summary := g_summary (graph res);
                 g_nodes := g_nodes (graph res); g_edges := g_edges (graph res) |};
     mermaid := mermaid res; insights := insights res |}.

Definition allNodes (t : NodeType) : bool := true.
Definition baseNodes (t : NodeType) : bool := bool_decide (t = NBase).

(** Two calls on one host: all but the clock is the same. *)
Definition sameHost (W1 W2 : World) : Prop :=
  platform W1 = platform W2 ∧ arch W1 = arch W2 ∧ hostname W1 = hostname W2.

(** Two builders that agree up to the erased times. *)
Definition sim (q : NodeType → bool) (b1 b2 : Builder) : Prop :=
  map (erase q) (nodes b1) = map (erase q) (nodes b2)
  ∧ edges b1 = edges b2
  ∧ baseIdByKey b1 = baseIdByKey b2
  ∧ envIdByPyPath b1 = envIdByPyPath b2
  ∧ erase q <$> nodeIndex b1 = erase q <$> nodeIndex b2.

(** The nodes without the last-seen times read from the clock: those of the
    base nodes, and those of the environment nodes of the surviving reports
    without [ranAt]. The environment nodes of the surviving reports are the
    first environment nodes of the graph, in the order of the reports;
    [timeless] tells, report by report, whether the report lacks [ranAt].
    The environment nodes after them are those made for runs: they keep
    their times, as the task nodes do. *)
Fixpoint eraseClock (timeless : list bool) (ns : list GraphNode) : list GraphNode :=
  match ns with
  | [] => []
  | n :: ns' =>
      match n_type n, timeless with
      | NBase, _ => erase allNodes n :: eraseClock timeless ns'
      | NVenv, t :: ts => (if t then erase allNodes n else n) :: eraseClock ts ns'
      | _, _ => n :: eraseClock timeless ns'
      end
  end.

(** The last-seen times [eraseClock] keeps, in order. *)
Fixpoint keptTimes (timeless : list bool) (ns : list GraphNode) : list (option string) :=
  match ns with
  | [] => []
  | n :: ns' =>
      match n_type n, timeless with
      | NBase, _ => keptTimes timeless ns'
      | NVenv, t :: ts => (if t then [] else [n_lastSeenAt n]) ++ keptTimes ts ns'
      | _, _ => n_lastSeenAt n :: keptTimes timeless ns'
      end
  end.

Definition timelessReports (included : list DoctorLiteReport) : list bool :=
  map (λ r, bool_decide (r_ranAt r = None)) included.

(** The result without what is read from the clock: the generation time and
    the last-seen times of [eraseClock]. *)
Definition withoutClock (timeless : list bool) (res : MapRenderResult) : MapRenderResult :=
  {| graph := {| g_version := g_version (graph res); generatedAt := "";
                 g_host := g_host (graph res); g_summary := g_summary (graph res);
                 g_nodes := eraseClock timeless (g_nodes (graph res));
                 g_edges := g_edges (graph res) |};
     mermaid := mermaid res; insights := insights res |}.


(** ** taskCluster.ts: the summary of a set of clusters *)

Record ClusterSummary := {
  totalTasks : nat;
  totalRuns : nat;
  totalOk : nat;
  totalFail : nat;
  overallSuccessRate : float;
  flakyCount : nat;
  envDependentFlakyCount : nat;
}.

(** The five counters of the loop of [summarizeClusters]. *)
Definition summaryStep (acc : nat * nat * nat * nat * nat) (c : TaskCluster)
  : nat * nat * nat * nat * nat :=
  let '(runs, ok, fail, flaky, envFlaky) := acc in
  (runs + c_runs c, ok + c_ok c, fail + c_fail c,
   if isFlaky c then S flaky else flaky,
   if isEnvDependentFlaky c then S envFlaky else envFlaky).

Definition summarizeClusters (clusters : list TaskCluster) : ClusterSummary :=
  let '(runs, ok, fail, flaky, envFlaky) :=
    fold_left summaryStep clusters (0, 0, 0, 0, 0) in
  {| totalTasks := length clusters;
     totalRuns := runs;
     totalOk := ok;
     totalFail := fail;
     overallSuccessRate :=
       if (runs =? 0)%nat then 0%float else (float_of_nat ok / float_of_nat runs)%float;
     flakyCount := flaky;
     envDependentFlakyCount := envFlaky |}.

(** ** Notions about clusters *)

(** The runs of [runs] that carry the signature id [k]. *)
Definition runsOf (k : string) (runs : list RunLogEventV1) : list RunLogEventV1 :=
  List.filter (λ r, String.eqb (sigId (signatureForRun r)) k) runs.

Definition passed (r : RunLogEventV1) : bool := o_ok (outcome r).
Definition failed (r : RunLogEventV1) : bool := negb (o_ok (outcome r)).

(** What the loop of [clusterRuns] keeps true of a cluster's counters. *)
Definition counted (c : TaskCluster) : Prop :=
  c_runs c = c_ok c + c_fail c
  ∧ c_dominantFailure c = None
  ∧ (c_ok c = 0 → c_envOkCounts c = [])
  ∧ (c_fail c = 0 → c_envFailCounts c = [] ∧ c_failureCounts c = [])
  ∧ Forall (λ kv : string * nat, 1 ≤ kv.2) (c_failureCounts c)
  ∧ Forall (λ kv : string * nat,
              1 ≤ kv.2 ∧ ∃ t, obj_get kv.1 (c_envCounts c) = Some t ∧ kv.2 ≤ t)
           (c_envFailCounts c)
  ∧ Forall (λ kv : string * nat,
              1 ≤ kv.2 ∧ ∃ t, obj_get kv.1 (c_envCounts c) = Some t ∧ kv.2 ≤ t)
           (c_envOkCounts c).

(** A command in the form [normCmd] gives: no white space at either end,
    single spaces between the words, no capital letter. [prev] tells that
    the character before was a space. *)
Fixpoint tidy_from (prev : bool) (l : list ascii) : bool :=
  match l with
  | [] => negb prev
  | c :: l' =>
      if is_space c then negb prev && Ascii.eqb c " " && tidy_from true l'
      else negb (is_upper c) && tidy_from false l'
  end.

Definition tidy (s : string) : bool :=
  match chars s with
  | [] => true
  | l => tidy_from true l
  end.

(** The state of the cluster map after the runs [pre]. *)
Definition clustersOf (pre : list RunLogEventV1) (m : list (string * TaskCluster)) : Prop :=
  NoDup (map fst m)
  ∧ (∀ k c, obj_get k m = Some c →
       sigId (c_sig c) = k ∧ counted c
       ∧ c_runs c = length (runsOf k pre)
       ∧ c_ok c = length (List.filter passed (runsOf k pre))
       ∧ c_fail c = length (List.filter failed (runsOf k pre))
       ∧ (∀ r, r ∈ runsOf k pre → String.ltb (c_lastAt c) (at_ r) = false)
       ∧ (∃ r, r ∈ runsOf k pre ∧ at_ r = c_lastAt c))
  ∧ (∀ k, obj_get k m = None → runsOf k pre = [])
  ∧ sum_list_with c_runs (map snd m) = length pre
  ∧ sum_list_with c_ok (map snd m) = length (List.filter passed pre)
  ∧ sum_list_with c_fail (map snd m) = length (List.filter failed pre).

Module ExC.

(** One task on two environments: it passes on the first and fails on the
    second, there with a broken SSL module twice and a missing DLL once. *)
Definition lint (pythonPath at_ : string) (ok : bool) (errorClass : option string)
  : RunLogEventV1 :=
  {| runId := "run-lint"; at_ := at_; cwd := None;
     task := {| t_name := "lint"; t_command := "ruff check"; t_requirements := None |};
     selected := {| s_pythonPath := pythonPath; s_score := None; s_status := None |};
     outcome := {| o_ok := ok; o_exitCode := ExitAbsent; o_errorClass := errorClass;
                   o_stderrSnippet := None |};
     doctor := None |}.

Definition runs : list RunLogEventV1 :=
  [ lint "/a/bin/python" "2024-02-01T00:00:00Z" true None;
    lint "/b/bin/python" "2024-02-03T00:00:00Z" false (Some "SSL_BROKEN");
    lint "/b/bin/python" "2024-02-02T00:00:00Z" false (Some "DLL_LOAD_FAIL");
    lint "/b/bin/python" "2024-02-02T12:00:00Z" false (Some "SSL_BROKEN") ].

(** The one cluster of these runs. *)
Definition cluster : TaskCluster := default (tally 0 0) (head (clusterRuns runs)).

End ExC.

(** ** doctorLite.ts: the score and status of a report *)

Definition clampScoreForHardFails (score : Z) (findings : list Finding) : Z :=
  if hasCode "PYTHON_EXEC_MISSING" findings then 0
  else if hasCode "ARCH_MISMATCH" findings then Z.min score 15
  else if hasCode "DLL_LOAD_FAIL" findings || hasCode "ABI_MISMATCH" findings
  then Z.min score 25
  else if hasCode "SUBPROCESS_BROKEN" findings then Z.min score 25
  else score.

Definition isBad (f : Finding) : bool := bool_decide (f_severity f = SevBad).

Definition computeStatus (score : Z) (findings : list Finding) : HealthStatus :=
  if existsb isBad findings then Bad
  else if (85 <=? score)%Z then Good
  else if (60 <=? score)%Z then Warn
  else Bad.

(** [findings.reduce((sum, f) => sum + (f.penalty ?? 0), 0)] *)
Definition totalPenalty (findings : list Finding) : Z :=
  fold_left (λ sum f, sum + default 0 (f_penalty f))%Z findings 0%Z.

Definition scoreReport (findings : list Finding) : Z * HealthStatus :=
  let penalty := totalPenalty findings in
  let score := Z.max 0 (100 - penalty) in
  let score := clampScoreForHardFails score findings in
  (score, computeStatus score findings).

(** [envIdFromPythonPath] *)
Definition envIdFromPythonPath (W : World) (pythonPath : string) : string :=
  "py:" +:+ (if String.eqb (platform W) "win32" then toLowerCase pythonPath
             else pythonPath).

(** The codes that cap the score. *)
Definition hardFailCodes : list string :=
  ["PYTHON_EXEC_MISSING"; "ARCH_MISMATCH"; "DLL_LOAD_FAIL"; "ABI_MISMATCH";
   "SUBPROCESS_BROKEN"].

Definition hardFail (findings : list Finding) : bool :=
  existsb (λ code, hasCode code findings) hardFailCodes.

(** ** runLog.ts *)

(** [newRunId(input)]: [uuid] is what [randomUUID()] returns when it is
    called, for no seed or the empty one. *)
Definition newRunId (uuid : string) (input : option string) : string :=
  match truthy input with
  | None => uuid
  | Some seed => "run_" +:+ slice0 16 (Sha256.sha256Hex seed)
  end.

Record PassFail := {
  pf_passed : nat;
  pf_failed : nat;
}.

Record RunSummary := {
  rs_total : nat;
  rs_passed : nat;
  rs_failed : nat;
  rs_byTask : list (string * PassFail);
  rs_byEnv : list (string * PassFail);
}.

(** [if (run.outcome.ok) stats.passed++; else stats.failed++] *)
Definition countRun (ok : bool) (stats : PassFail) : PassFail :=
  if ok then {| pf_passed := pf_passed stats + 1; pf_failed := pf_failed stats |}
  else {| pf_passed := pf_passed stats; pf_failed := pf_failed stats + 1 |}.

(** [stats = m.get(key) ?? { passed: 0, failed: 0 }; ...; m.set(key, stats)] *)
Definition countUnder (key : string) (ok : bool) (m : list (string * PassFail))
  : list (string * PassFail) :=
  map_set key (countRun ok (default {| pf_passed := 0; pf_failed := 0 |} (obj_get key m))) m.

(** The body of the loop of [summarizeRuns], on its two counters and two
    maps. *)
Definition runsStep
    (acc : nat * nat * list (string * PassFail) * list (string * PassFail))
    (run : RunLogEventV1)
  : nat * nat * list (string * PassFail) * list (string * PassFail) :=
  let '(passed, failed, byTask, byEnv) := acc in
  let ok := o_ok (outcome run) in
  (if ok then passed + 1 else passed,
   if ok then failed else failed + 1,
   countUnder (t_name (task run)) ok byTask,
   countUnder (s_pythonPath (selected run)) ok byEnv).

Definition summarizeRuns (runs : list RunLogEventV1) : RunSummary :=
  let '(passed, failed, byTask, byEnv) := fold_left runsStep runs (0, 0, [], []) in
  {| rs_total := length runs; rs_passed := passed; rs_failed := failed;
     rs_byTask := byTask; rs_byEnv := byEnv |}.

(** ** Notions about identifiers *)

Definition is_hex (c : ascii) : bool :=
  is_digit c || ((97 <=? N_of_ascii c)%N && (N_of_ascii c <=? 102)%N).

(** A string of [n] lower-case hexadecimal digits. *)
Definition hexOf (n : nat) (s : string) : Prop :=
  length (chars s) = n ∧ forallb is_hex (chars s) = true.

(** The passes and failures of a list of runs. *)
Definition passFail (rs : list RunLogEventV1) : PassFail :=
  {| pf_passed := length (List.filter passed rs);
     pf_failed := length (List.filter failed rs) |}.

(** The passes and failures of the runs of [runs] whose key under [key] is
    [k], if there is such a run. *)
Definition countsOf (key : RunLogEventV1 → string) (k : string)
    (runs : list RunLogEventV1) : option PassFail :=
  match List.filter (λ r, String.eqb (key r) k) runs with
  | [] => None
  | rs => Some (passFail rs)
  end.

Module ExD.

Definition sslBroken : Finding :=
  {| f_code := "SSL_BROKEN"; f_severity := SevBad; f_penalty := Some 40%Z;
     f_what := "SSL module cannot be imported" |}.

Definition pipMissing : Finding :=
  {| f_code := "PIP_MISSING"; f_severity := SevWarn; f_penalty := Some 25%Z;
     f_what := "pip is missing or not runnable" |}.

End ExD.

(** ** Notions about the graph *)

(** What every insight of a rule carries: metadata, and a severity above
    low. *)
Definition ruled (i : MapInsight) : Prop :=
  is_Some (i_meta i) ∧ i_severity i ≠ Low.

(** Every FAILED_RUN edge of the builder runs beside a ROUTES_TASK_TO edge. *)
Definition failuresRouted (b : Builder) : Prop :=
  ∀ e, e ∈ edges b → e_type e = FAILED_RUN →
       ∃ e', e' ∈ edges b ∧ routes (e_from e) (e_to e) e'.

(** A character [escapeMermaid] escapes: the double quote or the bar. *)
Definition is_special (c : ascii) : bool :=
  Ascii.eqb c (ascii_of_nat 34) || Ascii.eqb c "|".

(** Every double quote and bar of the text stands behind a backslash;
    [prev] tells that the character before was a backslash. *)
Fixpoint guarded (prev : bool) (l : list ascii) : bool :=
  match l with
  | [] => true
  | c :: l' => (if is_special c then prev else true) && guarded (Ascii.eqb c "\") l'
  end.

(** The text with the backslash before a double quote or a bar taken away. *)
Fixpoint unescape (l : list ascii) : list ascii :=
  match l with
  | [] => []
  | c :: l' =>
      match l' with
      | c' :: r =>
          if Ascii.eqb c "\" && is_special c' then c' :: unescape r
          else c :: unescape l'
      | [] => [c]
      end
  end.



(** The number of nodes of a type. *)
Definition typeCount (t : NodeType) (ns : list GraphNode) : nat :=
  length (countType t ns).

(** What one task of the run log appends: one task node, and environment
    nodes. *)
Definition oneTask (D : list GraphNode) : Prop :=
  typeCount NTask D = 1 ∧ typeCount NBase D = 0 ∧ typeCount NArtifact D = 0.

(** The body of the counting loop of [countTopIssues], and the counts after
    the findings [fs]. *)
Definition issueStep (counts : list (string * nat)) (f : Finding) : list (string * nat) :=
  if nonInfo f
  then map_set (f_code f) (default 0 (obj_get (f_code f) counts) + 1) counts
  else counts.

(** How often the findings other than informational ones name [code]. *)
Definition occurrences (code : string) (fs : list Finding) : nat :=
  length (List.filter (λ f, nonInfo f && String.eqb (f_code f) code) fs).

(** The findings of the surviving reports. *)
Definition includedFindings (W : World) (reports : list DoctorLiteReport)
    (options : MapRenderOptions) : list Finding :=
  flat_map r_findings (includedReports W reports options).
(** * Properties *)

(** ** taskCluster.ts: flakiness *)

(** C4. [isFlaky c] holds exactly when the cluster has a success and a
    failure and its success rate is strictly above 0.2 and strictly below
    0.95, in the comparison of doubles the code makes; hence a rate of
    exactly 0.2 or exactly 0.95 is not flaky, and neither is a cluster
    without a success or without a failure, whatever its run count. *)
Theorem isFlaky_iff (c : TaskCluster) :
  (isFlaky c = true ↔
     c_ok c ≠ 0 ∧ c_fail c ≠ 0
     ∧ PrimFloat.ltb 0.2 (c_successRate c) = true
     ∧ PrimFloat.ltb (c_successRate c) 0.95 = true)
  ∧ (c_successRate c = 0.2%float ∨ c_successRate c = 0.95%float → isFlaky c = false)
  ∧ (c_ok c = 0 ∨ c_fail c = 0 → isFlaky c = false).
Proof.
  unfold isFlaky. split; [|split].
  - destruct (c_ok c) as [|k], (c_fail c) as [|j]; simpl;
      rewrite ?andb_true_iff; split; intros H; try discriminate;
      try (destruct H as (Hk & Hj & _); congruence).
    + destruct H; repeat split; (discriminate || assumption).
    + destruct H as (_ & _ & H1 & H2). by split.
  - intros [-> | ->]; destruct (_ || _)%bool; reflexivity.
  - intros [-> | ->]; [reflexivity|]. by rewrite orb_true_r.
Qed.

(** On the counts of up to 64 passing and 64 failing runs, the comparison of
    doubles agrees with the exact one: 1 of 5 and 19 of 20 are not flaky. *)
Lemma isFlaky_counts (ok fail : nat) :
  ok ≤ 64 → fail ≤ 64 → isFlaky (tally ok fail) = strictlyBetween ok fail.
Proof.
  intros Hok Hfail.
  assert (Hall : forallb (λ a, forallb (λ b, bool_decide
                   (isFlaky (tally a b) = strictlyBetween a b)) (seq 0 65))
                   (seq 0 65) = true) by (vm_compute; reflexivity).
  rewrite forallb_forall in Hall.
  assert (Ha : In ok (seq 0 65)) by (apply in_seq; lia).
  assert (Hb : In fail (seq 0 65)) by (apply in_seq; lia).
  apply Hall in Ha. rewrite forallb_forall in Ha. apply Ha in Hb.
  by apply bool_decide_eq_true in Hb.
Qed.

(** ** The insight rules *)




Lemma mapRender_nodes W reports runs options :
  g_nodes (graph (mapRender W reports runs options))
  = nodes (build W reports runs options).1.1.1.
Proof.
  unfold mapRender.
  destruct (build _ _ _ _) as [[[b passed] failed] clusters].
  by destruct (summarizeCounts _) as [[h w] k].
Qed.

Lemma mapRender_edges W reports runs options :
  g_edges (graph (mapRender W reports runs options))
  = edges (build W reports runs options).1.1.1.
Proof.
  unfold mapRender.
  destruct (build _ _ _ _) as [[[b passed] failed] clusters].
  by destruct (summarizeCounts _) as [[h w] k].
Qed.


(** C9. When none of the eight rules pushes an insight, the result is the
    single low-severity insight that no major systemic risk was detected;
    the result is never empty. *)
Theorem fallback_insight g reports clusters :
  (topIssueInsights g = [] → blastRadiusInsights g = [] → hygieneInsights reports = [] →
   entropyInsights reports = [] → flakyInsights clusters = [] →
   envFlakyInsights clusters = [] → hotspotInsights g = [] →
   contagionInsights g clusters = [] →
   aggregateInsights g reports clusters = [fallbackInsight])
  ∧ i_severity fallbackInsight = Low
  ∧ i_text fallbackInsight
    = "No major systemic risks detected. Keep env count small and prefer reproducible installs."
  ∧ aggregateInsights g reports clusters ≠ [].
Proof.
  split; [|split; [done|split; [done|]]].
  - intros H1 H2 H3 H4 H5 H6 H7 H8. unfold aggregateInsights, ruleInsights.
    by rewrite H1, H2, H3, H4, H5, H6, H7, H8.
  - unfold aggregateInsights.
    by destruct (ruleInsights g reports clusters).
Qed.


Lemma fallback_insight_witness :
  aggregateInsights Ex.emptyGraph [] [] = [fallbackInsight].
Proof.
  apply (proj1 (fallback_insight Ex.emptyGraph [] [])); reflexivity.
Defined.

(** ** Sorting *)

Section sort_facts.
Context {A : Type} (before : A → A → bool).

Lemma sort_insert_perm x l : sort_insert before x l ≡ₚ x :: l.
Proof.
  induction l as [|y l IH]; simpl; [done|].
  destruct (before y x); [|done].
  rewrite IH. apply Permutation_swap.
Qed.

Lemma sort_perm l : sort before l ≡ₚ l.
Proof.
  induction l as [|x l IH]; simpl; [done|].
  rewrite sort_insert_perm. by rewrite IH.
Qed.


Hypothesis before_asym : ∀ a b, before a b = true → before b a = false.

Lemma sort_insert_sorted x l :
  Sorted (notAfter before) l → Sorted (notAfter before) (sort_insert before x l).
Proof.
  induction 1 as [|y l Hs IH Hd]; simpl.
  - by repeat constructor.
  - destruct (before y x) eqn:Hyx.
    + constructor; [exact IH|].
      destruct l as [|z l]; simpl.
      * constructor. by apply before_asym.
      * inversion_clear Hd. destruct (before z x); constructor; [done|].
        by apply before_asym.
    + constructor; [by constructor|]. by constructor.
Qed.

Lemma sort_sorted l : Sorted (notAfter before) (sort before l).
Proof.
  induction l as [|x l IH]; simpl; [constructor|]. by apply sort_insert_sorted.
Qed.

Hypothesis notAfter_trans : ∀ a b c, notAfter before a b → notAfter before b c → notAfter before a c.
Hypothesis notAfter_antisym : ∀ a b, notAfter before a b → notAfter before b a → a = b.


End sort_facts.

Lemma Sorted_weaken {A} (R1 R2 : A → A → Prop) l :
  (∀ a b, R1 a b → R2 a b) → Sorted R1 l → Sorted R2 l.
Proof.
  intros HR. induction 1 as [|x l Hs IH Hd]; constructor; [done|].
  destruct Hd; constructor. by apply HR.
Qed.



(** *** The order of strings [sort()] uses *)

Lemma string_compare_trans a b c :
  String.compare a b ≠ Gt → String.compare b c ≠ Gt → String.compare a c ≠ Gt.
Proof.
  revert b c. induction a as [|x a IH]; intros [|y b] [|z c]; simpl; try congruence.
  unfold Ascii.compare.
  destruct (N.compare_spec (N_of_ascii x) (N_of_ascii y)),
           (N.compare_spec (N_of_ascii y) (N_of_ascii z)),
           (N.compare_spec (N_of_ascii x) (N_of_ascii z));
    try congruence; try lia; eauto.
Qed.

Lemma string_ltb_false a b : String.ltb b a = false ↔ String.compare a b ≠ Gt.
Proof.
  unfold String.ltb. rewrite (String.compare_antisym a b).
  destruct (String.compare b a); simpl; split; congruence.
Qed.

Lemma string_ltb_asym a b : String.ltb a b = true → String.ltb b a = false.
Proof.
  unfold String.ltb. rewrite (String.compare_antisym a b).
  destruct (String.compare b a); simpl; congruence.
Qed.


(** ** Normalization of commands *)

Lemma drop_space_all l : forallb is_space l = true → drop_space l = [].
Proof.
  induction l as [|c l IH]; simpl; [done|].
  destruct (is_space c); simpl; [exact IH|discriminate].
Qed.

Lemma drop_space_app l r :
  drop_space (l ++ r) = if forallb is_space l then drop_space r else drop_space l ++ r.
Proof.
  induction l as [|c l IH]; simpl; [done|].
  destruct (is_space c); simpl; [exact IH|done].
Qed.

Lemma forallb_rev {A} (f : A → bool) l : forallb f (rev l) = forallb f l.
Proof.
  induction l as [|c l IH]; simpl; [done|].
  rewrite forallb_app, IH. simpl. destruct (f c), (forallb f l); reflexivity.
Qed.

Lemma trim_end_cons c l :
  rev (drop_space (rev (c :: l)))
  = if forallb is_space (c :: l) then [] else c :: rev (drop_space (rev l)).
Proof.
  simpl rev at 2. rewrite drop_space_app, forallb_rev. simpl forallb.
  destruct (forallb is_space l) eqn:Hall.
  - rewrite (drop_space_all (rev l)) by (by rewrite forallb_rev).
    simpl. by destruct (is_space c).
  - rewrite andb_false_r, rev_app_distr. reflexivity.
Qed.

Lemma collapse_trim_end b l :
  collapse_space b (rev (drop_space (rev l))) = squeeze b l.
Proof.
  revert b. induction l as [|c l IH]; intros b; [done|].
  rewrite trim_end_cons. simpl.
  destruct (is_space c) eqn:Hc; simpl.
  - destruct (forallb is_space l); [done|]. simpl. rewrite Hc.
    destruct b; by rewrite IH.
  - rewrite Hc. by rewrite IH.
Qed.

Lemma normCmd_chars_squeeze l :
  normCmd_chars l = map lower_char (squeeze false (drop_space l)).
Proof. unfold normCmd_chars, trim_chars. by rewrite collapse_trim_end. Qed.






Lemma lower_char_space c : is_space (lower_char c) = is_space c.
Proof.
  unfold lower_char. destruct (is_upper c) eqn:Hu; [|done].
  unfold is_upper in Hu. apply andb_true_iff in Hu as [H1 H2].
  apply N.leb_le in H1, H2.
  unfold is_space. rewrite N_ascii_embedding by lia.
  apply bool_decide_ext. rewrite !elem_of_cons, !elem_of_nil. lia.
Qed.














(** ** taskCluster.ts: signatures *)




(** ** Lists *)

Lemma elem_of_map {A B} (f : A → B) l y : y ∈ map f l ↔ ∃ x, y = f x ∧ x ∈ l.
Proof.
  rewrite list_elem_of_In, in_map_iff. split; intros (x & H1 & H2); exists x.
  - split; [done|]. by apply list_elem_of_In.
  - split; [done|]. by apply list_elem_of_In.
Qed.

Lemma elem_of_bfilter {A} (p : A → bool) l x : x ∈ List.filter p l ↔ x ∈ l ∧ p x = true.
Proof. by rewrite !list_elem_of_In, filter_In. Qed.

Lemma fold_left_inv {A B} (P : A → Prop) (f : A → B → A) l a :
  P a → (∀ a b, b ∈ l → P a → P (f a b)) → P (fold_left f l a).
Proof.
  revert a. induction l as [|x l IH]; intros a Ha Hstep; simpl; [done|].
  apply IH.
  - apply Hstep; [by left|done].
  - intros a' b Hb. apply Hstep. by right.
Qed.

(** ** Identity *)

Lemma kindOf_env x : kindOf (stableId "env" x) = Some "e"%char.
Proof. reflexivity. Qed.
Lemma kindOf_base x : kindOf (stableId "base" x) = Some "b"%char.
Proof. reflexivity. Qed.
Lemma kindOf_task x : kindOf (stableId "task" x) = Some "t"%char.
Proof. reflexivity. Qed.
Lemma kindOf_sig x : kindOf ("task:" +:+ x) = Some "t"%char.
Proof. reflexivity. Qed.

(** ** The builder keeps its invariants *)

Lemma ids_app ns ms : ids (ns ++ ms) = ids ns ++ ids ms.
Proof. apply map_app. Qed.

Lemma extends_refl b : extends b b.
Proof. split; exists []; by rewrite app_nil_r. Qed.

Lemma extends_trans b1 b2 b3 : extends b1 b2 → extends b2 b3 → extends b1 b3.
Proof.
  intros [[ns1 Hn1] [es1 He1]] [[ns2 Hn2] [es2 He2]]. split.
  - exists (ns1 ++ ns2). by rewrite Hn2, Hn1, app_assoc.
  - exists (es1 ++ es2). by rewrite He2, He1, app_assoc.
Qed.

Lemma extends_ids b b' id : extends b b' → id ∈ ids (nodes b) → id ∈ ids (nodes b').
Proof.
  intros [[ns ->] _] H. rewrite ids_app, elem_of_app. by left.
Qed.

Lemma extends_node b b' n : extends b b' → n ∈ nodes b → n ∈ nodes b'.
Proof. intros [[ns ->] _] H. rewrite elem_of_app. by left. Qed.

Lemma extends_edge b b' e : extends b b' → e ∈ edges b → e ∈ edges b'.
Proof. intros [_ [es ->]] H. rewrite elem_of_app. by left. Qed.

Lemma emptyBuilder_inv : BuilderInv emptyBuilder.
Proof.
  split; simpl; try done.
  - intros e H. by apply elem_of_nil in H.
  - intros k [x H]. done.
Qed.

Lemma pushIndexed_inv b n :
  BuilderInv b → nodeKindOk n → BuilderInv (pushIndexed b n).
Proof.
  intros [He Hb Hi Hv Hnk Hek] Hn. split; simpl.
  - intros e Hin. rewrite ids_app, !elem_of_app. destruct (He e Hin). by split; left.
  - intros k id Hk. destruct (Hb k id Hk). split; [done|].
    rewrite ids_app, elem_of_app. by left.
  - intros k. rewrite ids_app, elem_of_app, lookup_insert.
    case_decide as Hk; [subst; intros _; right; by left|].
    intros H. left. by apply Hi.
  - exact Hv.
  - apply Forall_app. split; [done|]. by constructor.
  - exact Hek.
Qed.

Lemma pushIndexed_extends b n : extends b (pushIndexed b n).
Proof. split; simpl; [by exists [n]|exists []; by rewrite app_nil_r]. Qed.

Lemma pushIndexed_id b n : n_id n ∈ ids (nodes (pushIndexed b n)).
Proof. simpl. rewrite ids_app, elem_of_app. right. by left. Qed.

Lemma pushEdge_inv b e :
  BuilderInv b → edgeKindOk e →
  e_from e ∈ ids (nodes b) → e_to e ∈ ids (nodes b) →
  BuilderInv (pushEdge b e).
Proof.
  intros [He Hb Hi Hv Hnk Hek] Hk Hf Ht. split; simpl; try done.
  - intros e' Hin. apply elem_of_app in Hin as [Hin|Hin]; [by apply He|].
    apply list_elem_of_singleton in Hin as ->. done.
  - apply Forall_app. split; [done|]. by constructor.
Qed.

Lemma pushEdge_extends b e : extends b (pushEdge b e).
Proof. split; simpl; [exists []; by rewrite app_nil_r|by exists [e]]. Qed.

Lemma ensureEnv_inv b envPy n :
  BuilderInv b → n_type n = NVenv → n_id n = stableId "env" envPy →
  BuilderInv (ensureEnv b envPy n)
  ∧ extends b (ensureEnv b envPy n)
  ∧ n_id n ∈ ids (nodes (ensureEnv b envPy n)).
Proof.
  intros Hinv Hty Hid. unfold ensureEnv.
  destruct (nodeIndex b !! n_id n) eqn:Hidx.
  - split; [done|]. split; [apply extends_refl|].
    apply (inv_index b Hinv). by eexists.
  - assert (Hk : nodeKindOk n).
    { unfold nodeKindOk. rewrite Hty, Hid. apply kindOf_env. }
    destruct (pushIndexed_inv b n Hinv Hk) as [He Hb Hi Hv Hnk Hek].
    split; [|split].
    + split; simpl; try done.
      intros k id. rewrite lookup_insert. case_decide as Hkk.
      * intros [= <-]. by subst.
      * apply (inv_envIds b Hinv).
    + apply (pushIndexed_extends b n).
    + apply (pushIndexed_id b n).
Qed.

Lemma envIdFor_stable b envPy :
  BuilderInv b → envIdFor b envPy = stableId "env" envPy.
Proof.
  intros Hinv. unfold envIdFor.
  destruct (envIdByPyPath b !! envPy) eqn:Hk; simpl; [|done].
  by apply (inv_envIds b Hinv).
Qed.

Section task_steps.
Context (W : World).

Lemma clusterEnvStep_inv c taskId b kv :
  BuilderInv b → kindOf taskId = Some "t"%char → taskId ∈ ids (nodes b) →
  BuilderInv (clusterEnvStep W c taskId b kv)
  ∧ extends b (clusterEnvStep W c taskId b kv).
Proof.
  intros Hinv Hkind Htask. destruct kv as [pyPath count]. unfold clusterEnvStep.
  rewrite (envIdFor_stable b _ Hinv).
  set (envId := stableId "env" (normPath W pyPath)).
  set (n := missingEnvNode envId pyPath _ _).
  destruct (ensureEnv_inv b (normPath W pyPath) n Hinv eq_refl eq_refl)
    as (Hinv1 & Hext1 & Hid1).
  set (b1 := ensureEnv b (normPath W pyPath) n) in *.
  set (route := routeEdge taskId envId _ _ _).
  assert (Hinv2 : BuilderInv (pushEdge b1 route)).
  { apply pushEdge_inv; [done| |by apply (extends_ids b b1)|done].
    split; [done|apply kindOf_env]. }
  assert (Hext2 : extends b (pushEdge b1 route)).
  { eapply extends_trans; [exact Hext1|apply pushEdge_extends]. }
  destruct (0 <? default 0 (obj_get pyPath (c_envFailCounts c)))%nat; [|done].
  split.
  - apply pushEdge_inv; [done| | |].
    + split; [done|apply kindOf_env].
    + simpl. by apply (extends_ids b b1).
    + done.
  - eapply extends_trans; [exact Hext2|apply pushEdge_extends].
Qed.

Lemma clusterTaskStep_inv b c :
  BuilderInv b →
  BuilderInv (clusterTaskStep W b c) ∧ extends b (clusterTaskStep W b c).
Proof.
  intros Hinv. unfold clusterTaskStep.
  set (taskId := "task:" +:+ sigId (c_sig c)).
  set (b0 := pushIndexed b (clusterTaskNode c taskId)).
  assert (H0 : BuilderInv b0 ∧ extends b b0 ∧ taskId ∈ ids (nodes b0)).
  { split; [|split].
    - apply pushIndexed_inv; [done|]. apply kindOf_sig.
    - apply pushIndexed_extends.
    - apply (pushIndexed_id b (clusterTaskNode c taskId)). }
  revert H0. generalize b0. generalize (c_envCounts c).
  intros l. induction l as [|kv l IH]; intros b' (Hinv' & Hext' & Hid'); simpl; [done|].
  destruct (clusterEnvStep_inv c taskId b' kv Hinv' (kindOf_sig _) Hid') as [Hi He].
  apply IH. split; [done|]. split.
  - by eapply extends_trans.
  - by apply (extends_ids b').
Qed.

Lemma runTaskStep_inv b run :
  BuilderInv b →
  BuilderInv (runTaskStep W b run) ∧ extends b (runTaskStep W b run).
Proof.
  intros Hinv. unfold runTaskStep.
  set (taskId := stableId "task" _).
  set (b0 := pushIndexed b (runTaskNode run taskId)).
  assert (Hinv0 : BuilderInv b0) by (apply pushIndexed_inv; [done|apply kindOf_task]).
  assert (Hext0 : extends b b0) by apply pushIndexed_extends.
  assert (Hid0 : taskId ∈ ids (nodes b0))
    by apply (pushIndexed_id b (runTaskNode run taskId)).
  rewrite (envIdFor_stable b0 _ Hinv0).
  set (envPy := normPath W (s_pythonPath (selected run))).
  set (envId := stableId "env" envPy).
  set (n := missingEnvNode envId _ _ _).
  destruct (ensureEnv_inv b0 envPy n Hinv0 eq_refl eq_refl) as (Hinv1 & Hext1 & Hid1).
  set (b1 := ensureEnv b0 envPy n) in *.
  set (route := routeEdge taskId envId _ _ _).
  assert (Hinv2 : BuilderInv (pushEdge b1 route)).
  { apply pushEdge_inv; [done| |by apply (extends_ids b0 b1)|done].
    split; [apply kindOf_task|apply kindOf_env]. }
  assert (Hext2 : extends b (pushEdge b1 route)).
  { eapply extends_trans; [exact Hext0|].
    eapply extends_trans; [exact Hext1|apply pushEdge_extends]. }
  destruct (o_ok (outcome run)); [done|].
  split.
  - apply pushEdge_inv; [done| | |].
    + split; [apply kindOf_task|apply kindOf_env].
    + simpl. by apply (extends_ids b0 b1).
    + done.
  - eapply extends_trans; [exact Hext2|apply pushEdge_extends].
Qed.

Lemma fold_steps_inv {A} (step : Builder → A → Builder) l b :
  (∀ b x, BuilderInv b → BuilderInv (step b x) ∧ extends b (step b x)) →
  BuilderInv b →
  BuilderInv (fold_left step l b) ∧ extends b (fold_left step l b).
Proof.
  intros Hstep. revert b. induction l as [|x l IH]; intros b Hinv; simpl.
  - split; [done|apply extends_refl].
  - destruct (Hstep b x Hinv) as [H1 H2]. destruct (IH _ H1) as [H3 H4].
    split; [done|]. by eapply extends_trans.
Qed.

Lemma taskPhase_inv mode runs b :
  BuilderInv b →
  BuilderInv (taskPhase W mode runs b).1.1.1
  ∧ extends b (taskPhase W mode runs b).1.1.1.
Proof.
  intros Hinv. unfold taskPhase.
  destruct (negb _ && _); [|split; [done|apply extends_refl]].
  destruct (bool_decide (mode = TMClustered)); simpl.
  - apply fold_steps_inv; [|done]. intros b' c. apply clusterTaskStep_inv.
  - apply fold_steps_inv; [|done]. intros b' r. apply runTaskStep_inv.
Qed.

Lemma getOrCreateBaseNode_inv b baseKey pyVersion arch_ :
  BuilderInv b →
  let r := getOrCreateBaseNode W b baseKey pyVersion arch_ in
  BuilderInv r.2 ∧ extends b r.2 ∧ edges r.2 = edges b
  ∧ r.1 = stableId "base" (normPath W baseKey) ∧ r.1 ∈ ids (nodes r.2).
Proof.
  intros Hinv. unfold getOrCreateBaseNode.
  destruct (baseIdByKey b !! normPath W baseKey) as [id|] eqn:Hk; simpl.
  - destruct (inv_bases b Hinv _ _ Hk) as [-> Hin].
    split; [exact Hinv|]. split; [apply extends_refl|]. by repeat split.
  - split; [|split; [|split; [done|split; [done|]]]].
    + destruct Hinv as [He Hb Hi Hv Hnk Hek]. split; simpl; try done.
      * intros e Hin. rewrite ids_app, !elem_of_app. destruct (He e Hin). by split; left.
      * intros k id Hl. rewrite ids_app, elem_of_app.
        apply lookup_insert_Some in Hl as [[<- <-]|[Hne Hl]].
        -- split; [done|]. right. by left.
        -- destruct (Hb k id Hl). split; [done|]. by left.
      * intros k Hs. rewrite ids_app, elem_of_app. left. by apply Hi.
      * apply Forall_app. split; [done|]. constructor; [|done]. apply kindOf_base.
    + split; simpl; [by eexists|exists []; by rewrite app_nil_r].
    + rewrite ids_app, elem_of_app. right. by left.
Qed.

Lemma envStep_inv b r :
  BuilderInv b →
  BuilderInv (envStep W b r) ∧ extends b (envStep W b r).
Proof.
  intros Hinv. unfold envStep.
  set (pyPath := normPath W (r_pythonPath r)).
  set (envId := stableId "env" pyPath).
  destruct (match r_ranAt r with
            | Some at_ => (at_, ticks b)
            | None => (clock W (ticks b), S (ticks b))
            end) as [seen t].
  set (n := envNode r envId pyPath _ _ _ seen).
  set (b1 := {| nodes := nodes b ++ [n]; edges := edges b; baseIdByKey := baseIdByKey b;
                envIdByPyPath := <[pyPath:=envId]> (envIdByPyPath b);
                nodeIndex := nodeIndex b; ticks := t |}).
  assert (Hinv1 : BuilderInv b1).
  { destruct Hinv as [He Hb Hi Hv Hnk Hek]. split; simpl; try done.
    - intros e Hin. rewrite ids_app, !elem_of_app. destruct (He e Hin). by split; left.
    - intros k id Hk. destruct (Hb k id Hk). split; [done|].
      rewrite ids_app, elem_of_app. by left.
    - intros k Hs. rewrite ids_app, elem_of_app. left. by apply Hi.
    - intros k id. rewrite lookup_insert. case_decide as Hkk.
      + intros [= <-]. by subst.
      + apply Hv.
    - apply Forall_app. split; [done|]. constructor; [|done]. apply kindOf_env. }
  assert (Hext1 : extends b b1).
  { split; simpl; [by exists [n]|exists []; by rewrite app_nil_r]. }
  assert (Hid1 : envId ∈ ids (nodes b1)).
  { simpl. rewrite ids_app, elem_of_app. right. by left. }
  pose proof (getOrCreateBaseNode_inv b1 (deriveBaseKey r) (derivePyVersion r)
                (pickArch (r_facts r)) Hinv1) as Hg.
  destruct (getOrCreateBaseNode W b1 (deriveBaseKey r) (derivePyVersion r)
              (pickArch (r_facts r))) as [baseId b2].
  simpl in Hg. destruct Hg as (Hinv2 & Hext2 & Hedges2 & Hbase & Hbid).
  pose (e := usesBaseEdge baseId envId (dominantIssue (r_findings r))).
  assert (Hfinal : BuilderInv (pushEdge b2 e) ∧ extends b (pushEdge b2 e)).
  { split.
    - apply pushEdge_inv; [done| |done|by apply (extends_ids b1 b2)].
      unfold e, edgeKindOk, usesBaseEdge. cbn [e_type e_from e_to]. rewrite Hbase.
      split; reflexivity.
    - eapply extends_trans; [exact Hext1|].
      eapply extends_trans; [exact Hext2|apply pushEdge_extends]. }
  exact Hfinal.
Qed.

End task_steps.

(** ** The roll-up changes the health of base nodes only *)

Lemma setHealth_id n h : n_id (setHealth n h) = n_id n.
Proof. reflexivity. Qed.
Lemma setHealth_type n h : n_type (setHealth n h) = n_type n.
Proof. reflexivity. Qed.

Lemma rollupAt_pointwise E ns i : Forall2 sameButHealth ns (rollupAt E ns i).
Proof.
  assert (Hrefl : Forall2 sameButHealth ns ns).
  { apply Forall2_same_length_lookup_2; [done|]. intros j x y Hx Hy.
    left. congruence. }
  unfold rollupAt. destruct (ns !! i) as [base|] eqn:Hi; [|done].
  case_bool_decide as Hty; [|done].
  destruct (childNodesOf ns E base); [done|].
  apply Forall2_same_length_lookup_2; [by rewrite length_insert|].
  intros j x y Hx Hy. destruct (decide (i = j)) as [->|Hne].
  - rewrite list_lookup_insert_eq in Hy by (by eapply lookup_lt_Some).
    right. simplify_eq. split; [done|]. by eexists.
  - rewrite list_lookup_insert_ne in Hy by done. left. congruence.
Qed.

Lemma sameButHealth_trans n1 n2 n3 :
  sameButHealth n1 n2 → sameButHealth n2 n3 → sameButHealth n1 n3.
Proof.
  intros [->|[Hb [h ->]]] [->|[Hb' [h' ->]]].
  - by left.
  - right. split; [done|]. by eexists.
  - right. split; [done|]. by eexists.
  - right. split; [done|]. by exists h'.
Qed.

Lemma rollup_pointwise E ns : Forall2 sameButHealth ns (rollup E ns).
Proof.
  unfold rollup. generalize (seq 0 (length ns)). intros is_.
  assert (Hrefl : Forall2 sameButHealth ns ns).
  { apply Forall2_same_length_lookup_2; [done|]. intros j x y Hx Hy.
    left. congruence. }
  revert Hrefl. generalize ns at 2 4. revert ns.
  induction is_ as [|i is_ IH]; intros ns cur Hcur; simpl; [done|].
  apply IH.
  pose proof (rollupAt_pointwise E cur i) as Hstep.
  apply Forall2_same_length_lookup_2.
  - rewrite (Forall2_length _ _ _ Hcur). by apply Forall2_length in Hstep.
  - intros j x z Hx Hz.
    destruct (cur !! j) as [y|] eqn:Hy.
    + eapply sameButHealth_trans.
      * by eapply (Forall2_lookup_lr _ _ _ _ _ _ Hcur).
      * by eapply (Forall2_lookup_lr _ _ _ _ _ _ Hstep).
    + apply lookup_ge_None in Hy. apply lookup_lt_Some in Hx.
      apply Forall2_length in Hcur. lia.
Qed.

Lemma sameButHealth_id n n' : sameButHealth n n' → n_id n' = n_id n.
Proof. by intros [->|[_ [h ->]]]. Qed.
Lemma sameButHealth_type n n' : sameButHealth n n' → n_type n' = n_type n.
Proof. by intros [->|[_ [h ->]]]. Qed.

Lemma rollup_ids E ns : ids (rollup E ns) = ids ns.
Proof.
  pose proof (rollup_pointwise E ns) as H. unfold ids.
  induction H as [|n n' l l' Hn _ IH]; simpl; [done|].
  by rewrite (sameButHealth_id n n'), IH.
Qed.

Lemma rollup_kinds E ns : Forall nodeKindOk ns → Forall nodeKindOk (rollup E ns).
Proof.
  pose proof (rollup_pointwise E ns) as H.
  induction H as [|n n' l l' Hn _ IH]; intros Hk; [done|].
  inversion_clear Hk as [|? ? Hn0 Hl]. constructor; [|by apply IH].
  unfold nodeKindOk in *.
  by rewrite (sameButHealth_id n n'), (sameButHealth_type n n').
Qed.

Lemma indexNodes_lookup ns k : is_Some (indexNodes ns !! k) ↔ k ∈ ids ns.
Proof.
  unfold indexNodes.
  assert (Hgen : ∀ m : gmap string GraphNode,
             is_Some (fold_left (λ m n, <[n_id n:=n]> m) ns m !! k)
             ↔ is_Some (m !! k) ∨ k ∈ ids ns).
  { induction ns as [|n ns IH]; intros m; simpl.
    - split; [by left|]. intros [H|H]; [done|]. by apply elem_of_nil in H.
    - rewrite IH, lookup_insert, elem_of_cons. case_decide as Hk.
      + subst. split; [intros _; right; by left|intros _; left; by eexists].
      + split; intros [H|H]; auto. destruct H as [H|H]; [congruence|auto]. }
  rewrite Hgen, lookup_empty. split; [intros [[x H]|H]; [done|done]|by right].
Qed.

Section phases.
Context (W : World).

Lemma reportPhase_inv included : BuilderInv (reportPhase W included).
Proof.
  unfold reportPhase.
  destruct (fold_steps_inv (envStep W) included emptyBuilder) as [Hinv _].
  { intros b r. apply envStep_inv. }
  { apply emptyBuilder_inv. }
  destruct Hinv as [He Hb Hi Hv Hnk Hek]. split; simpl; rewrite ?rollup_ids; try done.
  - intros k. by rewrite indexNodes_lookup, rollup_ids.
  - by apply rollup_kinds.
Qed.

Lemma build_inv reports runs options :
  BuilderInv (build W reports runs options).1.1.1.
Proof. unfold build. apply taskPhase_inv, reportPhase_inv. Qed.

End phases.

(** ** Referential integrity *)

(** C10. In every task mode, both ends of every edge of the built graph
    are ids of nodes of the built graph. *)
Theorem edges_resolve W reports runs options (e : GraphEdge) :
  e ∈ g_edges (graph (mapRender W reports runs options)) →
  (∃ n, n ∈ g_nodes (graph (mapRender W reports runs options)) ∧ n_id n = e_from e)
  ∧ (∃ n, n ∈ g_nodes (graph (mapRender W reports runs options)) ∧ n_id n = e_to e).
Proof.
  rewrite mapRender_edges, mapRender_nodes. intros He.
  destruct (inv_edges _ (build_inv W reports runs options) e He) as [Hf Ht].
  apply elem_of_map in Hf as (nf & Hf & Hnf), Ht as (nt & Ht & Hnt).
  split; [by exists nf|by exists nt].
Qed.

Lemma edges_resolve_witness :
  (∃ n, n ∈ g_nodes (graph (mapRender Ex.world Ex.threeUnderOneBase [Ex.lintRun] Ex.options))
        ∧ n_id n = e_from (default fallbackEdge
                     (g_edges (graph (mapRender Ex.world Ex.threeUnderOneBase [Ex.lintRun]
                                        Ex.options)) !! 3)))
  ∧ (∃ n, n ∈ g_nodes (graph (mapRender Ex.world Ex.threeUnderOneBase [Ex.lintRun] Ex.options))
        ∧ n_id n = e_to (default fallbackEdge
                     (g_edges (graph (mapRender Ex.world Ex.threeUnderOneBase [Ex.lintRun]
                                        Ex.options)) !! 3))).
Proof.
  apply edges_resolve. apply list_elem_of_lookup. exists 3. vm_compute. reflexivity.
Defined.

(** ** What each phase adds *)

Lemma taskExtends_refl b : taskExtends b b.
Proof. exists [], []. by rewrite !app_nil_r. Qed.

Lemma taskExtends_trans b1 b2 b3 :
  taskExtends b1 b2 → taskExtends b2 b3 → taskExtends b1 b3.
Proof.
  intros (ns1 & es1 & Hn1 & He1 & Hes1 & Hns1) (ns2 & es2 & Hn2 & He2 & Hes2 & Hns2).
  exists (ns1 ++ ns2), (es1 ++ es2).
  split; [by rewrite Hn2, Hn1, app_assoc|]. split; [by rewrite He2, He1, app_assoc|].
  split; [by apply Forall_app|]. apply Forall_app. split; [done|].
  eapply Forall_impl; [exact Hns2|]. intros n [H|[H1 H2]]; [by left|right].
  split; [done|]. intros Hin. apply H2. rewrite Hn1, ids_app, elem_of_app. by left.
Qed.

Lemma pushIndexed_task b n :
  indexComplete b → n_type n = NTask →
  indexComplete (pushIndexed b n) ∧ taskExtends b (pushIndexed b n).
Proof.
  intros Hc Hty. split.
  - intros id. simpl. rewrite ids_app, elem_of_app, lookup_insert.
    case_decide as Hk; [by eexists|]. intros [H|H]; [by apply Hc|].
    apply list_elem_of_singleton in H. congruence.
  - exists [n], []. simpl. rewrite app_nil_r. repeat split; try done.
    constructor; [by left|done].
Qed.

Lemma pushEdge_task b e :
  indexComplete b → e_type e ≠ USES_BASE →
  indexComplete (pushEdge b e) ∧ taskExtends b (pushEdge b e).
Proof.
  intros Hc Hty. split; [exact Hc|].
  exists [], [e]. simpl. rewrite app_nil_r. repeat split; try done. by constructor.
Qed.

Lemma ensureEnv_task b envPy n :
  indexComplete b → n_type n = NVenv →
  indexComplete (ensureEnv b envPy n) ∧ taskExtends b (ensureEnv b envPy n).
Proof.
  intros Hc Hty. unfold ensureEnv. destruct (nodeIndex b !! n_id n) eqn:Hidx.
  - split; [done|apply taskExtends_refl].
  - split.
    + intros id. simpl. rewrite ids_app, elem_of_app, lookup_insert.
      case_decide as Hk; [by eexists|]. intros [H|H]; [by apply Hc|].
      apply list_elem_of_singleton in H. congruence.
    + exists [n], []. simpl. rewrite app_nil_r. repeat split; try done.
      constructor; [|done]. right. split; [done|]. intros Hin.
      apply Hc in Hin. rewrite Hidx in Hin. by destruct Hin.
Qed.

Section task_adds.
Context (W : World).

Lemma clusterEnvStep_task c taskId b kv :
  indexComplete b →
  indexComplete (clusterEnvStep W c taskId b kv)
  ∧ taskExtends b (clusterEnvStep W c taskId b kv).
Proof.
  intros Hc. destruct kv as [pyPath count]. unfold clusterEnvStep.
  set (n := missingEnvNode _ pyPath _ _).
  destruct (ensureEnv_task b (normPath W pyPath) n Hc eq_refl) as [Hc1 Hx1].
  set (b1 := ensureEnv b (normPath W pyPath) n) in *.
  set (route := routeEdge taskId _ _ _ _).
  destruct (pushEdge_task b1 route Hc1) as [Hc2 Hx2]; [done|].
  destruct (0 <? default 0 (obj_get pyPath (c_envFailCounts c)))%nat.
  - set (f := failEdge taskId _ _ _ _).
    destruct (pushEdge_task (pushEdge b1 route) f Hc2) as [Hc3 Hx3]; [done|].
    split; [done|]. eapply taskExtends_trans; [exact Hx1|].
    by eapply taskExtends_trans.
  - split; [done|]. by eapply taskExtends_trans.
Qed.

Lemma fold_task_adds {A} (step : Builder → A → Builder) l b :
  (∀ b x, indexComplete b → indexComplete (step b x) ∧ taskExtends b (step b x)) →
  indexComplete b →
  indexComplete (fold_left step l b) ∧ taskExtends b (fold_left step l b).
Proof.
  intros Hstep. revert b. induction l as [|x l IH]; intros b Hc; simpl.
  - split; [done|apply taskExtends_refl].
  - destruct (Hstep b x Hc) as [H1 H2]. destruct (IH _ H1) as [H3 H4].
    split; [done|]. by eapply taskExtends_trans.
Qed.

Lemma clusterTaskStep_task b c :
  indexComplete b →
  indexComplete (clusterTaskStep W b c) ∧ taskExtends b (clusterTaskStep W b c).
Proof.
  intros Hc. unfold clusterTaskStep.
  set (taskId := "task:" +:+ sigId (c_sig c)).
  destruct (pushIndexed_task b (clusterTaskNode c taskId) Hc eq_refl) as [Hc0 Hx0].
  destruct (fold_task_adds (clusterEnvStep W c taskId) (c_envCounts c)
              (pushIndexed b (clusterTaskNode c taskId))) as [Hc1 Hx1]; [|done|].
  { intros b' kv. apply clusterEnvStep_task. }
  split; [done|]. by eapply taskExtends_trans.
Qed.

Lemma runTaskStep_task b run :
  indexComplete b →
  indexComplete (runTaskStep W b run) ∧ taskExtends b (runTaskStep W b run).
Proof.
  intros Hc. unfold runTaskStep.
  set (taskId := stableId "task" _).
  destruct (pushIndexed_task b (runTaskNode run taskId) Hc eq_refl) as [Hc0 Hx0].
  set (b0 := pushIndexed b (runTaskNode run taskId)) in *.
  set (envPy := normPath W (s_pythonPath (selected run))).
  set (n := missingEnvNode _ _ _ _).
  destruct (ensureEnv_task b0 envPy n Hc0 eq_refl) as [Hc1 Hx1].
  set (b1 := ensureEnv b0 envPy n) in *.
  set (route := routeEdge taskId _ _ _ _).
  destruct (pushEdge_task b1 route Hc1) as [Hc2 Hx2]; [done|].
  assert (Hx : taskExtends b (pushEdge b1 route)).
  { eapply taskExtends_trans; [exact Hx0|]. by eapply taskExtends_trans. }
  destruct (o_ok (outcome run)); [done|].
  set (f := failEdge taskId _ _ _ _).
  destruct (pushEdge_task (pushEdge b1 route) f Hc2) as [Hc3 Hx3]; [done|].
  split; [done|]. by eapply taskExtends_trans.
Qed.

Lemma taskPhase_adds mode runs b :
  indexComplete b → taskExtends b (taskPhase W mode runs b).1.1.1.
Proof.
  intros Hc. unfold taskPhase.
  destruct (negb _ && _); [|apply taskExtends_refl].
  destruct (bool_decide (mode = TMClustered)); simpl.
  - apply fold_task_adds; [|done]. intros b' c. apply clusterTaskStep_task.
  - apply fold_task_adds; [|done]. intros b' r. apply runTaskStep_task.
Qed.

Lemma reportPhase_indexComplete included : indexComplete (reportPhase W included).
Proof. intros id. unfold reportPhase. simpl. by rewrite indexNodes_lookup. Qed.

Lemma build_adds reports runs options :
  taskExtends (reportPhase W (includedReports W reports options))
              (build W reports runs options).1.1.1.
Proof. apply taskPhase_adds, reportPhase_indexComplete. Qed.

(** The edges of the report part: one USES_BASE edge per included report,
    to the environment node of the report. *)
Lemma envStep_edges b r :
  ∃ baseId,
    edges (envStep W b r)
    = edges b ++ [usesBaseEdge baseId (envIdOf W (r_pythonPath r))
                               (dominantIssue (r_findings r))].
Proof.
  unfold envStep.
  destruct (match r_ranAt r with
            | Some at_ => (at_, ticks b)
            | None => (clock W (ticks b), S (ticks b))
            end) as [seen t].
  match goal with |- context [getOrCreateBaseNode W ?b1 ?k ?v ?a] =>
    assert (Hg : edges (getOrCreateBaseNode W b1 k v a).2 = edges b);
    [unfold getOrCreateBaseNode; by destruct (baseIdByKey b1 !! normPath W k)|];
    destruct (getOrCreateBaseNode W b1 k v a) as [baseId b2]
  end.
  simpl in *. exists baseId. by rewrite Hg.
Qed.

Lemma envSteps_edges rs b :
  ∃ es, edges (fold_left (envStep W) rs b) = edges b ++ es
        ∧ map e_to es = map (λ r, envIdOf W (r_pythonPath r)) rs
        ∧ Forall (λ e, e_type e = USES_BASE) es.
Proof.
  revert b. induction rs as [|r rs IH]; intros b; simpl.
  - exists []. by rewrite app_nil_r.
  - destruct (IH (envStep W b r)) as (es & He & Hto & Hty).
    destruct (envStep_edges b r) as [baseId Hb].
    exists (usesBaseEdge baseId (envIdOf W (r_pythonPath r)) (dominantIssue (r_findings r))
              :: es).
    rewrite He, Hb, <- app_assoc. simpl. split; [done|]. split; [by rewrite Hto|].
    by constructor.
Qed.

Lemma filter_usesBase_all es :
  Forall (λ e, e_type e = USES_BASE) es → List.filter usesBase es = es.
Proof.
  induction 1 as [|e es He _ IH]; simpl; [done|].
  unfold usesBase at 1. rewrite bool_decide_eq_true_2 by done. by rewrite IH.
Qed.

Lemma filter_usesBase_none es :
  Forall (λ e, e_type e ≠ USES_BASE) es → List.filter usesBase es = [].
Proof.
  induction 1 as [|e es He _ IH]; simpl; [done|].
  unfold usesBase at 1. by rewrite bool_decide_eq_false_2.
Qed.

(** The USES_BASE edges of the built graph are those of the report part. *)
Lemma build_usesBase reports runs options :
  map e_to (List.filter usesBase (edges (build W reports runs options).1.1.1))
  = map (λ r, envIdOf W (r_pythonPath r)) (includedReports W reports options).
Proof.
  destruct (build_adds reports runs options) as (ns & es & _ & -> & Hes & _).
  rewrite List.filter_app, (filter_usesBase_none es Hes), app_nil_r.
  unfold reportPhase. simpl.
  destruct (envSteps_edges (includedReports W reports options) emptyBuilder)
    as (es' & -> & Hto & Hty).
  simpl. by rewrite (filter_usesBase_all es' Hty).
Qed.

End task_adds.

(** ** USES_BASE edges *)

Lemma count_by_target (es : list GraphEdge) id :
  length (List.filter (λ e, usesBase e && String.eqb (e_to e) id) es)
  = length (List.filter (String.eqb id) (map e_to (List.filter usesBase es))).
Proof.
  induction es as [|e es IH]; simpl; [done|].
  destruct (usesBase e); simpl; [|exact IH].
  rewrite (String.eqb_sym (e_to e) id). destruct (String.eqb id (e_to e)); simpl; by rewrite IH.
Qed.

Lemma count_by_map {A} (f : A → string) (l : list A) id :
  length (List.filter (String.eqb id) (map f l))
  = length (List.filter (λ x, String.eqb (f x) id) l).
Proof.
  induction l as [|x l IH]; simpl; [done|].
  rewrite (String.eqb_sym (f x) id). destruct (String.eqb id (f x)); simpl; by rewrite IH.
Qed.

(** C7, as the code has it. The USES_BASE edges of the built graph are, in
    order, one per surviving report, each to the id of the report's
    environment node; so an environment node is the destination of as many
    USES_BASE edges as there are surviving reports of its id: one for the
    node of a report whose path no other surviving report shares, none for
    a node synthesized for a run. *)
Theorem uses_base_per_report W reports runs options :
  map e_to (List.filter usesBase (g_edges (graph (mapRender W reports runs options))))
  = map (λ r, envIdOf W (r_pythonPath r)) (includedReports W reports options)
  ∧ ∀ n, n ∈ g_nodes (graph (mapRender W reports runs options)) → n_type n = NVenv →
      length (List.filter (λ e, usesBase e && String.eqb (e_to e) (n_id n))
                (g_edges (graph (mapRender W reports runs options))))
      = length (List.filter (λ r, String.eqb (envIdOf W (r_pythonPath r)) (n_id n))
                  (includedReports W reports options)).
Proof.
  rewrite mapRender_edges. split; [apply build_usesBase|].
  intros n _ _. by rewrite count_by_target, build_usesBase, count_by_map.
Qed.

(** The environment node synthesized for the run of [Ex.lintRun] is the
    destination of no USES_BASE edge. *)
Lemma uses_base_once_counterexample :
  ∃ n, n ∈ g_nodes (graph (mapRender Ex.world Ex.threeUnderOneBase [Ex.lintRun] Ex.options))
    ∧ n_type n = NVenv
    ∧ length (List.filter (λ e, usesBase e && String.eqb (e_to e) (n_id n))
                (g_edges (graph (mapRender Ex.world Ex.threeUnderOneBase [Ex.lintRun]
                                   Ex.options))))
      = 0.
Proof.
  exists (default fallbackNode
            (g_nodes (graph (mapRender Ex.world Ex.threeUnderOneBase [Ex.lintRun] Ex.options))
               !! 5)).
  split; [|split].
  - apply list_elem_of_lookup. exists 5. vm_compute. reflexivity.
  - vm_compute. reflexivity.
  - vm_compute. reflexivity.
Qed.

(** ** The roll-up computes every base node from the same children *)













Section rollup_result.
Context (W : World).


End rollup_result.

Lemma omap_nil_children (cs : list GraphNode) :
  omap (λ n, n_health n ≫= h_score) cs ≠ [] → cs ≠ [].
Proof. by destruct cs. Qed.


(** ** Base health *)



(** ** Records of counts *)

Lemma obj_get_elem {V} k (v : V) o : obj_get k o = Some v → (k, v) ∈ o.
Proof.
  induction o as [|[k' v'] o IH]; simpl; [done|].
  destruct (String.eqb k' k) eqn:Hk.
  - apply String.eqb_eq in Hk as ->. intros [= ->]. by left.
  - intros H. right. by apply IH.
Qed.

Lemma obj_get_replace {V} k k' (v : V) o :
  obj_get k' (obj_replace k v o)
  = if String.eqb k k'
    then match obj_get k o with Some _ => Some v | None => None end
    else obj_get k' o.
Proof.
  induction o as [|[k0 v0] o IH]; simpl; [by destruct (String.eqb k k')|].
  destruct (String.eqb k0 k) eqn:H0; simpl.
  - apply String.eqb_eq in H0 as ->. by destruct (String.eqb k k').
  - rewrite IH. destruct (String.eqb k k') eqn:Hkk; [|done].
    apply String.eqb_eq in Hkk as <-. by rewrite H0.
Qed.

Lemma obj_get_app {V} k (o1 o2 : jsobj V) :
  obj_get k (o1 ++ o2) = match obj_get k o1 with Some v => Some v | None => obj_get k o2 end.
Proof.
  induction o1 as [|[k0 v0] o1 IH]; simpl; [done|]. by destruct (String.eqb k0 k).
Qed.

Lemma obj_get_add_index {V} n k k' (v : V) o :
  obj_get k o = None →
  obj_get k' (obj_add_index n k v o) = if String.eqb k k' then Some v else obj_get k' o.
Proof.
  induction o as [|[k0 v0] o IH]; simpl; [done|].
  destruct (String.eqb k0 k) eqn:H0; [done|]. intros Hnone.
  destruct (array_index k0) as [n0|]; [destruct (n0 <? n)%N|]; simpl; try done.
  rewrite IH by done. destruct (String.eqb k k') eqn:Hkk; [|done].
  apply String.eqb_eq in Hkk as <-. by rewrite H0.
Qed.

Lemma obj_get_set {V} k k' (v : V) o :
  obj_get k' (obj_set k v o) = if String.eqb k k' then Some v else obj_get k' o.
Proof.
  unfold obj_set. destruct (obj_get k o) eqn:Hk.
  - by rewrite obj_get_replace, Hk.
  - destruct (array_index k); [by apply obj_get_add_index|].
    rewrite obj_get_app. simpl. destruct (String.eqb k k') eqn:Hkk.
    + apply String.eqb_eq in Hkk as <-. by rewrite Hk.
    + by destruct (obj_get k' o).
Qed.

Lemma map_get_set {V} k k' (v : V) m :
  obj_get k' (map_set k v m) = if String.eqb k k' then Some v else obj_get k' m.
Proof.
  unfold map_set. destruct (obj_get k m) eqn:Hk.
  - by rewrite obj_get_replace, Hk.
  - rewrite obj_get_app. simpl. destruct (String.eqb k k') eqn:Hkk.
    + apply String.eqb_eq in Hkk as <-. by rewrite Hk.
    + by destruct (obj_get k' m).
Qed.

Lemma bump_keeps k k' o : is_Some (obj_get k' o) → is_Some (obj_get k' (bump k o)).
Proof.
  unfold bump. destruct (String.eqb k "__proto__"); [done|].
  rewrite obj_get_set. by destruct (String.eqb k k').
Qed.

Lemma bump_has k o : k ≠ "__proto__" → is_Some (obj_get k (bump k o)).
Proof.
  intros Hk. unfold bump. rewrite (proj2 (String.eqb_neq _ _) Hk).
  by rewrite obj_get_set, String.eqb_refl.
Qed.

(** ** Clustering keeps every run *)

Lemma clusterSteps_keep runs m :
  (∀ k c, obj_get k m = Some c → sigId (c_sig c) = k) →
  (∀ k c, obj_get k (fold_left clusterStep runs m) = Some c → sigId (c_sig c) = k)
  ∧ (∀ r c, obj_get (sigId (signatureForRun r)) m = Some c → clustered r c →
       ∃ c', obj_get (sigId (signatureForRun r)) (fold_left clusterStep runs m) = Some c'
             ∧ clustered r c')
  ∧ (∀ r, r ∈ runs → s_pythonPath (selected r) ≠ "__proto__" →
       ∃ c, obj_get (sigId (signatureForRun r)) (fold_left clusterStep runs m) = Some c
            ∧ clustered r c).
Proof.
  revert m. induction runs as [|r0 runs IH]; intros m Hkeys; cbn [fold_left].
  - split; [done|]. split; [by eauto|]. intros r Hr. by apply elem_of_nil in Hr.
  - set (key := sigId (signatureForRun r0)).
    set (c0 := default (newCluster (signatureForRun r0) r0) (obj_get key m)).
    assert (Hc0 : sigId (c_sig c0) = key).
    { unfold c0. destruct (obj_get key m) eqn:Hk; simpl; [by apply Hkeys|done]. }
    assert (Hstep : clusterStep m r0 = map_set key (foldRun c0 r0) m) by reflexivity.
    assert (Hkeys' : ∀ k c, obj_get k (clusterStep m r0) = Some c → sigId (c_sig c) = k).
    { intros k c. rewrite Hstep, map_get_set. destruct (String.eqb key k) eqn:Hk.
      - apply String.eqb_eq in Hk as <-. by intros [= <-].
      - apply Hkeys. }
    destruct (IH (clusterStep m r0) Hkeys') as (IH1 & IH2 & IH3).
    split; [exact IH1|]. split.
    + intros r c Hget [Hsig Henv]. apply IH2 with (c := if String.eqb key (sigId (signatureForRun r)) then foldRun c0 r0 else c).
      * rewrite Hstep, map_get_set.
        by destruct (String.eqb key (sigId (signatureForRun r))).
      * destruct (String.eqb key (sigId (signatureForRun r))) eqn:Hk; [|done].
        apply String.eqb_eq in Hk. split; [cbn [c_sig foldRun]; by rewrite Hc0|].
        cbn [c_envCounts foldRun].
        apply bump_keeps. unfold c0. rewrite Hk, Hget. by simpl.
    + intros r Hr Hproto. apply elem_of_cons in Hr as [->|Hr]; [|by apply IH3].
      apply IH2 with (c := foldRun c0 r0).
      * by rewrite Hstep, map_get_set, String.eqb_refl.
      * split; [done|]. cbn [c_envCounts foldRun]. by apply bump_has.
Qed.

Lemma clusterRuns_keeps runs r :
  r ∈ runs → s_pythonPath (selected r) ≠ "__proto__" →
  ∃ c, c ∈ clusterRuns runs ∧ clustered r c.
Proof.
  intros Hr Hproto. destruct (clusterSteps_keep runs []) as (_ & _ & H); [done|].
  destruct (H r Hr Hproto) as (c & Hget & Hsig & Henv).
  exists (derive c). split; [|done].
  unfold clusterRuns. rewrite sort_perm. apply elem_of_map.
  exists (sigId (signatureForRun r), c). split; [done|]. by apply obj_get_elem.
Qed.

(** ** The environment node of a run *)

Lemma fold_left_elem {A} (I : Builder → Prop) (step : Builder → A → Builder) l b x :
  (∀ b y, I b → I (step b y) ∧ extends b (step b y)) →
  I b → x ∈ l →
  ∃ b', I b' ∧ extends (step b' x) (fold_left step l b).
Proof.
  intros Hstep. revert b. induction l as [|y l IH]; intros b Hb Hx.
  - by apply elem_of_nil in Hx.
  - simpl. apply elem_of_cons in Hx as [->|Hx].
    + exists b. split; [done|].
      assert (Hrest : ∀ l' b0, I b0 → extends b0 (fold_left step l' b0)).
      { induction l' as [|z l' IH']; intros b0 Hb0; simpl; [apply extends_refl|].
        destruct (Hstep b0 z Hb0) as [H1 H2].
        eapply extends_trans; [exact H2|by apply IH']. }
      apply Hrest. by apply Hstep.
    + apply IH; [|done]. by apply Hstep.
Qed.

Lemma kind_differs id id' c c' :
  kindOf id = Some c → kindOf id' = Some c' → c ≠ c' → id ≠ id'.
Proof. intros H1 H2 Hne ->. congruence. Qed.

Lemma ensureEnv_nodes b envPy n :
  nodes (ensureEnv b envPy n)
  = nodes b ++ match nodeIndex b !! n_id n with Some _ => [] | None => [n] end.
Proof.
  unfold ensureEnv. destruct (nodeIndex b !! n_id n); simpl; [by rewrite app_nil_r|done].
Qed.

Lemma filter_idIs_app X ns ms :
  List.filter (idIs X) (ns ++ ms) = List.filter (idIs X) ns ++ List.filter (idIs X) ms.
Proof. apply List.filter_app. Qed.

Lemma filter_idIs_nil X ns : X ∉ ids ns → List.filter (idIs X) ns = [].
Proof.
  induction ns as [|n ns IH]; simpl; [done|]. intros Hnot.
  unfold idIs at 1. destruct (String.eqb (n_id n) X) eqn:Heq.
  - apply String.eqb_eq in Heq. exfalso. apply Hnot. rewrite <- Heq. by left.
  - apply IH. intros Hin. apply Hnot. by right.
Qed.

Lemma filter_idIs_elem X ns n : n ∈ List.filter (idIs X) ns ↔ n ∈ ns ∧ n_id n = X.
Proof. rewrite elem_of_bfilter. unfold idIs. by rewrite String.eqb_eq. Qed.

Lemma filter_idIs_some X ns : X ∈ ids ns → List.filter (idIs X) ns ≠ [].
Proof.
  intros Hin Hnil. apply elem_of_map in Hin as (n & -> & Hn).
  assert (Hf : n ∈ List.filter (idIs (n_id n)) ns) by (by apply filter_idIs_elem).
  rewrite Hnil in Hf. by apply elem_of_nil in Hf.
Qed.

Section report_nodes.
Context (W : World).

Lemma envStep_nodes b r n :
  n ∈ nodes (envStep W b r) →
  n ∈ nodes b ∨ n_type n = NBase ∨ n_id n = envIdOf W (r_pythonPath r).
Proof.
  unfold envStep.
  destruct (match r_ranAt r with
            | Some at_ => (at_, ticks b)
            | None => (clock W (ticks b), S (ticks b))
            end) as [seen t].
  match goal with |- context [getOrCreateBaseNode W ?b1 ?k ?v ?a] =>
    assert (Hg : ∀ m, m ∈ nodes (getOrCreateBaseNode W b1 k v a).2 →
                      m ∈ nodes b1 ∨ n_type m = NBase);
    [unfold getOrCreateBaseNode; destruct (baseIdByKey b1 !! normPath W k); simpl;
     [by left|intros m Hm; apply elem_of_app in Hm as [Hm|Hm];
              [by left|apply list_elem_of_singleton in Hm as ->; by right]]|];
    destruct (getOrCreateBaseNode W b1 k v a) as [baseId b2]
  end.
  simpl in *. intros Hn. destruct (Hg n Hn) as [H|H]; [|by right; left].
  apply elem_of_app in H as [H|H]; [by left|].
  apply list_elem_of_singleton in H as ->. right. by right.
Qed.

Lemma envSteps_nodes rs b n :
  n ∈ nodes (fold_left (envStep W) rs b) →
  n ∈ nodes b ∨ n_type n = NBase
  ∨ n_id n ∈ map (λ r, envIdOf W (r_pythonPath r)) rs.
Proof.
  revert b. induction rs as [|r rs IH]; intros b; simpl; [by left|].
  intros Hn. destruct (IH _ Hn) as [H|[H|H]].
  - destruct (envStep_nodes b r n H) as [H'|[H'|H']]; [by left|by right; left|].
    right. right. rewrite H'. by left.
  - by right; left.
  - right. right. by right.
Qed.

(** A path no surviving report has gets no node in the report part. *)
Lemma reportPhase_lacks included X :
  kindOf X = Some "e"%char →
  (∀ r, r ∈ included → envIdOf W (r_pythonPath r) ≠ X) →
  X ∉ ids (nodes (reportPhase W included)).
Proof.
  intros Hkind Hnot. unfold reportPhase. simpl. rewrite rollup_ids.
  intros Hin. apply elem_of_map in Hin as (n & -> & Hn).
  destruct (envSteps_nodes included emptyBuilder n Hn) as [H|[H|H]].
  - by apply elem_of_nil in H.
  - assert (Hinv : BuilderInv (fold_left (envStep W) included emptyBuilder)).
    { apply (fold_steps_inv (envStep W)); [|apply emptyBuilder_inv].
      intros b' r. apply envStep_inv. }
    pose proof (proj1 (Forall_forall _ _) (inv_nodeKinds _ Hinv) n Hn) as Hk.
    unfold nodeKindOk in Hk. rewrite H in Hk. congruence.
  - apply elem_of_map in H as (r & Hr & Hrin). by apply (Hnot r Hrin).
Qed.

End report_nodes.

Section clustered_env.
Context (W : World) (X : string) (HX : kindOf X = Some "e"%char).

Lemma pushIndexed_unknownOnly b n :
  unknownOnly X b → n_type n = NTask → nodeKindOk n →
  unknownOnly X (pushIndexed b n).
Proof.
  intros (Hinv & Hc & Hu & Hcount) Hty Hk.
  assert (Hne : n_id n ≠ X).
  { unfold nodeKindOk in Hk. rewrite Hty in Hk. by eapply kind_differs. }
  split; [by apply pushIndexed_inv|]. split; [by apply pushIndexed_task|]. split.
  - simpl. intros m Hm Hid. apply elem_of_app in Hm as [Hm|Hm]; [by apply Hu|].
    apply list_elem_of_singleton in Hm as ->. done.
  - simpl. rewrite filter_idIs_app. simpl. unfold idIs at 2.
    rewrite (proj2 (String.eqb_neq _ _) Hne). by rewrite app_nil_r.
Qed.

Lemma pushEdge_unknownOnly b e :
  unknownOnly X b → edgeKindOk e → e_type e ≠ USES_BASE →
  e_from e ∈ ids (nodes b) → e_to e ∈ ids (nodes b) →
  unknownOnly X (pushEdge b e).
Proof.
  intros (Hinv & Hc & Hu & Hcount) Hk Hty Hf Ht.
  split; [by apply pushEdge_inv|]. split; [by apply pushEdge_task|]. done.
Qed.

Lemma ensureEnv_unknownOnly b envPy n :
  unknownOnly X b → n_id n = stableId "env" envPy → unknownEnv n →
  unknownOnly X (ensureEnv b envPy n).
Proof.
  intros (Hinv & Hc & Hu & Hcount) Hid Hn.
  destruct (ensureEnv_inv b envPy n Hinv (proj1 Hn) Hid) as (Hinv' & _ & _).
  destruct (ensureEnv_task b envPy n Hc (proj1 Hn)) as [Hc' _].
  split; [done|]. split; [done|]. rewrite ensureEnv_nodes.
  destruct (nodeIndex b !! n_id n) eqn:Hidx; [by rewrite app_nil_r|]. split.
  - intros m Hm Hmid. apply elem_of_app in Hm as [Hm|Hm]; [by apply Hu|].
    by apply list_elem_of_singleton in Hm as ->.
  - rewrite filter_idIs_app. simpl. unfold idIs at 2.
    destruct (String.eqb (n_id n) X) eqn:Heq; [|by rewrite app_nil_r].
    apply String.eqb_eq in Heq. rewrite filter_idIs_nil; [done|].
    intros Hin. apply Hc in Hin. rewrite <- Heq, Hidx in Hin. by destruct Hin.
Qed.

Lemma clusterEnvStep_unknownOnly c taskId b kv :
  unknownOnly X b → kindOf taskId = Some "t"%char → taskId ∈ ids (nodes b) →
  unknownOnly X (clusterEnvStep W c taskId b kv)
  ∧ extends b (clusterEnvStep W c taskId b kv)
  ∧ ∃ e, e ∈ edges (clusterEnvStep W c taskId b kv) ∧ routes taskId (envIdOf W kv.1) e.
Proof.
  intros Hu Hkind Htask. pose proof Hu as (Hinv & _).
  destruct (clusterEnvStep_inv W c taskId b kv Hinv Hkind Htask) as [_ Hext].
  split; [|split; [exact Hext|]]; destruct kv as [pyPath count]; unfold clusterEnvStep;
    rewrite (envIdFor_stable b _ Hinv);
    set (envId := stableId "env" (normPath W pyPath));
    set (n := missingEnvNode envId pyPath _ _);
    set (b1 := ensureEnv b (normPath W pyPath) n);
    set (route := routeEdge taskId envId _ _ _).
  - assert (Hu1 : unknownOnly X b1) by (by apply ensureEnv_unknownOnly).
    destruct (ensureEnv_inv b (normPath W pyPath) n Hinv eq_refl eq_refl)
      as (Hinv1 & Hext1 & Hid1).
    assert (Hu2 : unknownOnly X (pushEdge b1 route)).
    { apply pushEdge_unknownOnly; [done| |done| |done].
      - split; [done|apply kindOf_env].
      - by apply (extends_ids b b1). }
    destruct (0 <? default 0 (obj_get pyPath (c_envFailCounts c)))%nat; [|done].
    apply pushEdge_unknownOnly; [done| |done| |done].
    + split; [done|apply kindOf_env].
    + simpl. by apply (extends_ids b b1).
  - exists route. split; [|done].
    destruct (0 <? default 0 (obj_get pyPath (c_envFailCounts c)))%nat; simpl;
      rewrite ?elem_of_app, !list_elem_of_singleton; auto.
Qed.

Lemma clusterTaskStep_unknownOnly b c :
  unknownOnly X b →
  unknownOnly X (clusterTaskStep W b c) ∧ extends b (clusterTaskStep W b c).
Proof.
  intros Hu. pose proof Hu as (Hinv & _). split; [|by apply clusterTaskStep_inv].
  unfold clusterTaskStep.
  set (taskId := "task:" +:+ sigId (c_sig c)).
  set (b0 := pushIndexed b (clusterTaskNode c taskId)).
  assert (H0 : unknownOnly X b0 ∧ taskId ∈ ids (nodes b0)).
  { split.
    - apply pushIndexed_unknownOnly; [done|done|apply kindOf_sig].
    - apply (pushIndexed_id b (clusterTaskNode c taskId)). }
  revert H0. generalize b0. generalize (c_envCounts c).
  intros l. induction l as [|kv l IH]; intros b' (Hu' & Hid'); simpl; [done|].
  destruct (clusterEnvStep_unknownOnly c taskId b' kv Hu' (kindOf_sig _) Hid')
    as (Hu'' & Hext & _).
  apply IH. split; [done|]. by apply (extends_ids b').
Qed.

Lemma clusterTaskStep_routes b c pyPath count :
  unknownOnly X b → (pyPath, count) ∈ c_envCounts c →
  ∃ e, e ∈ edges (clusterTaskStep W b c)
       ∧ routes ("task:" +:+ sigId (c_sig c)) (envIdOf W pyPath) e.
Proof.
  intros Hu Hin. unfold clusterTaskStep.
  set (taskId := "task:" +:+ sigId (c_sig c)).
  set (b0 := pushIndexed b (clusterTaskNode c taskId)).
  destruct (fold_left_elem (λ b', unknownOnly X b' ∧ taskId ∈ ids (nodes b'))
              (clusterEnvStep W c taskId) (c_envCounts c) b0 (pyPath, count))
    as (b' & [Hu' Hid'] & Hext); [| |done|].
  - intros b' kv [Hu' Hid'].
    destruct (clusterEnvStep_unknownOnly c taskId b' kv Hu' (kindOf_sig _) Hid')
      as (Hu'' & Hext & _).
    split; [|done]. split; [done|]. by apply (extends_ids b').
  - split.
    + apply pushIndexed_unknownOnly; [done|done|apply kindOf_sig].
    + apply (pushIndexed_id b (clusterTaskNode c taskId)).
  - destruct (clusterEnvStep_unknownOnly c taskId b' (pyPath, count) Hu' (kindOf_sig _) Hid')
      as (_ & _ & e & He & Hr).
    exists e. split; [|done]. by apply (extends_edge _ _ e Hext).
Qed.

(** In clustered mode, a run on an environment [X] that the report part
    did not make: one node has the id [X], of unknown health, and the
    cluster of the run routes to it. *)
Lemma clustered_env_resolves runs b r :
  unknownOnly X b → r ∈ runs → s_pythonPath (selected r) ≠ "__proto__" →
  envIdOf W (s_pythonPath (selected r)) = X →
  let b' := fold_left (clusterTaskStep W) (clusterRuns runs) b in
  (∃ n, List.filter (idIs X) (nodes b') = [n] ∧ unknownEnv n)
  ∧ ∃ e, e ∈ edges b' ∧ routes ("task:" +:+ sigId (signatureForRun r)) X e.
Proof.
  intros Hu Hr Hproto HrX b'.
  destruct (clusterRuns_keeps runs r Hr Hproto) as (c & Hc & Hsig & [count Hcount]).
  apply obj_get_elem in Hcount.
  destruct (fold_left_elem (unknownOnly X) (clusterTaskStep W) (clusterRuns runs) b c)
    as (b0 & Hu0 & Hext); [|done|done|].
  { intros b0 c0. apply clusterTaskStep_unknownOnly. }
  destruct (clusterTaskStep_routes b0 c _ count Hu0 Hcount) as (e & He & Hroute).
  rewrite Hsig, HrX in Hroute.
  assert (He' : e ∈ edges b') by (by apply (extends_edge _ _ e Hext)).
  assert (Hu' : unknownOnly X b').
  { apply (fold_left_inv (unknownOnly X)); [done|].
    intros b1 c1 _ H1. by apply clusterTaskStep_unknownOnly. }
  split; [|by exists e].
  destruct Hu' as (Hinv' & _ & Hun & Hcount').
  assert (HXin : X ∈ ids (nodes b')).
  { destruct Hroute as (_ & _ & <-). by apply (inv_edges b' Hinv' e He'). }
  pose proof (filter_idIs_some X _ HXin) as Hne.
  destruct (List.filter (idIs X) (nodes b')) as [|n [|n' l]] eqn:Hf; [done| |simpl in *; lia].
  exists n. split; [done|].
  assert (Hn : n ∈ List.filter (idIs X) (nodes b')) by (rewrite Hf; by left).
  apply filter_idIs_elem in Hn as [Hn Hid]. by apply Hun.
Qed.

End clustered_env.

Lemma find_first {A} (p : A → bool) l x :
  List.find p l = Some x →
  ∃ l1 l2, l = l1 ++ x :: l2 ∧ p x = true ∧ Forall (λ y, p y = false) l1.
Proof.
  induction l as [|y l IH]; simpl; [done|].
  destruct (p y) eqn:Hy.
  - intros [= ->]. exists [], l. by repeat split.
  - intros H. destruct (IH H) as (l1 & l2 & -> & Hx & Hl1).
    exists (y :: l1), l2. repeat split; [done|]. by constructor.
Qed.

Lemma find_some_elem {A} (p : A → bool) l x :
  x ∈ l → p x = true → ∃ y, List.find p l = Some y.
Proof.
  induction l as [|z l IH]; intros Hx Hp; [by apply elem_of_nil in Hx|].
  simpl. destruct (p z) eqn:Hz; [by eexists|].
  apply elem_of_cons in Hx as [->|Hx]; [congruence|]. by apply IH.
Qed.

Section runs_env.
Context (W : World) (X : string) (HX : kindOf X = Some "e"%char).

Lemma runTaskStep_nodes b run :
  BuilderInv b →
  nodes (runTaskStep W b run)
  = nodes b ++ [runTaskNode run (runTaskId run)]
      ++ match nodeIndex b !! envIdOf W (s_pythonPath (selected run)) with
         | Some _ => []
         | None => [runEnvNode W run]
         end.
Proof.
  intros Hinv. unfold runTaskStep. fold (runTaskId run).
  set (taskId := runTaskId run).
  set (b0 := pushIndexed b (runTaskNode run taskId)).
  assert (Hinv0 : BuilderInv b0) by (apply pushIndexed_inv; [done|apply kindOf_task]).
  rewrite (envIdFor_stable b0 _ Hinv0).
  fold (envIdOf W (s_pythonPath (selected run))). fold (runEnvNode W run).
  assert (Hnodes : ∀ b1 e, nodes (pushEdge b1 e) = nodes b1) by done.
  assert (Hgoal : nodes (ensureEnv b0 (normPath W (s_pythonPath (selected run)))
                           (runEnvNode W run))
                  = nodes b ++ [runTaskNode run taskId]
                      ++ match nodeIndex b !! envIdOf W (s_pythonPath (selected run)) with
                         | Some _ => []
                         | None => [runEnvNode W run]
                         end).
  { rewrite ensureEnv_nodes. cbn [n_id runEnvNode missingEnvNode nodes pushIndexed b0 nodeIndex].
    rewrite lookup_insert_ne, <- app_assoc; [done|].
    eapply kind_differs; [apply kindOf_task|apply kindOf_env|done]. }
  destruct (o_ok (outcome run)); by rewrite ?Hnodes, Hgoal.
Qed.

Lemma runTaskStep_route b run :
  BuilderInv b →
  ∃ e, e ∈ edges (runTaskStep W b run)
       ∧ routes (runTaskId run) (envIdOf W (s_pythonPath (selected run))) e.
Proof.
  intros Hinv. unfold runTaskStep. fold (runTaskId run).
  set (taskId := runTaskId run).
  set (b0 := pushIndexed b (runTaskNode run taskId)).
  assert (Hinv0 : BuilderInv b0) by (apply pushIndexed_inv; [done|apply kindOf_task]).
  rewrite (envIdFor_stable b0 _ Hinv0).
  fold (envIdOf W (s_pythonPath (selected run))).
  set (route := routeEdge taskId _ _ _ _).
  exists route. split; [|done].
  destruct (o_ok (outcome run)); simpl;
    rewrite ?elem_of_app, !list_elem_of_singleton; auto.
Qed.

Lemma task_id_apart run : runTaskId run ≠ X.
Proof. eapply kind_differs; [apply kindOf_task|exact HX|done]. Qed.

Lemma filter_idIs_step b run :
  BuilderInv b →
  List.filter (idIs X) (nodes (runTaskStep W b run))
  = List.filter (idIs X) (nodes b)
      ++ match nodeIndex b !! envIdOf W (s_pythonPath (selected run)) with
         | Some _ => []
         | None => if String.eqb (envIdOf W (s_pythonPath (selected run))) X
                   then [runEnvNode W run] else []
         end.
Proof.
  intros Hinv. rewrite (runTaskStep_nodes b run Hinv), !filter_idIs_app. f_equal.
  assert (Htask : List.filter (idIs X) [runTaskNode run (runTaskId run)] = []).
  { cbn [List.filter]. unfold idIs. cbn [n_id runTaskNode].
    by rewrite (proj2 (String.eqb_neq _ _) (task_id_apart run)). }
  rewrite Htask, app_nil_l.
  destruct (nodeIndex b !! envIdOf W (s_pythonPath (selected run))); [done|].
  change (List.filter (idIs X) [runEnvNode W run])
    with (if String.eqb (envIdOf W (s_pythonPath (selected run))) X
          then [runEnvNode W run] else []).
  done.
Qed.

Lemma runTaskStep_noNode b run :
  noNode X b → envIdOf W (s_pythonPath (selected run)) ≠ X →
  noNode X (runTaskStep W b run).
Proof.
  intros (Hinv & Hc & Hno) Hne.
  split; [by apply runTaskStep_inv|]. split; [by apply runTaskStep_task|].
  rewrite (runTaskStep_nodes b run Hinv), !ids_app, !elem_of_app.
  intros [H|[H|H]]; [done| |].
  - apply list_elem_of_singleton in H. by apply (task_id_apart run).
  - destruct (nodeIndex b !! _); [by apply elem_of_nil in H|].
    apply list_elem_of_singleton in H. by apply Hne.
Qed.

Lemma runTaskStep_first b run :
  noNode X b → envIdOf W (s_pythonPath (selected run)) = X →
  onlyNode X (runEnvNode W run) (runTaskStep W b run).
Proof.
  intros (Hinv & Hc & Hno) HeX.
  split; [by apply runTaskStep_inv|]. split; [by apply runTaskStep_task|].
  rewrite (filter_idIs_step b run Hinv), (filter_idIs_nil X _ Hno), HeX, String.eqb_refl.
  destruct (nodeIndex b !! X) eqn:Hidx; [|done].
  exfalso. apply Hno. apply (inv_index b Hinv). by eexists.
Qed.

Lemma runTaskStep_onlyNode n0 b run :
  onlyNode X n0 b → onlyNode X n0 (runTaskStep W b run).
Proof.
  intros (Hinv & Hc & Hf).
  split; [by apply runTaskStep_inv|]. split; [by apply runTaskStep_task|].
  rewrite (filter_idIs_step b run Hinv), Hf.
  destruct (nodeIndex b !! envIdOf W (s_pythonPath (selected run))) eqn:Hidx; [done|].
  destruct (String.eqb _ X) eqn:Heq; [|done].
  apply String.eqb_eq in Heq. exfalso.
  assert (Hn0 : n0 ∈ List.filter (idIs X) (nodes b)) by (rewrite Hf; by left).
  apply filter_idIs_elem in Hn0 as [Hn0 Hid].
  assert (HXin : X ∈ ids (nodes b)) by (apply elem_of_map; by exists n0).
  apply Hc in HXin. rewrite <- Heq, Hidx in HXin. by destruct HXin.
Qed.

(** In "runs" mode, a run on an environment [X] that the report part did
    not make: one node has the id [X], made for the first run on [X] with
    the status and score that run recorded, and the task node of the run
    routes to it. *)
Lemma runs_env_resolves runs b r :
  noNode X b → r ∈ runs → envIdOf W (s_pythonPath (selected r)) = X →
  let b' := fold_left (runTaskStep W) runs b in
  ∃ r0,
    List.find (λ r', String.eqb (envIdOf W (s_pythonPath (selected r'))) X) runs = Some r0
    ∧ List.filter (idIs X) (nodes b') = [runEnvNode W r0]
    ∧ ∃ e, e ∈ edges b' ∧ routes (runTaskId r) X e.
Proof.
  intros Hno Hr HrX b'.
  destruct (find_some_elem (λ r', String.eqb (envIdOf W (s_pythonPath (selected r'))) X)
              runs r Hr) as [r0 Hfind]; [by apply String.eqb_eq|].
  exists r0. split; [done|]. split.
  - destruct (find_first _ _ _ Hfind) as (l1 & l2 & Hruns & Hr0 & Hl1).
    apply String.eqb_eq in Hr0. subst b'. rewrite Hruns, fold_left_app. simpl.
    assert (HA : noNode X (fold_left (runTaskStep W) l1 b)).
    { apply (fold_left_inv (noNode X)); [done|]. intros b1 r1 Hr1 H1.
      apply runTaskStep_noNode; [done|].
      apply String.eqb_neq. by apply (proj1 (Forall_forall _ _) Hl1). }
    pose proof (runTaskStep_first _ r0 HA Hr0) as HB.
    apply (fold_left_inv (onlyNode X (runEnvNode W r0))); [done|].
    intros b1 r1 _ H1. by apply runTaskStep_onlyNode.
  - destruct Hno as (Hinv & _).
    destruct (fold_left_elem BuilderInv (runTaskStep W) runs b r) as (b0 & Hinv0 & Hext);
      [|done|done|].
    { intros b0 r1. apply runTaskStep_inv. }
    destruct (runTaskStep_route b0 r Hinv0) as (e & He & Hroute).
    rewrite HrX in Hroute. exists e. split; [|done]. by apply (extends_edge _ _ e Hext).
Qed.

End runs_env.

(** ** Runs on environments without a report *)

Lemma build_clustered W reports runs options :
  default TMClustered (taskMode options) = TMClustered → runs ≠ [] →
  (build W reports runs options).1.1.1
  = fold_left (clusterTaskStep W) (clusterRuns runs)
      (reportPhase W (includedReports W reports options)).
Proof.
  intros Hmode Hruns. unfold build, taskPhase. rewrite Hmode.
  destruct runs; [done|]. reflexivity.
Qed.

Lemma build_runs W reports runs options :
  default TMClustered (taskMode options) = TMRuns → runs ≠ [] →
  (build W reports runs options).1.1.1
  = fold_left (runTaskStep W) runs (reportPhase W (includedReports W reports options)).
Proof.
  intros Hmode Hruns. unfold build, taskPhase. rewrite Hmode.
  destruct runs; [done|]. reflexivity.
Qed.

(** C6, as the code has it. For a run whose environment id no surviving
    report has, the built graph has exactly one node of that id, an
    environment node, and a ROUTES_TASK_TO edge from the task node of the
    run to it. In clustered mode (where the path must not be the key
    [__proto__], which the count records cannot hold) the node has health
    status unknown. In
    "runs" mode the node is the one made for the first run of the log on
    that environment: its status is the status that run recorded for the
    selected environment, and unknown when it recorded none. With task mode
    "none" the graph has no node of that id. *)
Theorem run_env_node W reports runs options (r : RunLogEventV1) :
  r ∈ runs →
  (∀ rep, rep ∈ includedReports W reports options →
          envIdOf W (r_pythonPath rep) ≠ envIdOf W (s_pythonPath (selected r))) →
  (default TMClustered (taskMode options) = TMClustered →
   s_pythonPath (selected r) ≠ "__proto__" →
   (∃ n, List.filter (idIs (envIdOf W (s_pythonPath (selected r))))
                     (g_nodes (graph (mapRender W reports runs options))) = [n]
         ∧ unknownEnv n)
   ∧ ∃ e, e ∈ g_edges (graph (mapRender W reports runs options))
          ∧ routes ("task:" +:+ sigId (signatureForRun r))
                   (envIdOf W (s_pythonPath (selected r))) e)
  ∧ (default TMClustered (taskMode options) = TMRuns →
     ∃ r0,
       List.find (λ r', String.eqb (envIdOf W (s_pythonPath (selected r')))
                                   (envIdOf W (s_pythonPath (selected r)))) runs = Some r0
       ∧ List.filter (idIs (envIdOf W (s_pythonPath (selected r))))
                     (g_nodes (graph (mapRender W reports runs options)))
         = [runEnvNode W r0]
       ∧ n_type (runEnvNode W r0) = NVenv
       ∧ h_status <$> n_health (runEnvNode W r0)
         = Some (default Unknown (s_status (selected r0)))
       ∧ ∃ e, e ∈ g_edges (graph (mapRender W reports runs options))
              ∧ routes (runTaskId r) (envIdOf W (s_pythonPath (selected r))) e)
  ∧ (default TMClustered (taskMode options) = TMNone →
     List.filter (idIs (envIdOf W (s_pythonPath (selected r))))
                 (g_nodes (graph (mapRender W reports runs options))) = []).
Proof.
  intros Hr Hnot. rewrite mapRender_nodes, mapRender_edges.
  set (X := envIdOf W (s_pythonPath (selected r))) in *.
  set (b2 := reportPhase W (includedReports W reports options)).
  assert (HX : kindOf X = Some "e"%char) by apply kindOf_env.
  assert (Hruns : runs ≠ []) by (intros ->; by apply elem_of_nil in Hr).
  assert (Hlacks : X ∉ ids (nodes b2)) by (by apply reportPhase_lacks).
  assert (Hinv : BuilderInv b2) by apply reportPhase_inv.
  assert (Hc : indexComplete b2) by apply reportPhase_indexComplete.
  split; [|split]; intros Hmode.
  - intros Hproto. rewrite (build_clustered W reports runs options Hmode Hruns).
    apply (clustered_env_resolves W X HX runs b2 r); [|done|done|done].
    split; [done|]. split; [done|]. split.
    + intros n Hn Hid. exfalso. apply Hlacks. apply elem_of_map. by exists n.
    + rewrite (filter_idIs_nil X _ Hlacks). simpl. lia.
  - rewrite (build_runs W reports runs options Hmode Hruns).
    destruct (runs_env_resolves W X HX runs b2 r) as (r0 & Hfind & Hf & He); [done|done|done|].
    exists r0. by repeat split.
  - unfold build, taskPhase. rewrite Hmode. cbn [bool_decide decide_rel negb andb fst].
    by apply filter_idIs_nil.
Qed.

Lemma run_env_node_witness :
  (∃ n, List.filter (idIs (envIdOf Ex.world "/zz/bin/python"))
                    (g_nodes (graph (mapRender Ex.world Ex.threeUnderOneBase [Ex.lintRun]
                                       Ex.options))) = [n]
        ∧ unknownEnv n)
  ∧ ∃ e, e ∈ g_edges (graph (mapRender Ex.world Ex.threeUnderOneBase [Ex.lintRun] Ex.options))
         ∧ routes ("task:" +:+ sigId (signatureForRun Ex.lintRun))
                  (envIdOf Ex.world "/zz/bin/python") e.
Proof.
  apply (proj1 (run_env_node Ex.world Ex.threeUnderOneBase [Ex.lintRun] Ex.options Ex.lintRun
                  ltac:(by left)
                  ltac:(apply Forall_forall;
                        let l := eval vm_compute in
                                 (includedReports Ex.world Ex.threeUnderOneBase Ex.options) in
                        change (includedReports Ex.world Ex.threeUnderOneBase Ex.options)
                          with l;
                        repeat constructor; intros H; vm_compute in H; discriminate H))).
  - reflexivity.
  - discriminate.
Defined.

(** In "runs" mode the node made for the environment of [Ex.goodEnvRun],
    which no report describes, has the status the run recorded: good. *)
Lemma run_env_unknown_counterexample :
  map (λ n, h_status <$> n_health n)
      (List.filter (idIs (envIdOf Ex.world "/zz/bin/python"))
         (g_nodes (graph (mapRender Ex.world [] [Ex.goodEnvRun] Ex.runsMode))))
  = [Some Good].
Proof. vm_compute. reflexivity. Qed.

(** ** Determinism *)

Section erasure.
Context (q : NodeType → bool).

Lemma erase_id n : n_id (erase q n) = n_id n.
Proof. unfold erase. by destruct (q _). Qed.
Lemma erase_type n : n_type (erase q n) = n_type n.
Proof. unfold erase. by destruct (q _). Qed.
Lemma erase_label n : n_label (erase q n) = n_label n.
Proof. unfold erase. by destruct (q _). Qed.
Lemma erase_health n : n_health (erase q n) = n_health n.
Proof. unfold erase. by destruct (q _). Qed.
Lemma erase_python n : n_python (erase q n) = n_python n.
Proof. unfold erase. by destruct (q _). Qed.
Lemma erase_caps n : n_caps (erase q n) = n_caps n.
Proof. unfold erase. by destruct (q _). Qed.

Lemma erase_setHealth n h : erase q (setHealth n h) = setHealth (erase q n) h.
Proof. unfold erase. simpl. by destruct (q _). Qed.

Lemma erase_hasStatus s n : hasStatus s (erase q n) = hasStatus s n.
Proof. unfold hasStatus. by rewrite erase_health. Qed.

(** A filter that does not look at the time commutes with the erasure. *)
Lemma filter_erase (p : GraphNode → bool) ns :
  (∀ n, p (erase q n) = p n) →
  List.filter p (map (erase q) ns) = map (erase q) (List.filter p ns).
Proof.
  intros Hp. induction ns as [|n ns IH]; simpl; [done|].
  rewrite Hp. destruct (p n); simpl; by rewrite IH.
Qed.

Lemma countType_erase t ns : countType t (map (erase q) ns) = map (erase q) (countType t ns).
Proof. apply filter_erase. intros n. by rewrite erase_type. Qed.

Lemma existsb_erase (p : GraphNode → bool) ns :
  (∀ n, p (erase q n) = p n) → existsb p (map (erase q) ns) = existsb p ns.
Proof.
  intros Hp. induction ns as [|n ns IH]; simpl; [done|]. by rewrite Hp, IH.
Qed.

Lemma find_erase (p : GraphNode → bool) ns :
  (∀ n, p (erase q n) = p n) →
  List.find p (map (erase q) ns) = erase q <$> List.find p ns.
Proof.
  intros Hp. induction ns as [|n ns IH]; simpl; [done|].
  rewrite Hp. by destruct (p n).
Qed.

Lemma worstOf_erase ns : worstOf (map (erase q) ns) = worstOf ns.
Proof.
  unfold worstOf.
  by rewrite !existsb_erase by (intros n; apply erase_hasStatus).
Qed.

Lemma omap_map {A B C} (f : B → option C) (g : A → B) l :
  omap f (map g l) = omap (λ x, f (g x)) l.
Proof.
  induction l as [|x l IH]; simpl; [done|].
  destruct (f (g x)); [f_equal|]; exact IH.
Qed.

Lemma sortedScores_erase ns : sortedScores (map (erase q) ns) = sortedScores ns.
Proof.
  unfold sortedScores. f_equal. rewrite omap_map.
  induction ns as [|n ns IH]; simpl; [done|].
  rewrite erase_health. destruct (n_health n ≫= h_score); [f_equal|]; exact IH.
Qed.

Lemma childNodesOf_erase ns E base :
  childNodesOf (map (erase q) ns) E (erase q base) = map (erase q) (childNodesOf ns E base).
Proof.
  unfold childNodesOf, childEdgesOf. rewrite erase_id.
  apply filter_erase. intros n. by rewrite erase_id.
Qed.

Lemma rollupAt_erase E ns i :
  rollupAt E (map (erase q) ns) i = map (erase q) (rollupAt E ns i).
Proof.
  unfold rollupAt.
  change (map (erase q) ns !! i) with ((erase q <$> ns) !! i).
  rewrite list_lookup_fmap. destruct (ns !! i) as [base|]; simpl; [|done].
  rewrite erase_type. case_bool_decide; [|done].
  rewrite childNodesOf_erase.
  destruct (childNodesOf ns E base) as [|c cs] eqn:Hch; simpl; [done|].
  change (erase q c :: map (erase q) cs) with (map (erase q) (c :: cs)).
  rewrite worstOf_erase, sortedScores_erase, <- erase_setHealth.
  change (map (erase q)) with (fmap (M:=list) (erase q)).
  by rewrite list_fmap_insert.
Qed.

Lemma rollup_erase E ns : rollup E (map (erase q) ns) = map (erase q) (rollup E ns).
Proof.
  unfold rollup. rewrite length_map. generalize (seq 0 (length ns)). intros is_.
  revert ns. induction is_ as [|i is_ IH]; intros ns; simpl; [done|].
  by rewrite rollupAt_erase, IH.
Qed.

Lemma indexNodes_erase ns : indexNodes (map (erase q) ns) = erase q <$> indexNodes ns.
Proof.
  unfold indexNodes.
  assert (Hgen : ∀ m : gmap string GraphNode,
             fold_left (λ m n, <[n_id n:=n]> m) (map (erase q) ns) (erase q <$> m)
             = erase q <$> fold_left (λ m n, <[n_id n:=n]> m) ns m).
  { induction ns as [|n ns IH]; intros m; simpl; [done|].
    rewrite erase_id, <- fmap_insert. apply IH. }
  rewrite <- Hgen. by rewrite fmap_empty.
Qed.

Lemma sim_refl b : sim q b b.
Proof. by repeat split. Qed.

Lemma sim_index b1 b2 k :
  sim q b1 b2 → is_Some (nodeIndex b1 !! k) ↔ is_Some (nodeIndex b2 !! k).
Proof.
  intros (_ & _ & _ & _ & Hidx).
  rewrite <- (fmap_is_Some (erase q) (nodeIndex b1 !! k)).
  rewrite <- (fmap_is_Some (erase q) (nodeIndex b2 !! k)).
  by rewrite <- !lookup_fmap, Hidx.
Qed.

Lemma pushIndexed_sim b1 b2 n1 n2 :
  sim q b1 b2 → erase q n1 = erase q n2 →
  sim q (pushIndexed b1 n1) (pushIndexed b2 n2).
Proof.
  intros (Hn & He & Hb & Hv & Hi) Hnn. repeat split; simpl; try done.
  - rewrite !map_app, Hn. cbn [map]. by rewrite Hnn.
  - rewrite !fmap_insert, Hi, Hnn.
    by rewrite <- (erase_id n1), <- (erase_id n2), Hnn.
Qed.

Lemma pushEdge_sim b1 b2 e : sim q b1 b2 → sim q (pushEdge b1 e) (pushEdge b2 e).
Proof. intros (Hn & He & Hb & Hv & Hi). repeat split; simpl; try done. by rewrite He. Qed.

Lemma ensureEnv_sim b1 b2 envPy n :
  sim q b1 b2 → sim q (ensureEnv b1 envPy n) (ensureEnv b2 envPy n).
Proof.
  intros Hsim. unfold ensureEnv.
  pose proof (sim_index b1 b2 (n_id n) Hsim) as Hidx.
  destruct (nodeIndex b1 !! n_id n) as [x1|] eqn:H1,
           (nodeIndex b2 !! n_id n) as [x2|] eqn:H2.
  - done.
  - exfalso. destruct (proj1 Hidx) as [? ?]; [by eexists|done].
  - exfalso. destruct (proj2 Hidx) as [? ?]; [by eexists|done].
  - pose proof (pushIndexed_sim b1 b2 n n Hsim eq_refl) as (Hn & He & Hb & Hv & Hi).
    repeat split; simpl; try done.
    destruct Hsim as (_ & _ & _ & Hv' & _). by rewrite Hv'.
Qed.

End erasure.

Section two_calls.
Context (q : NodeType → bool) (W1 W2 : World).
Context (Hplatform : platform W1 = platform W2) (HqBase : q NBase = true).

Lemma normPath_same p : normPath W1 p = normPath W2 p.
Proof. unfold normPath. by rewrite Hplatform. Qed.

Lemma envIdOf_same p : envIdOf W1 p = envIdOf W2 p.
Proof. unfold envIdOf. by rewrite normPath_same. Qed.

Lemma shouldIncludeReport_same r options :
  shouldIncludeReport W1 r options = shouldIncludeReport W2 r options.
Proof. unfold shouldIncludeReport, normPath. by rewrite Hplatform. Qed.

Lemma includedReports_same reports options :
  includedReports W1 reports options = includedReports W2 reports options.
Proof.
  unfold includedReports. apply filter_ext. intros r. apply shouldIncludeReport_same.
Qed.

Lemma fold_sim {A} (s1 s2 : Builder → A → Builder) (P : A → Prop) l b1 b2 :
  (∀ b1 b2 x, P x → sim q b1 b2 → sim q (s1 b1 x) (s2 b2 x)) →
  Forall P l → sim q b1 b2 →
  sim q (fold_left s1 l b1) (fold_left s2 l b2).
Proof.
  intros Hstep Hl. revert b1 b2. induction Hl as [|x l Hx _ IH]; intros b1 b2 Hsim; simpl.
  - done.
  - apply IH. by apply Hstep.
Qed.

Lemma envIdFor_sim b1 b2 envPy : sim q b1 b2 → envIdFor b1 envPy = envIdFor b2 envPy.
Proof. intros (_ & _ & _ & Hv & _). unfold envIdFor. by rewrite Hv. Qed.

Lemma clusterEnvStep_sim c taskId b1 b2 kv :
  sim q b1 b2 →
  sim q (clusterEnvStep W1 c taskId b1 kv) (clusterEnvStep W2 c taskId b2 kv).
Proof.
  intros Hsim. destruct kv as [pyPath count]. unfold clusterEnvStep.
  rewrite <- normPath_same, <- (envIdFor_sim b1 b2 _ Hsim).
  set (n := missingEnvNode _ pyPath _ _).
  pose proof (ensureEnv_sim q b1 b2 (normPath W1 pyPath) n Hsim) as H1.
  destruct (0 <? default 0 (obj_get pyPath (c_envFailCounts c)))%nat;
    repeat apply pushEdge_sim; exact H1.
Qed.

Lemma clusterTaskStep_sim b1 b2 c :
  sim q b1 b2 → sim q (clusterTaskStep W1 b1 c) (clusterTaskStep W2 b2 c).
Proof.
  intros Hsim. unfold clusterTaskStep.
  apply (fold_sim _ _ (λ _, True)).
  - intros b1' b2' kv _. apply clusterEnvStep_sim.
  - by apply Forall_true.
  - by apply pushIndexed_sim.
Qed.

Lemma runTaskStep_sim b1 b2 run :
  sim q b1 b2 → sim q (runTaskStep W1 b1 run) (runTaskStep W2 b2 run).
Proof.
  intros Hsim. unfold runTaskStep.
  set (taskId := stableId "task" _).
  pose proof (pushIndexed_sim q b1 b2 _ _ Hsim (eq_refl (erase q (runTaskNode run taskId))))
    as H0.
  rewrite <- normPath_same, <- (envIdFor_sim _ _ _ H0).
  set (n := missingEnvNode _ _ _ _).
  pose proof (ensureEnv_sim q _ _ (normPath W1 (s_pythonPath (selected run))) n H0) as H1.
  destruct (o_ok (outcome run)); repeat apply pushEdge_sim; exact H1.
Qed.

Lemma taskPhase_sim mode runs b1 b2 :
  sim q b1 b2 →
  sim q (taskPhase W1 mode runs b1).1.1.1 (taskPhase W2 mode runs b2).1.1.1
  ∧ (taskPhase W1 mode runs b1).1.1.2 = (taskPhase W2 mode runs b2).1.1.2
  ∧ (taskPhase W1 mode runs b1).1.2 = (taskPhase W2 mode runs b2).1.2
  ∧ (taskPhase W1 mode runs b1).2 = (taskPhase W2 mode runs b2).2.
Proof.
  intros Hsim. unfold taskPhase.
  destruct (negb _ && _); [|done].
  destruct (bool_decide (mode = TMClustered)); simpl; (split; [|done]).
  - apply (fold_sim _ _ (λ _, True)); [|by apply Forall_true|done].
    intros b1' b2' c _. apply clusterTaskStep_sim.
  - apply (fold_sim _ _ (λ _, True)); [|by apply Forall_true|done].
    intros b1' b2' r _. apply runTaskStep_sim.
Qed.

Lemma erase_baseNode id baseKey keyNorm v a now1 now2 :
  erase q (baseNode id baseKey keyNorm v a now1)
  = erase q (baseNode id baseKey keyNorm v a now2).
Proof. unfold erase. cbn [n_type baseNode]. by rewrite HqBase. Qed.

Lemma getOrCreateBaseNode_sim b1 b2 baseKey v a :
  sim q b1 b2 →
  (getOrCreateBaseNode W1 b1 baseKey v a).1 = (getOrCreateBaseNode W2 b2 baseKey v a).1
  ∧ sim q (getOrCreateBaseNode W1 b1 baseKey v a).2 (getOrCreateBaseNode W2 b2 baseKey v a).2.
Proof.
  intros (Hn & He & Hb & Hv & Hi). unfold getOrCreateBaseNode.
  rewrite <- normPath_same, <- Hb.
  destruct (baseIdByKey b1 !! normPath W1 baseKey); simpl; [by repeat split|].
  split; [done|]. repeat split; simpl; try done.
  rewrite !map_app, Hn. cbn [map]. by rewrite (erase_baseNode _ _ _ _ _ _ (clock W2 (ticks b2))).
Qed.

Lemma erase_envNode r envId pyPath v a d seen1 seen2 :
  q NVenv = true ∨ seen1 = seen2 →
  erase q (envNode r envId pyPath v a d seen1) = erase q (envNode r envId pyPath v a d seen2).
Proof.
  intros [Hq| ->]; [|done]. unfold erase. cbn [n_type envNode]. by rewrite Hq.
Qed.

Lemma envStep_sim b1 b2 r :
  q NVenv = true ∨ is_Some (r_ranAt r) →
  sim q b1 b2 → sim q (envStep W1 b1 r) (envStep W2 b2 r).
Proof.
  intros Hq Hsim. unfold envStep. rewrite <- !normPath_same.
  set (pyPath := normPath W1 (r_pythonPath r)).
  set (envId := stableId "env" pyPath).
  destruct (match r_ranAt r with
            | Some at_ => (at_, ticks b1)
            | None => (clock W1 (ticks b1), S (ticks b1))
            end) as [seen1 t1] eqn:H1.
  destruct (match r_ranAt r with
            | Some at_ => (at_, ticks b2)
            | None => (clock W2 (ticks b2), S (ticks b2))
            end) as [seen2 t2] eqn:H2.
  assert (Hseen : q NVenv = true ∨ seen1 = seen2).
  { destruct Hq as [Hq|[x Hx]]; [by left|]. right. rewrite Hx in H1, H2. congruence. }
  match goal with
  | |- context [getOrCreateBaseNode W1 ?c1 ?k ?v ?a] =>
    match goal with
    | |- context [getOrCreateBaseNode W2 ?c2 k v a] =>
      assert (Hsim1 : sim q c1 c2);
      [|destruct (getOrCreateBaseNode_sim c1 c2 k v a Hsim1) as [Hid Hsim2];
        destruct (getOrCreateBaseNode W1 c1 k v a) as [baseId1 d1];
        destruct (getOrCreateBaseNode W2 c2 k v a) as [baseId2 d2]]
    end
  end.
  - destruct Hsim as (Hn & He & Hb & Hv & Hi). repeat split; simpl; try done.
    + rewrite !map_app, Hn. cbn [map]. by rewrite (erase_envNode _ _ _ _ _ _ seen1 seen2).
    + by rewrite Hv.
  - simpl in Hid, Hsim2. subst baseId2.
    destruct Hsim2 as (Hn & He & Hb & Hv & Hi). repeat split; simpl; try done.
    by rewrite He.
Qed.

Lemma reportPhase_sim included :
  (q NVenv = true ∨ ∀ r, r ∈ included → is_Some (r_ranAt r)) →
  sim q (reportPhase W1 included) (reportPhase W2 included).
Proof.
  intros Hq.
  assert (Hfold : sim q (fold_left (envStep W1) included emptyBuilder)
                        (fold_left (envStep W2) included emptyBuilder)).
  { apply (fold_sim _ _ (λ r, q NVenv = true ∨ is_Some (r_ranAt r))).
    - intros b1 b2 r Hr. by apply envStep_sim.
    - apply Forall_forall. intros r Hr. destruct Hq as [Hq|Hq]; [by left|right; by apply Hq].
    - apply sim_refl. }
  destruct Hfold as (Hn & He & Hb & Hv & Hi). unfold reportPhase.
  repeat split; simpl; try done.
  - by rewrite <- !rollup_erase, Hn, He.
  - by rewrite <- !indexNodes_erase, <- !rollup_erase, Hn, He.
Qed.

Lemma build_sim reports runs options :
  (q NVenv = true
   ∨ ∀ r, r ∈ includedReports W1 reports options → is_Some (r_ranAt r)) →
  sim q (build W1 reports runs options).1.1.1 (build W2 reports runs options).1.1.1
  ∧ (build W1 reports runs options).1.1.2 = (build W2 reports runs options).1.1.2
  ∧ (build W1 reports runs options).1.2 = (build W2 reports runs options).1.2
  ∧ (build W1 reports runs options).2 = (build W2 reports runs options).2.
Proof.
  intros Hq. unfold build. rewrite <- includedReports_same.
  apply taskPhase_sim. by apply reportPhase_sim.
Qed.

End two_calls.

Section observers.
Context (q : NodeType → bool).

Lemma summarizeCounts_erase ns :
  summarizeCounts (map (erase q) ns) = summarizeCounts ns.
Proof.
  unfold summarizeCounts. rewrite countType_erase.
  by rewrite !(filter_erase q) by (intros n; apply erase_hasStatus); rewrite !length_map.
Qed.

Lemma countType_length_erase t ns :
  length (countType t (map (erase q) ns)) = length (countType t ns).
Proof. by rewrite countType_erase, length_map. Qed.

Lemma flat_map_of_map {A B C} (f : B → list C) (g : A → B) l :
  flat_map f (map g l) = flat_map (λ x, f (g x)) l.
Proof. induction l as [|x l IH]; simpl; [done|]. by rewrite IH. Qed.

Lemma blastChildren_erase g base :
  blastChildren (eraseGraph q g) (erase q base) = map (erase q) (blastChildren g base).
Proof.
  unfold blastChildren, childEdgesOf. cbn [g_edges g_nodes eraseGraph]. rewrite erase_id.
  apply filter_erase. intros n. by rewrite erase_id.
Qed.

Lemma blastRadiusInsights_erase g :
  blastRadiusInsights (eraseGraph q g) = blastRadiusInsights g.
Proof.
  unfold blastRadiusInsights. cbn [g_nodes eraseGraph].
  rewrite countType_erase, flat_map_of_map.
  apply flat_map_ext. intros base.
  rewrite blastChildren_erase, length_map.
  rewrite (filter_erase q) by (intros n; apply erase_hasStatus).
  rewrite length_map. unfold blastInsight. by rewrite erase_label, erase_id.
Qed.

Lemma hotspotInsights_erase g : hotspotInsights (eraseGraph q g) = hotspotInsights g.
Proof.
  unfold hotspotInsights.
  change (failByEnv (eraseGraph q g)) with (failByEnv g).
  apply flat_map_ext. intros [envId failCount].
  destruct (failCount <? 3)%nat; [done|]. cbn [g_nodes eraseGraph].
  rewrite (find_erase q) by (intros n; by rewrite erase_id).
  destruct (List.find _ (g_nodes g)) as [env|]; simpl; [|done].
  by rewrite erase_label.
Qed.

Lemma aggregateInsights_erase g reports clusters :
  aggregateInsights (eraseGraph q g) reports clusters = aggregateInsights g reports clusters.
Proof.
  unfold aggregateInsights, ruleInsights.
  rewrite blastRadiusInsights_erase, hotspotInsights_erase. reflexivity.
Qed.

Lemma mermaidIdOf_erase g id : mermaidIdOf (eraseGraph q g) id = mermaidIdOf g id.
Proof.
  unfold mermaidIdOf. cbn [g_nodes eraseGraph].
  by rewrite (existsb_erase q) by (intros n; by rewrite erase_id).
Qed.

Lemma mermaidLabel_erase n : mermaidLabel (erase q n) = mermaidLabel n.
Proof.
  unfold mermaidLabel. by rewrite erase_python, erase_health, erase_caps, erase_label.
Qed.

Lemma nodeLine_erase g n : nodeLine (eraseGraph q g) (erase q n) = nodeLine g n.
Proof.
  unfold nodeLine.
  by rewrite mermaidIdOf_erase, mermaidLabel_erase, erase_id, erase_type, erase_health.
Qed.

Lemma nodeById_erase g id : nodeById (eraseGraph q g) id = erase q <$> nodeById g id.
Proof.
  unfold nodeById. cbn [g_nodes eraseGraph]. rewrite <- map_rev.
  apply find_erase. intros n. by rewrite erase_id.
Qed.

Lemma subgraphLines_erase g ub base :
  subgraphLines (eraseGraph q g) ub (erase q base) = subgraphLines g ub base.
Proof.
  unfold subgraphLines. rewrite erase_id, erase_label, mermaidIdOf_erase.
  set (es := List.filter (λ e, String.eqb (e_from e) (n_id base)) ub).
  assert (Hatt : List.filter (λ n, bool_decide (n_type n = NVenv))
                   (omap (λ e, nodeById (eraseGraph q g) (e_to e)) es)
                 = map (erase q)
                     (List.filter (λ n, bool_decide (n_type n = NVenv))
                        (omap (λ e, nodeById g (e_to e)) es))).
  { rewrite <- (filter_erase q) by (intros n; by rewrite erase_type). f_equal.
    induction es as [|e es' IH]; simpl; [done|].
    rewrite nodeById_erase. destruct (nodeById g (e_to e)); simpl; [f_equal|]; exact IH. }
  rewrite Hatt.
  destruct (List.filter _ (omap (λ e, nodeById g (e_to e)) es)) as [|v vs]; [done|].
  cbn [map app]. f_equal. f_equal. rewrite erase_id, mermaidIdOf_erase. f_equal.
  rewrite map_map. f_equal. apply map_ext. intros n. by rewrite erase_id, mermaidIdOf_erase.
Qed.

Lemma renderMermaid_erase g s h :
  renderMermaid (eraseGraph q g) s h = renderMermaid g s h.
Proof.
  unfold renderMermaid. cbn [g_nodes g_edges eraseGraph].
  f_equal. f_equal. f_equal; [|f_equal; [|f_equal]].
  - rewrite map_map. apply map_ext. intros n. apply nodeLine_erase.
  - apply map_ext. intros e. unfold usesBaseLine. by rewrite !mermaidIdOf_erase.
  - destruct (default true s); [|done]. rewrite countType_erase, flat_map_of_map.
    apply flat_map_ext. intros base. apply subgraphLines_erase.
  - f_equal. apply flat_map_ext. intros e.
    unfold taskEdgeLines. by rewrite !mermaidIdOf_erase.
Qed.

End observers.

(** Two calls on one host give the same result up to the times [q] erases:
    the last-seen times of base nodes, and those of environment nodes
    unless every surviving report carries its own time. *)
Lemma mapRender_erased q W1 W2 reports runs options :
  sameHost W1 W2 → q NBase = true →
  (q NVenv = true
   ∨ ∀ r, r ∈ includedReports W1 reports options → is_Some (r_ranAt r)) →
  eraseResult q (mapRender W1 reports runs options)
  = eraseResult q (mapRender W2 reports runs options).
Proof.
  intros (Hp & Ha & Hh) HqB Hq.
  destruct (build_sim q W1 W2 Hp HqB reports runs options Hq) as (Hsim & Hpass & Hfail & Hcl).
  unfold mapRender. rewrite <- (includedReports_same W1 W2 Hp).
  destruct (build W1 reports runs options) as [[[b1 p1] f1] c1].
  destruct (build W2 reports runs options) as [[[b2 p2] f2] c2].
  simpl in Hsim, Hpass, Hfail, Hcl. subst p2 f2 c2.
  destruct Hsim as (Hn & He & _).
  assert (Hsum : summarizeCounts (nodes b1) = summarizeCounts (nodes b2)).
  { by rewrite <- (summarizeCounts_erase q (nodes b1)), Hn, summarizeCounts_erase. }
  assert (Hcount : ∀ t, length (countType t (nodes b1)) = length (countType t (nodes b2))).
  { intros t. by rewrite <- (countType_length_erase q t (nodes b1)), Hn,
                          countType_length_erase. }
  rewrite Hsum. destruct (summarizeCounts (nodes b2)) as [[h w] k].
  rewrite !Hcount, Ha, Hh, Hp, He.
  match goal with
  | |- eraseResult q {| graph := ?g1; mermaid := _; insights := _ |}
       = eraseResult q {| graph := ?g2; mermaid := _; insights := _ |} =>
    assert (Hg : eraseGraph q g1 = eraseGraph q g2)
      by (unfold eraseGraph; cbn [g_nodes g_edges g_version g_host g_summary]; by rewrite Hn);
    set (G1 := g1) in *; set (G2 := g2) in *
  end.
  unfold eraseResult. cbn [graph mermaid insights]. rewrite Hg. f_equal.
  - destruct (default FBoth (format options)); [done| |];
      by rewrite <- (renderMermaid_erase q G1), Hg, renderMermaid_erase.
  - by rewrite <- (aggregateInsights_erase q G1), Hg, aggregateInsights_erase.
Qed.

Lemma mapRender_topIssues W reports runs options :
  topIssues (g_summary (graph (mapRender W reports runs options)))
  = countTopIssues (includedReports W reports options)
                   (default 10%Z (maxTopIssues options)).
Proof.
  unfold mapRender.
  destruct (build _ _ _ _) as [[[b passed] failed] clusters].
  by destruct (summarizeCounts _) as [[h w] k].
Qed.

Lemma ids_erase q ns : map n_id (map (erase q) ns) = map n_id ns.
Proof. rewrite map_map. apply map_ext. intros n. apply erase_id. Qed.

(** C1. Two calls with the same reports, runs and options, on the same
    platform and whatever the clock reads, give the same node ids and the
    same edge ids, in the same order, the same top-issues list, the same
    clusters in the same order and the same order of task nodes. *)
Theorem deterministic_identity W1 W2 reports runs options :
  platform W1 = platform W2 →
  map n_id (g_nodes (graph (mapRender W1 reports runs options)))
  = map n_id (g_nodes (graph (mapRender W2 reports runs options)))
  ∧ map e_id (g_edges (graph (mapRender W1 reports runs options)))
    = map e_id (g_edges (graph (mapRender W2 reports runs options)))
  ∧ topIssues (g_summary (graph (mapRender W1 reports runs options)))
    = topIssues (g_summary (graph (mapRender W2 reports runs options)))
  ∧ (build W1 reports runs options).2 = (build W2 reports runs options).2
  ∧ map n_id (countType NTask (g_nodes (graph (mapRender W1 reports runs options))))
    = map n_id (countType NTask (g_nodes (graph (mapRender W2 reports runs options)))).
Proof.
  intros Hp. rewrite !mapRender_nodes, !mapRender_edges, !mapRender_topIssues.
  destruct (build_sim allNodes W1 W2 Hp eq_refl reports runs options (or_introl eq_refl))
    as ((Hn & He & _) & _ & _ & Hcl).
  split; [|split; [|split; [|split]]].
  - by rewrite <- (ids_erase allNodes), Hn, ids_erase.
  - by rewrite He.
  - by rewrite (includedReports_same W1 W2 Hp).
  - exact Hcl.
  - rewrite <- (ids_erase allNodes (countType NTask _)), <- countType_erase, Hn.
    by rewrite countType_erase, ids_erase.
Qed.

Lemma deterministic_identity_witness :
  map n_id (g_nodes (graph (mapRender Ex.world Ex.threeUnderOneBase [Ex.lintRun] Ex.options)))
  = map n_id (g_nodes (graph (mapRender Ex.laterWorld Ex.threeUnderOneBase [Ex.lintRun]
                                Ex.options))).
Proof.
  apply (proj1 (deterministic_identity Ex.world Ex.laterWorld Ex.threeUnderOneBase
                  [Ex.lintRun] Ex.options eq_refl)).
Defined.

(** ** What the clock reaches *)

Lemma node_of_times n1 n2 :
  erase allNodes n1 = erase allNodes n2 → n_lastSeenAt n1 = n_lastSeenAt n2 → n1 = n2.
Proof.
  destruct n1, n2. unfold erase, allNodes. simpl. intros [= -> -> -> -> -> -> -> ->] ->. done.
Qed.

Lemma map_eq_pointwise {A B} (f : A → B) l k :
  map f l = map f k → Forall2 (λ x y, f x = f y) l k.
Proof.
  revert k. induction l as [|a l IH]; intros [|b k]; cbn [map]; intros H;
    try discriminate H; constructor.
  - exact (f_equal (λ l, match l with x :: _ => x | [] => f a end) H).
  - apply IH. exact (f_equal (λ l, match l with _ :: t => t | [] => [] end) H).
Qed.

Lemma eraseClock_of_times f A B :
  map (erase allNodes) A = map (erase allNodes) B →
  keptTimes f A = keptTimes f B →
  eraseClock f A = eraseClock f B.
Proof.
  intros H. apply map_eq_pointwise in H. revert f.
  induction H as [|a b A B Hab _ IH]; intros f; [done|].
  assert (Ht : n_type a = n_type b).
  { apply (f_equal n_type) in Hab. by rewrite !erase_type in Hab. }
  cbn [eraseClock keptTimes]. rewrite <- Ht. destruct (n_type a) eqn:Ha.
  - destruct f as [|[] f]; cbn [app].
    + intros Hk. injection Hk as Hl Hk.
      by rewrite (node_of_times a b Hab Hl), (IH [] Hk).
    + intros Hk. by rewrite Hab, (IH f Hk).
    + intros Hk. injection Hk as Hl Hk.
      by rewrite (node_of_times a b Hab Hl), (IH f Hk).
  - intros Hk. by rewrite Hab, (IH f Hk).
  - intros Hk. injection Hk as Hl Hk.
    destruct f; by rewrite (node_of_times a b Hab Hl), (IH _ Hk).
  - intros Hk. injection Hk as Hl Hk.
    destruct f; by rewrite (node_of_times a b Hab Hl), (IH _ Hk).
Qed.

Lemma keptTimes_app f1 f2 A B :
  length (countType NVenv A) = length f1 →
  keptTimes (f1 ++ f2) (A ++ B) = keptTimes f1 A ++ keptTimes f2 B.
Proof.
  revert f1. induction A as [|a A IH]; intros f1; simpl.
  - intros Hl. by destruct f1.
  - unfold countType in *. simpl.
    destruct (n_type a) eqn:Ha; simpl.
    + destruct f1 as [|t f1]; simpl; [done|]. intros [= Hl].
      rewrite (IH f1 Hl). by rewrite app_assoc.
    + intros Hl. by apply IH.
    + intros Hl. rewrite (IH f1 Hl). by destruct f1.
    + intros Hl. rewrite (IH f1 Hl). by destruct f1.
Qed.

Lemma keptTimes_pointwise f A B :
  Forall2 (λ a b, n_type a = n_type b ∧ n_lastSeenAt a = n_lastSeenAt b) A B →
  keptTimes f A = keptTimes f B.
Proof.
  intros H. revert f. induction H as [|a b A B [Ht Hl] _ IH]; intros f; simpl; [done|].
  rewrite <- Ht, Hl. destruct (n_type a), f as [|[] f]; by rewrite ?IH.
Qed.

Lemma countType_pointwise t A B :
  Forall2 (λ a b, n_type a = n_type b ∧ n_lastSeenAt a = n_lastSeenAt b) A B →
  length (countType t A) = length (countType t B).
Proof.
  induction 1 as [|a b A B [Ht Hl] _ IH]; simpl; [done|]. unfold countType in *. simpl.
  rewrite <- Ht. destruct (bool_decide (n_type a = t)); simpl; by rewrite IH.
Qed.

Lemma rollup_times E ns :
  Forall2 (λ a b, n_type a = n_type b ∧ n_lastSeenAt a = n_lastSeenAt b) (rollup E ns) ns.
Proof.
  apply Forall2_flip. eapply Forall2_impl; [apply rollup_pointwise|].
  intros a b [->|(_ & h & ->)]; by split.
Qed.

(** The report part, in one world. *)
Lemma envStep_appends W b r :
  ∃ D, nodes (envStep W b r) = nodes b ++ D
       ∧ length (countType NVenv D) = 1
       ∧ map n_path (countType NVenv D) = [Some (r_pythonPath r)]
       ∧ keptTimes [bool_decide (r_ranAt r = None)] D
         = match r_ranAt r with Some t => [Some t] | None => [] end.
Proof.
  unfold envStep, getOrCreateBaseNode.
  destruct (r_ranAt r) as [t|]; cbn [nodes baseIdByKey];
    destruct (baseIdByKey b !! normPath W (deriveBaseKey r)); cbn [nodes].
  - eexists. split; [reflexivity|]. by repeat split.
  - eexists. split; [by rewrite <- app_assoc|]. by repeat split.
  - eexists. split; [reflexivity|]. by repeat split.
  - eexists. split; [by rewrite <- app_assoc|]. by repeat split.
Qed.

Lemma envSteps_append W rs b :
  ∃ D, nodes (fold_left (envStep W) rs b) = nodes b ++ D
       ∧ length (countType NVenv D) = length rs
       ∧ map n_path (countType NVenv D) = map (λ r, Some (r_pythonPath r)) rs
       ∧ keptTimes (timelessReports rs) D
         = flat_map (λ r, match r_ranAt r with Some t => [Some t] | None => [] end) rs.
Proof.
  revert b. induction rs as [|r rs IH]; intros b; cbn [fold_left].
  - exists []. by rewrite app_nil_r.
  - destruct (envStep_appends W b r) as (D1 & H1 & L1 & P1 & K1).
    destruct (IH (envStep W b r)) as (D2 & H2 & L2 & P2 & K2).
    exists (D1 ++ D2). rewrite H2, H1, <- app_assoc. split; [done|].
    unfold countType in *. rewrite List.filter_app, length_app, map_app, P1, P2, L1, L2.
    split; [done|]. split; [done|].
    change (timelessReports (r :: rs))
      with ([bool_decide (r_ranAt r = None)] ++ timelessReports rs).
    rewrite keptTimes_app by done. cbn [flat_map]. by rewrite K1, K2.
Qed.

(** What the task part appends is the same in both worlds. *)
Section frames.
Context (W1 W2 : World) (Hplatform : platform W1 = platform W2).

Lemma ensureEnv_frame b1 b2 envPy n :
  sim allNodes b1 b2 →
  ∃ D, nodes (ensureEnv b1 envPy n) = nodes b1 ++ D
       ∧ nodes (ensureEnv b2 envPy n) = nodes b2 ++ D.
Proof.
  intros Hsim. pose proof (sim_index allNodes b1 b2 (n_id n) Hsim) as Hi.
  unfold ensureEnv.
  destruct (nodeIndex b1 !! n_id n) as [x|] eqn:H1,
           (nodeIndex b2 !! n_id n) as [y|] eqn:H2.
  - exists []. by rewrite !app_nil_r.
  - destruct (proj1 Hi) as [z Hz]; [by eexists|discriminate Hz].
  - destruct (proj2 Hi) as [z Hz]; [by eexists|discriminate Hz].
  - by exists [n].
Qed.

Lemma fold_frame {A} (s1 s2 : Builder → A → Builder) l :
  (∀ b1 b2 x, sim allNodes b1 b2 →
     sim allNodes (s1 b1 x) (s2 b2 x)
     ∧ ∃ D, nodes (s1 b1 x) = nodes b1 ++ D ∧ nodes (s2 b2 x) = nodes b2 ++ D) →
  ∀ b1 b2, sim allNodes b1 b2 →
    ∃ D, nodes (fold_left s1 l b1) = nodes b1 ++ D
         ∧ nodes (fold_left s2 l b2) = nodes b2 ++ D.
Proof.
  intros Hstep. induction l as [|x l IH]; intros b1 b2 Hsim; cbn [fold_left].
  - exists []. by rewrite !app_nil_r.
  - destruct (Hstep b1 b2 x Hsim) as (Hsim' & D1 & E1 & E2).
    destruct (IH _ _ Hsim') as (D2 & F1 & F2).
    exists (D1 ++ D2). by rewrite F1, F2, E1, E2, <- !app_assoc.
Qed.

Lemma clusterEnvStep_frame c taskId b1 b2 kv :
  sim allNodes b1 b2 →
  ∃ D, nodes (clusterEnvStep W1 c taskId b1 kv) = nodes b1 ++ D
       ∧ nodes (clusterEnvStep W2 c taskId b2 kv) = nodes b2 ++ D.
Proof.
  intros Hsim. destruct kv as [pyPath count]. unfold clusterEnvStep.
  rewrite <- (normPath_same W1 W2 Hplatform), <- (envIdFor_sim allNodes b1 b2 _ Hsim).
  set (n := missingEnvNode _ pyPath _ _).
  destruct (ensureEnv_frame b1 b2 (normPath W1 pyPath) n Hsim) as (D & E1 & E2).
  exists D. by destruct (0 <? default 0 (obj_get pyPath (c_envFailCounts c)))%nat.
Qed.

Lemma clusterTaskStep_frame b1 b2 c :
  sim allNodes b1 b2 →
  ∃ D, nodes (clusterTaskStep W1 b1 c) = nodes b1 ++ D
       ∧ nodes (clusterTaskStep W2 b2 c) = nodes b2 ++ D.
Proof.
  intros Hsim. unfold clusterTaskStep.
  set (n := clusterTaskNode c _).
  assert (Hsim' : sim allNodes (pushIndexed b1 n) (pushIndexed b2 n))
    by (by apply pushIndexed_sim).
  destruct (fold_frame (clusterEnvStep W1 c ("task:" +:+ sigId (c_sig c)))
              (clusterEnvStep W2 c ("task:" +:+ sigId (c_sig c))) (c_envCounts c))
    with (b1 := pushIndexed b1 n) (b2 := pushIndexed b2 n) as (D & E1 & E2); [|done|].
  - intros b1' b2' kv Hs. split; [by apply clusterEnvStep_sim|by apply clusterEnvStep_frame].
  - exists ([n] ++ D). rewrite E1, E2. cbn [pushIndexed nodes]. by rewrite <- !app_assoc.
Qed.

Lemma runTaskStep_frame b1 b2 run :
  sim allNodes b1 b2 →
  ∃ D, nodes (runTaskStep W1 b1 run) = nodes b1 ++ D
       ∧ nodes (runTaskStep W2 b2 run) = nodes b2 ++ D.
Proof.
  intros Hsim. unfold runTaskStep.
  set (taskId := stableId "task" _).
  pose proof (pushIndexed_sim allNodes b1 b2 _ _ Hsim
                (eq_refl (erase allNodes (runTaskNode run taskId)))) as H0.
  rewrite <- (normPath_same W1 W2 Hplatform), <- (envIdFor_sim allNodes _ _ _ H0).
  set (n := missingEnvNode _ _ _ _).
  destruct (ensureEnv_frame _ _ (normPath W1 (s_pythonPath (selected run))) n H0)
    as (D & E1 & E2).
  exists ([runTaskNode run taskId] ++ D).
  destruct (o_ok (outcome run)); cbn [pushEdge nodes]; rewrite E1, E2;
    cbn [pushIndexed nodes]; by rewrite <- !app_assoc.
Qed.

Lemma taskPhase_frame mode runs b1 b2 :
  sim allNodes b1 b2 →
  ∃ D, nodes (taskPhase W1 mode runs b1).1.1.1 = nodes b1 ++ D
       ∧ nodes (taskPhase W2 mode runs b2).1.1.1 = nodes b2 ++ D.
Proof.
  intros Hsim. unfold taskPhase.
  destruct (negb _ && _); [|exists []; by rewrite !app_nil_r].
  destruct (bool_decide (mode = TMClustered)); cbn [fst].
  - apply fold_frame; [|done]. intros b1' b2' c Hs.
    split; [by apply clusterTaskStep_sim|by apply clusterTaskStep_frame].
  - apply fold_frame; [|done]. intros b1' b2' r Hs.
    split; [by apply runTaskStep_sim|by apply runTaskStep_frame].
Qed.

(** The last-seen times that are kept are the same in both worlds. *)
Lemma build_keptTimes reports runs options :
  keptTimes (timelessReports (includedReports W1 reports options))
            (nodes (build W1 reports runs options).1.1.1)
  = keptTimes (timelessReports (includedReports W1 reports options))
              (nodes (build W2 reports runs options).1.1.1).
Proof.
  unfold build. rewrite <- (includedReports_same W1 W2 Hplatform).
  set (included := includedReports W1 reports options).
  assert (Hsim : sim allNodes (reportPhase W1 included) (reportPhase W2 included))
    by (apply reportPhase_sim; [done|done|by left]).
  destruct (taskPhase_frame (default TMClustered (taskMode options)) runs _ _ Hsim)
    as (D & -> & ->).
  assert (Hrep : ∀ W,
            length (countType NVenv (nodes (reportPhase W included))) = length included
            ∧ keptTimes (timelessReports included) (nodes (reportPhase W included))
              = flat_map (λ r, match r_ranAt r with Some t => [Some t] | None => [] end)
                         included).
  { intros W. unfold reportPhase. cbn [nodes].
    destruct (envSteps_append W included emptyBuilder) as (D0 & E & L & _ & K).
    cbn [emptyBuilder nodes app] in E.
    pose proof (rollup_times (edges (fold_left (envStep W) included emptyBuilder))
                  (nodes (fold_left (envStep W) included emptyBuilder))) as Hr.
    rewrite (countType_pointwise _ _ _ Hr), (keptTimes_pointwise _ _ _ Hr), E. done. }
  destruct (Hrep W1) as [L1 K1], (Hrep W2) as [L2 K2].
  rewrite <- (app_nil_r (timelessReports included)).
  rewrite !keptTimes_app by (by rewrite ?L1, ?L2; unfold timelessReports; rewrite length_map).
  by rewrite K1, K2.
Qed.

End frames.

Lemma rollup_paths E ns :
  map n_path (countType NVenv (rollup E ns)) = map n_path (countType NVenv ns).
Proof.
  pose proof (rollup_pointwise E ns) as H. unfold countType.
  induction H as [|a b A B Hab _ IH]; simpl; [done|].
  destruct Hab as [->|(Ha & h & ->)].
  - destruct (bool_decide (n_type a = NVenv)); simpl; by rewrite IH.
  - cbn [setHealth n_type]. rewrite Ha. simpl. exact IH.
Qed.

(** The environment nodes of the graph start with the nodes of the
    surviving reports, in their order. *)
Lemma build_report_nodes W reports runs options :
  map n_path (take (length (includedReports W reports options))
                   (countType NVenv (nodes (build W reports runs options).1.1.1)))
  = map (λ r, Some (r_pythonPath r)) (includedReports W reports options).
Proof.
  unfold build. set (included := includedReports W reports options).
  destruct (taskPhase_frame W W eq_refl (default TMClustered (taskMode options)) runs
              (reportPhase W included) (reportPhase W included) (sim_refl _ _))
    as (D & -> & _).
  unfold reportPhase. cbn [nodes].
  destruct (envSteps_append W included emptyBuilder) as (D0 & E & L & P & _).
  cbn [emptyBuilder nodes app] in E.
  assert (Hlen : length (countType NVenv
                   (rollup (edges (fold_left (envStep W) included emptyBuilder))
                           (nodes (fold_left (envStep W) included emptyBuilder))))
                 = length included).
  { rewrite <- (length_map n_path), rollup_paths, E, length_map. exact L. }
  unfold countType in *. rewrite List.filter_app, take_app_length' by (symmetry; exact Hlen).
  fold (countType NVenv (rollup (edges (fold_left (envStep W) included emptyBuilder))
                           (nodes (fold_left (envStep W) included emptyBuilder)))).
  rewrite rollup_paths, E. exact P.
Qed.

(** C2, as the code has it. Two calls with the same reports, runs and
    options on the same host agree in every field of the result (graph,
    diagram and insights) except the times read from the wall clock: the
    graph's [generatedAt], the [lastSeenAt] of every base node, and the
    [lastSeenAt] of the environment node of every surviving report that
    carries no [ranAt]. The environment nodes of the surviving reports are
    the first environment nodes of the graph, in the order of the reports;
    every other node (the environment node of a report with its [ranAt],
    an environment node made for a run, a task node) has the same
    [lastSeenAt] in both results. *)
Theorem variance_only_in_times W1 W2 reports runs options :
  sameHost W1 W2 →
  withoutClock (timelessReports (includedReports W1 reports options))
               (mapRender W1 reports runs options)
  = withoutClock (timelessReports (includedReports W1 reports options))
                 (mapRender W2 reports runs options)
  ∧ map n_path (take (length (includedReports W1 reports options))
                     (countType NVenv (g_nodes (graph (mapRender W1 reports runs options)))))
    = map (λ r, Some (r_pythonPath r)) (includedReports W1 reports options).
Proof.
  intros Hhost. split; [|rewrite mapRender_nodes; apply build_report_nodes].
  pose proof (mapRender_erased allNodes W1 W2 reports runs options Hhost eq_refl
                (or_introl eq_refl)) as F.
  pose proof (build_keptTimes W1 W2 (proj1 Hhost) reports runs options) as K.
  rewrite <- !mapRender_nodes in K.
  set (res1 := mapRender W1 reports runs options) in *.
  set (res2 := mapRender W2 reports runs options) in *.
  assert (Hv : g_version (graph res1) = g_version (graph res2))
    by exact (f_equal (λ r, g_version (graph r)) F).
  assert (Hh : g_host (graph res1) = g_host (graph res2))
    by exact (f_equal (λ r, g_host (graph r)) F).
  assert (Hs : g_summary (graph res1) = g_summary (graph res2))
    by exact (f_equal (λ r, g_summary (graph r)) F).
  assert (He : g_edges (graph res1) = g_edges (graph res2))
    by exact (f_equal (λ r, g_edges (graph r)) F).
  assert (Hm : mermaid res1 = mermaid res2) by exact (f_equal mermaid F).
  assert (Hi : insights res1 = insights res2) by exact (f_equal insights F).
  assert (Hn : map (erase allNodes) (g_nodes (graph res1))
               = map (erase allNodes) (g_nodes (graph res2)))
    by exact (f_equal (λ r, g_nodes (graph r)) F).
  unfold withoutClock. rewrite Hv, Hh, Hs, He, Hm, Hi.
  by rewrite (eraseClock_of_times _ _ _ Hn K).
Qed.

Lemma variance_only_in_times_witness :
  (withoutClock [false; true] (mapRender Ex.world Ex2.reports [Ex.lintRun] Ex.options)
   = withoutClock [false; true] (mapRender Ex.laterWorld Ex2.reports [Ex.lintRun] Ex.options)
   ∧ map n_path (take 2 (countType NVenv
                           (g_nodes (graph (mapRender Ex.world Ex2.reports [Ex.lintRun]
                                              Ex.options)))))
     = [Some "/p1/.venv/bin/python"; Some "/p4/.venv/bin/python"])
  ∧ map n_lastSeenAt
        (eraseClock [false; true]
           (g_nodes (graph (mapRender Ex.world Ex2.reports [Ex.lintRun] Ex.options))))
    = [Some "2024-01-01T00:00:00Z"; None; None;
       Some "2024-02-01T00:00:00Z"; Some "2024-02-01T00:00:00Z"].
Proof.
  split; [|by vm_compute].
  exact (variance_only_in_times Ex.world Ex.laterWorld Ex2.reports [Ex.lintRun] Ex.options
           (conj eq_refl (conj eq_refl eq_refl))).
Defined.

(** One hour later the same call gives another [lastSeenAt] to the base
    node: the results differ in more than [generatedAt]. *)
Lemma sole_variance_counterexample :
  withoutGeneratedAt (mapRender Ex.world Ex.threeUnderOneBase [] Ex.options)
  ≠ withoutGeneratedAt (mapRender Ex.laterWorld Ex.threeUnderOneBase [] Ex.options).
Proof.
  intros H.
  apply (f_equal (λ res, n_lastSeenAt (default fallbackNode (g_nodes (graph res) !! 1)))) in H.
  vm_compute in H. discriminate H.
Qed.

(** ** More of taskCluster.ts *)

Lemma fold_left_prefix {A B} (f : B → A → B) (I : list A → B → Prop) l b :
  I [] b → (∀ pre x b, I pre b → I (pre ++ [x]) (f b x)) → I l (fold_left f l b).
Proof.
  intros H0 Hs. induction l as [|x l IH] using rev_ind; [done|].
  rewrite fold_left_app. simpl. by apply Hs.
Qed.

Lemma obj_get_none_keys {V} k (m : list (string * V)) :
  obj_get k m = None → k ∉ map fst m.
Proof.
  induction m as [|[k' v'] m IH]; simpl; [intros _; apply not_elem_of_nil|].
  destruct (String.eqb k' k) eqn:Hk; [done|]. intros Hnone.
  apply not_elem_of_cons. split; [|by apply IH].
  apply String.eqb_neq in Hk. congruence.
Qed.

Lemma obj_replace_keys {V} k (v : V) m : map fst (obj_replace k v m) = map fst m.
Proof.
  induction m as [|[k' v'] m IH]; simpl; [done|].
  destruct (String.eqb k' k) eqn:Hk; simpl; [|by rewrite IH].
  by apply String.eqb_eq in Hk as ->.
Qed.

Lemma map_set_keys {V} k (v : V) m :
  map fst (map_set k v m)
  = match obj_get k m with Some _ => map fst m | None => map fst m ++ [k] end.
Proof.
  unfold map_set. destruct (obj_get k m); [apply obj_replace_keys|].
  by rewrite map_app.
Qed.

Lemma map_set_NoDup {V} k (v : V) m : NoDup (map fst m) → NoDup (map fst (map_set k v m)).
Proof.
  intros Hnd. rewrite map_set_keys. destruct (obj_get k m) eqn:Hk; [done|].
  apply NoDup_app. split; [done|]. split; [|apply NoDup_singleton].
  intros x Hx Hx'. apply list_elem_of_singleton in Hx' as ->.
  by apply (obj_get_none_keys _ _ Hk).
Qed.

Lemma elem_obj_get {V} k (v : V) m : NoDup (map fst m) → (k, v) ∈ m → obj_get k m = Some v.
Proof.
  induction m as [|[k' v'] m IH]; simpl; intros Hnd Hin; [by apply elem_of_nil in Hin|].
  apply NoDup_cons in Hnd as [Hk' Hnd].
  apply elem_of_cons in Hin as [[= -> ->]|Hin]; [by rewrite String.eqb_refl|].
  destruct (String.eqb k' k) eqn:Hk; [|by apply IH].
  apply String.eqb_eq in Hk as ->. destruct Hk'.
  apply elem_of_map. by exists (k, v).
Qed.

Lemma sum_obj_replace {V} (f : V → nat) k v m old :
  obj_get k m = Some old →
  sum_list_with f (map snd (obj_replace k v m)) + f old
  = sum_list_with f (map snd m) + f v.
Proof.
  induction m as [|[k' v'] m IH]; simpl; [done|].
  destruct (String.eqb k' k); simpl.
  - intros [= ->]. lia.
  - intros H. specialize (IH H). lia.
Qed.

Lemma sum_map_set {V} (f : V → nat) k v m :
  sum_list_with f (map snd (map_set k v m)) + from_option f 0 (obj_get k m)
  = sum_list_with f (map snd m) + f v.
Proof.
  unfold map_set. destruct (obj_get k m) as [old|] eqn:Hk; simpl.
  - by apply sum_obj_replace.
  - rewrite map_app, sum_list_with_app. simpl. lia.
Qed.

(** *** What the loop keeps true *)

Lemma elem_of_obj_replace {V} k (v : V) o x :
  x ∈ obj_replace k v o → x = (k, v) ∨ x ∈ o.
Proof.
  induction o as [|[k' v'] o IH]; simpl; [by right|].
  destruct (String.eqb k' k).
  - intros H. apply elem_of_cons in H as [->|H]; [by left|]. right. by right.
  - intros H. apply elem_of_cons in H as [->|H]; [right; by left|].
    destruct (IH H) as [->|H']; [by left|]. right. by right.
Qed.

Lemma elem_of_obj_add_index {V} n k (v : V) o x :
  x ∈ obj_add_index n k v o → x = (k, v) ∨ x ∈ o.
Proof.
  induction o as [|[k' v'] o IH]; simpl.
  - intros H. apply list_elem_of_singleton in H. by left.
  - destruct (array_index k') as [n'|]; [destruct (n' <? n)%N|].
    + intros H. apply elem_of_cons in H as [->|H]; [right; by left|].
      destruct (IH H) as [->|H']; [by left|]. right. by right.
    + intros H. apply elem_of_cons in H as [->|H]; [by left|by right].
    + intros H. apply elem_of_cons in H as [->|H]; [by left|by right].
Qed.

Lemma elem_of_obj_set {V} k (v : V) o x : x ∈ obj_set k v o → x = (k, v) ∨ x ∈ o.
Proof.
  unfold obj_set. destruct (obj_get k o); [apply elem_of_obj_replace|].
  destruct (array_index k); [apply elem_of_obj_add_index|].
  intros H. apply elem_of_app in H as [H|H]; [by right|].
  apply list_elem_of_singleton in H. by left.
Qed.

Lemma elem_of_bump k o x :
  x ∈ bump k o → x = (k, default 0 (obj_get k o) + 1) ∨ x ∈ o.
Proof.
  unfold bump. destruct (String.eqb k "__proto__"); [by right|]. apply elem_of_obj_set.
Qed.

Lemma obj_get_bump k k' o :
  obj_get k' (bump k o)
  = if String.eqb k "__proto__" then obj_get k' o
    else if String.eqb k k' then Some (default 0 (obj_get k o) + 1) else obj_get k' o.
Proof.
  unfold bump. destruct (String.eqb k "__proto__"); [done|]. apply obj_get_set.
Qed.

Lemma counted_new sig r : counted (newCluster sig r).
Proof. unfold counted. simpl. repeat split; by try constructor. Qed.

Lemma bumped_within py (counts part : jsobj nat) :
  Forall (λ kv : string * nat,
            1 ≤ kv.2 ∧ ∃ t, obj_get kv.1 counts = Some t ∧ kv.2 ≤ t) part →
  Forall (λ kv : string * nat,
            1 ≤ kv.2 ∧ ∃ t, obj_get kv.1 (bump py counts) = Some t ∧ kv.2 ≤ t)
         (bump py part).
Proof.
  intros Hall. apply Forall_forall. intros [k n] Hin. simpl.
  rewrite obj_get_bump.
  destruct (String.eqb py "__proto__") eqn:Hp.
  - unfold bump in Hin. rewrite Hp in Hin.
    by apply (proj1 (Forall_forall _ _) Hall (k, n)).
  - apply elem_of_bump in Hin as [[= -> ->]|Hin].
    + rewrite String.eqb_refl. split; [lia|].
      eexists. split; [done|].
      destruct (obj_get py part) as [n|] eqn:Hn; simpl; [|lia].
      apply obj_get_elem in Hn.
      destruct (proj1 (Forall_forall _ _) Hall _ Hn) as (_ & t & Ht & Hle).
      simpl in *. rewrite Ht. simpl. lia.
    + destruct (proj1 (Forall_forall _ _) Hall _ Hin) as (H1 & t & Ht & Hle).
      simpl in *. split; [done|].
      destruct (String.eqb py k) eqn:Hk.
      * apply String.eqb_eq in Hk as ->. rewrite Ht. simpl.
        eexists. split; [done|]. lia.
      * by exists t.
Qed.

Lemma kept_within py (counts part : jsobj nat) :
  Forall (λ kv : string * nat,
            1 ≤ kv.2 ∧ ∃ t, obj_get kv.1 counts = Some t ∧ kv.2 ≤ t) part →
  Forall (λ kv : string * nat,
            1 ≤ kv.2 ∧ ∃ t, obj_get kv.1 (bump py counts) = Some t ∧ kv.2 ≤ t) part.
Proof.
  intros Hall. apply Forall_forall. intros [k n] Hin. simpl.
  destruct (proj1 (Forall_forall _ _) Hall _ Hin) as (H1 & t & Ht & Hle).
  simpl in *. split; [done|]. rewrite obj_get_bump.
  destruct (String.eqb py "__proto__"); [by exists t|].
  destruct (String.eqb py k) eqn:Hk; [|by exists t].
  apply String.eqb_eq in Hk as ->. rewrite Ht. simpl. eexists. split; [done|]. lia.
Qed.

Lemma counted_foldRun c r : counted c → counted (foldRun c r).
Proof.
  intros (Hruns & Hdom & Hok & Hfail & Hfc & Hef & Heo).
  unfold counted. cbn [foldRun c_runs c_ok c_fail c_dominantFailure c_envOkCounts
                       c_envFailCounts c_failureCounts c_envCounts].
  destruct (o_ok (outcome r)).
  - split; [lia|]. split; [done|]. split; [lia|]. split; [done|]. split; [done|].
    split; [by apply kept_within|by apply bumped_within].
  - split; [lia|]. split; [done|]. split; [done|]. split; [lia|]. split.
    + apply Forall_forall. intros kv Hin.
      apply elem_of_bump in Hin as [->|Hin]; [simpl; lia|].
      by apply (proj1 (Forall_forall _ _) Hfc).
    + split; [by apply bumped_within|by apply kept_within].
Qed.


Lemma runsOf_snoc k pre r :
  runsOf k (pre ++ [r])
  = runsOf k pre ++ (if String.eqb (sigId (signatureForRun r)) k then [r] else []).
Proof.
  unfold runsOf. rewrite List.filter_app. simpl.
  by destruct (String.eqb (sigId (signatureForRun r)) k).
Qed.

Lemma string_ltb_irrefl a : String.ltb a a = false.
Proof.
  destruct (String.ltb a a) eqn:H; [|done]. by rewrite (string_ltb_asym _ _ H) in H.
Qed.

Lemma string_ltb_below a b c :
  String.ltb b a = false → String.ltb b c = true → String.ltb c a = false.
Proof.
  intros Hab Hbc. apply string_ltb_false. apply string_ltb_false in Hab.
  apply (string_compare_trans a b c); [done|].
  apply string_ltb_false. by apply string_ltb_asym.
Qed.

Lemma clustersOf_nil : clustersOf [] [].
Proof.
  unfold clustersOf. simpl. split; [constructor|]. split; [done|]. by repeat split.
Qed.

Lemma clustersOf_step pre m r :
  clustersOf pre m → clustersOf (pre ++ [r]) (clusterStep m r).
Proof.
  intros (Hnd & Hget & Hnone & Hruns & Hok & Hfail).
  set (key := sigId (signatureForRun r)).
  set (c0 := default (newCluster (signatureForRun r) r) (obj_get key m)).
  assert (Hstep : clusterStep m r = map_set key (foldRun c0 r) m) by reflexivity.
  rewrite Hstep. clear Hstep.
  assert (Hc0 : sigId (c_sig c0) = key ∧ counted c0
                ∧ c_runs c0 = length (runsOf key pre)
                ∧ c_ok c0 = length (List.filter passed (runsOf key pre))
                ∧ c_fail c0 = length (List.filter failed (runsOf key pre))
                ∧ (∀ r', r' ∈ runsOf key pre → String.ltb (c_lastAt c0) (at_ r') = false)
                ∧ ((∃ r', r' ∈ runsOf key pre ∧ at_ r' = c_lastAt c0)
                   ∨ c_lastAt c0 = at_ r)
                ∧ from_option c_runs 0 (obj_get key m) = c_runs c0
                ∧ from_option c_ok 0 (obj_get key m) = c_ok c0
                ∧ from_option c_fail 0 (obj_get key m) = c_fail c0).
  { unfold c0. destruct (obj_get key m) as [c|] eqn:Hk; simpl.
    - destruct (Hget key c Hk) as (H1 & H2 & H3 & H4 & H5 & H6 & H7).
      split_and!; first [done | by left].
    - rewrite (Hnone key Hk). simpl.
      split_and!;
        first [done | apply counted_new | by right
              | intros r' Hr'; by apply elem_of_nil in Hr']. }
  destruct Hc0 as (Hsig & Hcnt & Hr0 & Ho0 & Hf0 & Hlast & Hex & Hfr & Hfo & Hff).
  split; [by apply map_set_NoDup|]. split; [|split].
  - intros k c. rewrite map_get_set, runsOf_snoc. fold key.
    destruct (String.eqb key k) eqn:Hk.
    + apply String.eqb_eq in Hk as <-. intros [= <-].
      rewrite !List.filter_app, !length_app. cbn [foldRun c_sig c_runs c_ok c_fail c_lastAt].
      split; [done|]. split; [by apply counted_foldRun|].
      rewrite Hr0, Ho0, Hf0. cbn [List.filter length].
      change (passed r) with (o_ok (outcome r)).
      change (failed r) with (negb (o_ok (outcome r))).
      split; [lia|].
      split; [destruct (o_ok (outcome r)); cbn [negb length]; lia|].
      split; [destruct (o_ok (outcome r)); cbn [negb length]; lia|].
      split.
      * intros r' Hr'. apply elem_of_app in Hr' as [Hr'|Hr'].
        -- destruct (String.ltb (c_lastAt c0) (at_ r)) eqn:Hlt; [|by apply Hlast].
           apply (string_ltb_below _ (c_lastAt c0)); [by apply Hlast|done].
        -- apply list_elem_of_singleton in Hr' as ->.
           destruct (String.ltb (c_lastAt c0) (at_ r)) eqn:Hlt; [|done].
           apply string_ltb_irrefl.
      * destruct (String.ltb (c_lastAt c0) (at_ r)) eqn:Hlt.
        -- exists r. split; [|done]. apply elem_of_app. right. by left.
        -- destruct Hex as [(r' & Hr' & Hat)|Hat].
           ++ exists r'. split; [|done]. apply elem_of_app. by left.
           ++ exists r. split; [|done]. apply elem_of_app. right. by left.
    + intros Hc. rewrite app_nil_r. by apply Hget.
  - intros k. rewrite map_get_set, runsOf_snoc. fold key.
    destruct (String.eqb key k); [done|]. intros Hk. rewrite app_nil_r. by apply Hnone.
  - pose proof (sum_map_set c_runs key (foldRun c0 r) m) as S1.
    pose proof (sum_map_set c_ok key (foldRun c0 r) m) as S2.
    pose proof (sum_map_set c_fail key (foldRun c0 r) m) as S3.
    rewrite Hfr in S1. rewrite Hfo in S2. rewrite Hff in S3.
    cbn [foldRun c_runs c_ok c_fail] in S1, S2, S3.
    rewrite !List.filter_app, !length_app. cbn [List.filter length].
    change (passed r) with (o_ok (outcome r)).
    change (failed r) with (negb (o_ok (outcome r))).
    destruct (o_ok (outcome r)); cbn [negb length]; lia.
Qed.

Lemma clusterSteps_state runs : clustersOf runs (fold_left clusterStep runs []).
Proof.
  apply (fold_left_prefix clusterStep clustersOf); [apply clustersOf_nil|].
  intros pre x b. apply clustersOf_step.
Qed.

Lemma clusterRuns_perm runs :
  clusterRuns runs ≡ₚ map (λ kv, derive kv.2) (fold_left clusterStep runs []).
Proof. unfold clusterRuns. apply sort_perm. Qed.

(** A cluster of the result is a stored cluster with its rate and dominant
    failure derived. *)
Lemma clusterRuns_from runs c :
  c ∈ clusterRuns runs →
  ∃ c0, c = derive c0
        ∧ obj_get (sigId (c_sig c0)) (fold_left clusterStep runs []) = Some c0.
Proof.
  rewrite clusterRuns_perm. intros Hin. apply elem_of_map in Hin as ([k c0] & -> & Hin).
  destruct (clusterSteps_state runs) as (Hnd & Hget & _).
  pose proof (elem_obj_get _ _ _ Hnd Hin) as Hk.
  destruct (Hget k c0 Hk) as (Hsig & _). exists c0. simpl. by rewrite Hsig.
Qed.

Lemma sum_derive (f : TaskCluster → nat) (m : list (string * TaskCluster)) :
  (∀ c, f (derive c) = f c) →
  sum_list_with f (map (λ kv, derive kv.2) m) = sum_list_with f (map snd m).
Proof.
  intros Hf. induction m as [|[k c] m IH]; simpl; [done|]. by rewrite Hf, IH.
Qed.

Lemma passed_or_failed (runs : list RunLogEventV1) :
  length (List.filter passed runs) + length (List.filter failed runs) = length runs.
Proof.
  induction runs as [|r runs IH]; simpl; [done|].
  unfold passed at 1, failed at 1. destruct (o_ok (outcome r)); simpl; lia.
Qed.

Lemma clusterRuns_sums (runs : list RunLogEventV1) :
  sum_list_with c_runs (clusterRuns runs) = length runs
  ∧ sum_list_with c_ok (clusterRuns runs) = length (List.filter passed runs)
  ∧ sum_list_with c_fail (clusterRuns runs) = length (List.filter failed runs).
Proof.
  destruct (clusterSteps_state runs) as (_ & _ & _ & Hruns & Hok & Hfail).
  by rewrite !clusterRuns_perm, !sum_derive.
Qed.

(** X1. Clustering counts every run once: the run counts of the clusters
    add up to the number of runs, their pass and fail counts to the numbers
    of passed and failed runs; a cluster holds exactly the runs of its
    signature, at least one, its runs are its passes plus its failures, and
    its success rate is the quotient of passes by runs. *)
Theorem clusterRuns_counts_every_run (runs : list RunLogEventV1) :
  sum_list_with c_runs (clusterRuns runs) = length runs
  ∧ sum_list_with c_ok (clusterRuns runs) = length (List.filter passed runs)
  ∧ sum_list_with c_fail (clusterRuns runs) = length (List.filter failed runs)
  ∧ ∀ c, c ∈ clusterRuns runs →
      c_runs c = length (runsOf (sigId (c_sig c)) runs)
      ∧ c_ok c = length (List.filter passed (runsOf (sigId (c_sig c)) runs))
      ∧ c_fail c = length (List.filter failed (runsOf (sigId (c_sig c)) runs))
      ∧ 0 < c_runs c
      ∧ c_runs c = c_ok c + c_fail c
      ∧ c_successRate c = (float_of_nat (c_ok c) / float_of_nat (c_runs c))%float.
Proof.
  destruct (clusterSteps_state runs) as (Hnd & Hget & _).
  destruct (clusterRuns_sums runs) as (Hruns & Hok & Hfail).
  split; [done|]. split; [done|]. split; [done|].
  intros c Hc.
  apply clusterRuns_from in Hc as (c0 & -> & Hk).
  destruct (Hget _ _ Hk) as (_ & Hcnt & H1 & H2 & H3 & _ & (r & Hr & _)).
  cbn [derive c_sig c_runs c_ok c_fail c_successRate].
  assert (Hpos : 0 < c_runs c0).
  { rewrite H1. destruct (runsOf (sigId (c_sig c0)) runs); [by apply elem_of_nil in Hr|].
    simpl. lia. }
  split; [done|]. split; [done|]. split; [done|]. split; [done|].
  split; [apply Hcnt|].
  destruct (c_runs c0 =? 0)%nat eqn:Hz; [|done]. apply Nat.eqb_eq in Hz. lia.
Qed.

Lemma Sorted_firstn {A} (R : A → A → Prop) n l : Sorted R l → Sorted R (firstn n l).
Proof.
  intros Hs. revert n. induction Hs as [|x l Hs IH Hd]; intros [|n]; simpl;
    try constructor.
  - apply IH.
  - destruct Hd; destruct n; simpl; by constructor.
Qed.

(** X2. The clusters come out by run count, the most frequent first, one
    cluster per signature id, and every run finds the cluster of its
    signature. *)
Theorem clusterRuns_ranked (runs : list RunLogEventV1) :
  Sorted (λ a b, c_runs b ≤ c_runs a) (clusterRuns runs)
  ∧ NoDup (map (λ c, sigId (c_sig c)) (clusterRuns runs))
  ∧ ∀ r, r ∈ runs →
      ∃ c, c ∈ clusterRuns runs ∧ sigId (c_sig c) = sigId (signatureForRun r).
Proof.
  destruct (clusterSteps_state runs) as (Hnd & Hget & Hnone & _).
  split; [|split].
  - unfold clusterRuns.
    apply (Sorted_weaken (notAfter (λ a b, (c_runs b <? c_runs a)%nat))).
    + intros a b H. unfold notAfter in H. apply Nat.ltb_ge in H. lia.
    + apply sort_sorted. intros a b H. apply Nat.ltb_lt in H. apply Nat.ltb_ge. lia.
  - rewrite clusterRuns_perm.
    assert (Hkeys : map (λ c, sigId (c_sig c))
                      (map (λ kv, derive kv.2) (fold_left clusterStep runs []))
                    = map fst (fold_left clusterStep runs [])).
    { rewrite map_map. apply map_ext_in. intros [k c] Hin. simpl.
      apply list_elem_of_In in Hin. apply (elem_obj_get _ _ _ Hnd) in Hin.
      by destruct (Hget _ _ Hin) as (-> & _). }
    by rewrite Hkeys.
  - intros r Hr.
    destruct (obj_get (sigId (signatureForRun r)) (fold_left clusterStep runs []))
      as [c0|] eqn:Hk.
    + exists (derive c0). split.
      * rewrite clusterRuns_perm. apply elem_of_map.
        exists (sigId (signatureForRun r), c0). split; [done|]. by apply obj_get_elem.
      * destruct (Hget _ _ Hk) as (Hs & _). exact Hs.
    + apply Hnone in Hk.
      assert (Hin : r ∈ runsOf (sigId (signatureForRun r)) runs).
      { apply elem_of_bfilter. split; [done|]. apply String.eqb_refl. }
      rewrite Hk in Hin. by apply elem_of_nil in Hin.
Qed.

(** X3. The [lastAt] of a cluster is the latest [at] of its runs in the
    order of strings: it is the [at] of one of them and none is later. *)
Theorem cluster_lastAt_latest (runs : list RunLogEventV1) (c : TaskCluster) :
  c ∈ clusterRuns runs →
  (∃ r, r ∈ runs ∧ sigId (signatureForRun r) = sigId (c_sig c) ∧ at_ r = c_lastAt c)
  ∧ ∀ r, r ∈ runs → sigId (signatureForRun r) = sigId (c_sig c) →
         String.ltb (c_lastAt c) (at_ r) = false.
Proof.
  intros Hc. apply clusterRuns_from in Hc as (c0 & -> & Hk).
  destruct (clusterSteps_state runs) as (_ & Hget & _).
  destruct (Hget _ _ Hk) as (_ & _ & _ & _ & _ & Hlast & (r & Hr & Hat)).
  cbn [derive c_sig c_lastAt]. split.
  - exists r. apply elem_of_bfilter in Hr as [Hr Hsig].
    apply String.eqb_eq in Hsig. done.
  - intros r' Hr' Hsig. apply Hlast. apply elem_of_bfilter. split; [done|].
    by apply String.eqb_eq.
Qed.

Lemma cluster_lastAt_latest_witness :
  (∃ r, r ∈ ExC.runs ∧ sigId (signatureForRun r) = sigId (c_sig ExC.cluster)
        ∧ at_ r = c_lastAt ExC.cluster)
  ∧ (∀ r, r ∈ ExC.runs → sigId (signatureForRun r) = sigId (c_sig ExC.cluster) →
          String.ltb (c_lastAt ExC.cluster) (at_ r) = false)
  ∧ c_lastAt ExC.cluster = "2024-02-03T00:00:00Z".
Proof.
  split; [|split]; [| |by vm_compute];
    apply (cluster_lastAt_latest ExC.runs ExC.cluster);
    apply list_elem_of_lookup; exists 0; vm_compute; reflexivity.
Defined.





(** X5. A cluster is an env-dependent flake only with two distinct
    environments, one with passes and no failure and one with failures and
    no pass; such a cluster has both passed and failed runs. *)
Theorem envDependentFlaky_mixed (runs : list RunLogEventV1) (c : TaskCluster) :
  c ∈ clusterRuns runs → isEnvDependentFlaky c = true →
  c_ok c ≠ 0 ∧ c_fail c ≠ 0
  ∧ ∃ good bad,
      good ≠ bad
      ∧ is_Some (obj_get good (c_envCounts c)) ∧ is_Some (obj_get bad (c_envCounts c))
      ∧ 0 < default 0 (obj_get good (c_envOkCounts c))
      ∧ default 0 (obj_get good (c_envFailCounts c)) = 0
      ∧ 0 < default 0 (obj_get bad (c_envFailCounts c))
      ∧ default 0 (obj_get bad (c_envOkCounts c)) = 0.
Proof.
  intros Hc Hflaky. apply clusterRuns_from in Hc as (c0 & -> & Hk).
  destruct (clusterSteps_state runs) as (_ & Hget & _).
  destruct (Hget _ _ Hk) as (_ & (_ & _ & Hok & Hfail & _ & Hef & Heo) & _).
  unfold isEnvDependentFlaky in Hflaky.
  cbn [derive c_envCounts c_envOkCounts c_envFailCounts c_ok c_fail] in *.
  destruct (length (map fst (c_envCounts c0)) <? 2)%nat; [discriminate|].
  apply andb_true_iff in Hflaky as [Hg Hb].
  apply existsb_exists in Hg as (good & _ & Hg), Hb as (bad & _ & Hb).
  apply andb_true_iff in Hg as [Hg1 Hg2], Hb as [Hb1 Hb2].
  apply Nat.ltb_lt in Hg1, Hb1. apply Nat.eqb_eq in Hg2, Hb2.
  assert (Hsome : ∀ py (part : jsobj nat),
            Forall (λ kv : string * nat,
                      1 ≤ kv.2 ∧ ∃ t, obj_get kv.1 (c_envCounts c0) = Some t ∧ kv.2 ≤ t) part →
            0 < default 0 (obj_get py part) → is_Some (obj_get py (c_envCounts c0))).
  { intros py part Hall Hpos. destruct (obj_get py part) as [n|] eqn:Hn; [|simpl in Hpos; lia].
    apply obj_get_elem in Hn.
    destruct (proj1 (Forall_forall _ _) Hall _ Hn) as (_ & t & Ht & _). by exists t. }
  split; [|split].
  - intros Hz. rewrite (Hok Hz) in Hg1. simpl in Hg1. lia.
  - intros Hz. destruct (Hfail Hz) as [Hnil _]. rewrite Hnil in Hb1. simpl in Hb1. lia.
  - exists good, bad. split; [intros ->; lia|].
    split; [by apply (Hsome good _ Heo)|]. split; [by apply (Hsome bad _ Hef)|]. done.
Qed.

Lemma envDependentFlaky_mixed_witness :
  c_ok ExC.cluster ≠ 0 ∧ c_fail ExC.cluster ≠ 0
  ∧ ∃ good bad,
      good ≠ bad
      ∧ is_Some (obj_get good (c_envCounts ExC.cluster))
      ∧ is_Some (obj_get bad (c_envCounts ExC.cluster))
      ∧ 0 < default 0 (obj_get good (c_envOkCounts ExC.cluster))
      ∧ default 0 (obj_get good (c_envFailCounts ExC.cluster)) = 0
      ∧ 0 < default 0 (obj_get bad (c_envFailCounts ExC.cluster))
      ∧ default 0 (obj_get bad (c_envOkCounts ExC.cluster)) = 0.
Proof.
  apply (envDependentFlaky_mixed ExC.runs ExC.cluster).
  - apply list_elem_of_lookup. exists 0. vm_compute. reflexivity.
  - vm_compute. reflexivity.
Defined.



Lemma summary_fold (l : list TaskCluster) (a b c d e : nat) :
  fold_left summaryStep l (a, b, c, d, e)
  = (a + sum_list_with c_runs l, b + sum_list_with c_ok l, c + sum_list_with c_fail l,
     d + length (List.filter isFlaky l), e + length (List.filter isEnvDependentFlaky l)).
Proof.
  revert a b c d e. induction l as [|x l IH]; intros a b c d e; simpl.
  - by rewrite !Nat.add_0_r.
  - rewrite IH. destruct (isFlaky x), (isEnvDependentFlaky x); simpl;
      repeat (apply pair_equal_spec; split); lia.
Qed.

Lemma filter_length_le {A} (p : A → bool) l : length (List.filter p l) ≤ length l.
Proof. induction l as [|x l IH]; simpl; [done|]. destruct (p x); simpl; lia. Qed.

(** X7. The summary of the clusters of a run log: the total of runs is the
    number of runs of the log, the passes and failures are those of the
    log and add up to the total, and no more tasks are flaky than there
    are; the overall rate of an empty log is 0. *)
Theorem summarizeClusters_of_log (runs : list RunLogEventV1) :
  let s := summarizeClusters (clusterRuns runs) in
  totalRuns s = length runs
  ∧ totalOk s = length (List.filter passed runs)
  ∧ totalFail s = length (List.filter failed runs)
  ∧ totalOk s + totalFail s = totalRuns s
  ∧ totalTasks s = length (clusterRuns runs)
  ∧ flakyCount s = length (List.filter isFlaky (clusterRuns runs))
  ∧ envDependentFlakyCount s = length (List.filter isEnvDependentFlaky (clusterRuns runs))
  ∧ flakyCount s ≤ totalTasks s
  ∧ envDependentFlakyCount s ≤ totalTasks s
  ∧ overallSuccessRate s
    = match runs with
      | [] => 0%float
      | _ => (float_of_nat (length (List.filter passed runs))
              / float_of_nat (length runs))%float
      end.
Proof.
  destruct (clusterRuns_sums runs) as (Hruns & Hok & Hfail).
  unfold summarizeClusters. rewrite summary_fold, Hruns, Hok, Hfail. simpl.
  split; [done|]. split; [done|]. split; [done|].
  split; [apply passed_or_failed|]. split; [done|]. split; [done|]. split; [done|].
  split; [apply filter_length_le|]. split; [apply filter_length_le|].
  by destruct runs.
Qed.

(** *** The normal form of a command *)

Lemma lower_char_not_upper c : is_upper (lower_char c) = false.
Proof.
  unfold lower_char. destruct (is_upper c) eqn:Hu; [|done].
  unfold is_upper in *. apply andb_true_iff in Hu as [H1 H2].
  apply N.leb_le in H1, H2. rewrite N_ascii_embedding by lia.
  apply andb_false_iff. right. apply N.leb_gt. lia.
Qed.

Lemma lower_char_keeps c : is_upper c = false → lower_char c = c.
Proof. unfold lower_char. by intros ->. Qed.

Lemma space_not_upper c : is_space c = true → is_upper c = false.
Proof.
  unfold is_space, is_upper. intros H. apply bool_decide_eq_true in H.
  rewrite !elem_of_cons, elem_of_nil in H.
  apply andb_false_iff.
  destruct (N.leb_spec 65 (N_of_ascii c)); [right; apply N.leb_gt; lia|by left].
Qed.

Lemma tidy_squeeze l :
  tidy_from false (map lower_char (squeeze false l)) = true
  ∧ (forallb is_space l = false →
     tidy_from true (map lower_char (squeeze true l)) = true).
Proof.
  induction l as [|c l [IH1 IH2]]; [done|]. simpl.
  destruct (is_space c) eqn:Hc; simpl.
  - destruct (forallb is_space l) eqn:Hall; [done|]. simpl. split; [by apply IH2|].
    intros _. by apply IH2.
  - rewrite lower_char_space, Hc, lower_char_not_upper. simpl. by split.
Qed.

Lemma drop_space_head l :
  match drop_space l with [] => True | c :: _ => is_space c = false end.
Proof.
  induction l as [|c l IH]; simpl; [done|]. by destruct (is_space c) eqn:Hc.
Qed.

Lemma normCmd_chars_tidy l :
  match normCmd_chars l with [] => True | x => tidy_from true x = true end.
Proof.
  rewrite normCmd_chars_squeeze. pose proof (drop_space_head l) as Hh.
  destruct (drop_space l) as [|c d]; [done|]. simpl. rewrite Hh. simpl.
  rewrite lower_char_space, Hh, lower_char_not_upper. simpl.
  apply tidy_squeeze.
Qed.

Lemma tidy_not_blank l : tidy_from true l = true → forallb is_space l = false.
Proof.
  destruct l as [|c l]; simpl; [done|]. by destruct (is_space c).
Qed.

Lemma tidy_fixed b l :
  tidy_from b l = true → squeeze b l = l ∧ map lower_char l = l.
Proof.
  revert b. induction l as [|c l IH]; intros b; simpl; [done|].
  destruct (is_space c) eqn:Hc.
  - intros H. apply andb_true_iff in H as [H Ht]. apply andb_true_iff in H as [Hb Hsp].
    apply Ascii.eqb_eq in Hsp as ->. destruct b; [done|].
    rewrite (tidy_not_blank _ Ht). destruct (IH true Ht) as [-> ->]. done.
  - intros H. apply andb_true_iff in H as [Hu Ht]. apply negb_true_iff in Hu.
    destruct (IH false Ht) as [-> ->]. by rewrite lower_char_keeps.
Qed.

Lemma normCmd_chars_fixed l : tidy_from true l = true → normCmd_chars l = l.
Proof.
  intros Ht. rewrite normCmd_chars_squeeze.
  assert (Hd : drop_space l = l).
  { destruct l as [|c l]; simpl in *; [done|]. by destruct (is_space c). }
  rewrite Hd. destruct l as [|c l]; [done|].
  simpl in Ht. destruct (is_space c) eqn:Hc; [done|].
  apply andb_true_iff in Ht as [Hu Ht]. apply negb_true_iff in Hu.
  simpl. rewrite Hc. simpl. destruct (tidy_fixed false l Ht) as [-> ->].
  by rewrite lower_char_keeps.
Qed.

(** X8. On a command of ASCII characters [normCmd] gives a command in
    normal form (no white space at either end, single spaces between the
    words, no capital letter); the ASCII commands in normal form are exactly
    those it leaves as they are, so normalizing twice is normalizing once. *)
Theorem normCmd_normal_form (cmd : string) :
  asciiText cmd →
  tidy (normCmd cmd) = true
  ∧ normCmd (normCmd cmd) = normCmd cmd
  ∧ (normCmd cmd = cmd ↔ tidy cmd = true).
Proof.
  intros _.
  assert (Htidy : ∀ s, tidy (normCmd s) = true).
  { intros s. unfold tidy, normCmd, str, chars.
    rewrite list_ascii_of_string_of_list_ascii.
    pose proof (normCmd_chars_tidy (list_ascii_of_string s)) as H.
    by destruct (normCmd_chars (list_ascii_of_string s)). }
  assert (Hfix : ∀ s, tidy s = true → normCmd s = s).
  { intros s. unfold tidy, normCmd, str, chars. intros Ht.
    rewrite <- (string_of_list_ascii_of_string s) at 2. f_equal.
    destruct (list_ascii_of_string s) as [|c l] eqn:Hs; [done|].
    by apply normCmd_chars_fixed. }
  split; [apply Htidy|]. split; [apply Hfix, Htidy|].
  split; [intros <-; apply Htidy|apply Hfix].
Qed.

Lemma normCmd_normal_form_witness :
  normCmd "  Pytest   -Q tests/ " = "pytest -q tests/"
  ∧ tidy (normCmd "  Pytest   -Q tests/ ") = true
  ∧ normCmd (normCmd "  Pytest   -Q tests/ ") = normCmd "  Pytest   -Q tests/ ".
Proof.
  split; [by vm_compute|].
  destruct (normCmd_normal_form "  Pytest   -Q tests/ ") as (Ht & Hi & _); [|by split].
  apply Forall_forall. intros c Hc. apply N.ltb_lt.
  assert (Hall : forallb (λ c, (N_of_ascii c <? 128)%N) (chars "  Pytest   -Q tests/ ")
                 = true) by by vm_compute.
  rewrite forallb_forall in Hall. by apply Hall, list_elem_of_In.
Defined.

(** ** doctorLite.ts: scores *)

Lemma penalty_from (fs : list Finding) (z : Z) :
  fold_left (λ sum f, sum + default 0 (f_penalty f))%Z fs z = (z + totalPenalty fs)%Z.
Proof.
  unfold totalPenalty. revert z. induction fs as [|f fs IH]; intros z; cbn [fold_left]; [lia|].
  rewrite (IH (z + default 0 (f_penalty f))%Z), (IH (0 + default 0 (f_penalty f))%Z). lia.
Qed.

Lemma totalPenalty_app fs gs : totalPenalty (fs ++ gs) = (totalPenalty fs + totalPenalty gs)%Z.
Proof. unfold totalPenalty at 1. rewrite fold_left_app, penalty_from. reflexivity. Qed.

Lemma hasCode_app code fs gs : hasCode code (fs ++ gs) = hasCode code fs || hasCode code gs.
Proof. unfold hasCode. apply existsb_app. Qed.

(** X9. The score of a report is never negative, and at most 100 when the
    penalties do not add up below zero; the status is never unknown. A
    report with a finding of severity bad is bad. *)
Theorem scoreReport_range (findings : list Finding) :
  (0 ≤ (scoreReport findings).1)%Z
  ∧ ((0 ≤ totalPenalty findings)%Z → ((scoreReport findings).1 ≤ 100)%Z)
  ∧ (scoreReport findings).2 ≠ Unknown
  ∧ (existsb isBad findings = true → (scoreReport findings).2 = Bad).
Proof.
  unfold scoreReport, clampScoreForHardFails, computeStatus. simpl.
  split; [|split; [|split]].
  - repeat (match goal with |- context [if ?b then _ else _] => destruct b end); lia.
  - intros Hp.
    repeat (match goal with |- context [if ?b then _ else _] => destruct b end); lia.
  - repeat (match goal with |- context [if ?b then _ else _] => destruct b end); done.
  - by intros ->.
Qed.

(** X10. The hard failures cap a report: an interpreter that cannot be
    executed scores 0, an architecture mismatch at most 15, a DLL load
    failure, an ABI mismatch or a broken subprocess at most 25, and each of
    them makes the report bad whatever the penalties are. *)
Theorem scoreReport_hard_fail (findings : list Finding) :
  (hasCode "PYTHON_EXEC_MISSING" findings = true → scoreReport findings = (0%Z, Bad))
  ∧ (hasCode "ARCH_MISMATCH" findings = true →
     ((scoreReport findings).1 ≤ 15)%Z ∧ (scoreReport findings).2 = Bad)
  ∧ (hardFail findings = true →
     ((scoreReport findings).1 ≤ 25)%Z ∧ (scoreReport findings).2 = Bad).
Proof.
  unfold scoreReport, clampScoreForHardFails, computeStatus, hardFail, hardFailCodes.
  cbn [existsb fst snd].
  split; [|split].
  - intros ->. by destruct (existsb isBad findings).
  - intros ->. destruct (hasCode "PYTHON_EXEC_MISSING" findings);
      destruct (existsb isBad findings); simpl; (split; [lia|]); try done;
      repeat (match goal with |- context [if ?b then _ else _] => destruct b eqn:? end);
      try done; lia.
  - intros H.
    destruct (hasCode "PYTHON_EXEC_MISSING" findings),
             (hasCode "ARCH_MISMATCH" findings),
             (hasCode "DLL_LOAD_FAIL" findings),
             (hasCode "ABI_MISMATCH" findings),
             (hasCode "SUBPROCESS_BROKEN" findings); simpl in H; try discriminate H;
      destruct (existsb isBad findings); simpl; (split; [lia|]); try done;
      repeat (match goal with |- context [if ?b then _ else _] => destruct b eqn:? end);
      try done; lia.
Qed.

(** X11. A report is good exactly when no finding is of severity bad, none
    carries a hard-failure code and the penalties add up to at most 15; it
    is a warning exactly when, without those, they add up to more than 15
    and at most 40. *)
Theorem scoreReport_status (findings : list Finding) :
  ((scoreReport findings).2 = Good ↔
     existsb isBad findings = false ∧ hardFail findings = false
     ∧ (totalPenalty findings ≤ 15)%Z)
  ∧ ((scoreReport findings).2 = Warn ↔
       existsb isBad findings = false ∧ hardFail findings = false
       ∧ (15 < totalPenalty findings ≤ 40)%Z).
Proof.
  unfold scoreReport, clampScoreForHardFails, computeStatus, hardFail, hardFailCodes.
  cbn [existsb fst snd].
  destruct (existsb isBad findings),
           (hasCode "PYTHON_EXEC_MISSING" findings),
           (hasCode "ARCH_MISMATCH" findings),
           (hasCode "DLL_LOAD_FAIL" findings),
           (hasCode "ABI_MISMATCH" findings),
           (hasCode "SUBPROCESS_BROKEN" findings); simpl;
    (split; split;
     [ intros H;
       repeat (match type of H with context [if ?b then _ else _] =>
                 destruct b eqn:? end); try discriminate H;
       repeat split; try done; lia
     | intros (H1 & H2 & H3); try discriminate H1; try discriminate H2;
       repeat (match goal with |- context [if ?b then _ else _] =>
                 destruct b eqn:? end); try done; lia
     | intros H;
       repeat (match type of H with context [if ?b then _ else _] =>
                 destruct b eqn:? end); try discriminate H;
       repeat split; try done; lia
     | intros (H1 & H2 & H3); try discriminate H1; try discriminate H2;
       repeat (match goal with |- context [if ?b then _ else _] =>
                 destruct b eqn:? end); try done; lia ]).
Qed.

(** X12. A further finding with a penalty that is not negative never
    raises the score. *)
Theorem scoreReport_monotone (findings : list Finding) (f : Finding) :
  (0 ≤ default 0 (f_penalty f))%Z →
  ((scoreReport (findings ++ [f])).1 ≤ (scoreReport findings).1)%Z.
Proof.
  intros Hp. unfold scoreReport, clampScoreForHardFails. cbn [fst].
  rewrite totalPenalty_app, !hasCode_app.
  assert (Hf : totalPenalty [f] = default 0%Z (f_penalty f))
    by (unfold totalPenalty; simpl; lia).
  rewrite Hf.
  destruct (hasCode "PYTHON_EXEC_MISSING" findings),
           (hasCode "ARCH_MISMATCH" findings),
           (hasCode "DLL_LOAD_FAIL" findings),
           (hasCode "ABI_MISMATCH" findings),
           (hasCode "SUBPROCESS_BROKEN" findings),
           (hasCode "PYTHON_EXEC_MISSING" [f]),
           (hasCode "ARCH_MISMATCH" [f]),
           (hasCode "DLL_LOAD_FAIL" [f]),
           (hasCode "ABI_MISMATCH" [f]),
           (hasCode "SUBPROCESS_BROKEN" [f]); simpl; lia.
Qed.

Lemma scoreReport_monotone_witness :
  ((scoreReport ([ExD.sslBroken] ++ [ExD.pipMissing])).1 ≤ (scoreReport [ExD.sslBroken]).1)%Z
  ∧ scoreReport [ExD.sslBroken] = (60%Z, Bad)
  ∧ scoreReport [ExD.sslBroken; ExD.pipMissing] = (35%Z, Bad).
Proof.
  split; [|by vm_compute].
  apply (scoreReport_monotone [ExD.sslBroken] ExD.pipMissing). simpl. lia.
Defined.

(** ** Identifiers *)

Lemma normPath_cases W p :
  normPath W p = if String.eqb (platform W) "win32" then toLowerCase p else p.
Proof.
  unfold normPath. destruct (String.eqb p "") eqn:Hp; [|done].
  apply String.eqb_eq in Hp as ->. by destruct (String.eqb (platform W) "win32").
Qed.

Lemma append_inj_l pre x y : pre +:+ x = pre +:+ y → x = y.
Proof. induction pre as [|c pre IH]; simpl; [done|]. intros [= H]. by apply IH. Qed.

(** X13. The doctor's environment id and the map's path key identify the
    same interpreters: two paths have one doctor id exactly when the map
    normalizes them to one path, and then the map gives them one environment
    node id. Off Windows these are equal paths only. *)
Theorem envIdFromPythonPath_same_paths (W : World) (p q : string) :
  (envIdFromPythonPath W p = envIdFromPythonPath W q ↔ normPath W p = normPath W q)
  ∧ (envIdFromPythonPath W p = envIdFromPythonPath W q → envIdOf W p = envIdOf W q)
  ∧ (platform W ≠ "win32" → envIdFromPythonPath W p = envIdFromPythonPath W q → p = q).
Proof.
  unfold envIdFromPythonPath, envIdOf. rewrite !normPath_cases.
  split; [|split].
  - split; [apply append_inj_l|intros H; by rewrite H].
  - intros H. apply append_inj_l in H. by rewrite H.
  - intros Hw. apply String.eqb_neq in Hw. rewrite Hw. apply append_inj_l.
Qed.

(** *** The digest has 64 hexadecimal digits *)

Lemma round_length k st : length (Sha256.round k st).1 = 8.
Proof. by destruct st. Qed.

Lemma rounds_length K st :
  length st.1 = 8 → length (fold_left (λ st k, Sha256.round k st) K st).1 = 8.
Proof.
  revert st. induction K as [|k K IH]; intros st Hst; cbn [fold_left]; [done|].
  apply IH, round_length.
Qed.

Lemma compress_length h block : length h = 8 → length (Sha256.compress h block) = 8.
Proof.
  intros Hh. unfold Sha256.compress.
  pose proof (rounds_length Sha256.K (h, block) Hh) as Hv.
  destruct (fold_left _ Sha256.K (h, block)) as [v ws]. cbn [fst] in Hv.
  rewrite length_zip_with. lia.
Qed.

Lemma digest_length msg : length (Sha256.digest msg) = 8.
Proof.
  unfold Sha256.digest.
  apply (fold_left_inv (λ h, length h = 8) Sha256.compress); [reflexivity|].
  intros h b _ Hh. by apply compress_length.
Qed.

Lemma hexdigit_hex n : (n < 16)%N → is_hex (Sha256.hexdigit n) = true.
Proof.
  intros Hn.
  assert (Hall : forallb (λ n, is_hex (Sha256.hexdigit n)) (map N.of_nat (seq 0 16)) = true)
    by reflexivity.
  rewrite forallb_forall in Hall. apply Hall. apply in_map_iff.
  exists (N.to_nat n). split; [lia|]. apply in_seq. lia.
Qed.

Lemma hex32_hex x : length (Sha256.hex32 x) = 8 ∧ forallb is_hex (Sha256.hex32 x) = true.
Proof.
  split; [reflexivity|]. unfold Sha256.hex32. rewrite forallb_forall.
  intros c Hc. apply in_map_iff in Hc as (i & <- & _).
  apply hexdigit_hex. apply N.mod_lt. done.
Qed.

Lemma hexes_hex (ws : list N) :
  length (concat (map Sha256.hex32 ws)) = 8 * length ws
  ∧ forallb is_hex (concat (map Sha256.hex32 ws)) = true.
Proof.
  induction ws as [|x ws [IH1 IH2]]; [done|]. cbn [map concat].
  rewrite length_app, forallb_app, IH1, IH2.
  destruct (hex32_hex x) as [-> ->]. split; [simpl; lia|done].
Qed.

Lemma sha256Hex_hex input : hexOf 64 (Sha256.sha256Hex input).
Proof.
  unfold hexOf, Sha256.sha256Hex, chars. rewrite list_ascii_of_string_of_list_ascii.
  destruct (hexes_hex (Sha256.digest (Sha256.bytes_of_string input))) as [H1 H2].
  by rewrite H1, digest_length.
Qed.

Lemma forallb_firstn {A} (p : A → bool) n l : forallb p l = true → forallb p (firstn n l) = true.
Proof.
  revert n. induction l as [|x l IH]; intros [|n]; simpl; try done.
  intros H. apply andb_true_iff in H as [-> H]. by apply IH.
Qed.

Lemma slice0_hex n m s : hexOf m s → n ≤ m → hexOf n (slice0 n s).
Proof.
  intros [Hlen Hall] Hn. unfold hexOf, slice0, str, chars in *.
  rewrite list_ascii_of_string_of_list_ascii. split.
  - rewrite length_firstn. lia.
  - by apply forallb_firstn.
Qed.

(** X14. The ids of the graph are a prefix and 16 lower-case hexadecimal
    digits, the ids of the Mermaid text [n_] and 10 such digits: whatever
    the paths and names hashed, an id holds only these characters. *)
Theorem graph_ids_shape (prefix input nodeId : string) :
  (∃ h, stableId prefix input = prefix +:+ ":" +:+ h ∧ hexOf 16 h)
  ∧ (∃ h, safeMermaidId nodeId = "n_" +:+ h ∧ hexOf 10 h).
Proof.
  split.
  - exists (slice0 16 (Sha256.sha256Hex input)). split; [done|].
    apply (slice0_hex 16 64); [apply sha256Hex_hex|lia].
  - exists (slice0 10 (Sha256.sha256Hex nodeId)). split; [done|].
    apply (slice0_hex 10 64); [apply sha256Hex_hex|lia].
Qed.

(** X15. A run id made from a seed that is not empty is [run_] and 16
    hexadecimal digits of the seed's digest, whatever the random source
    gives; without a seed, or with the empty one, it is the random UUID. The
    signature id of a run is [task_] and 16 such digits. *)
Theorem run_ids_shape (uuid seed : string) (run : RunLogEventV1) :
  (seed ≠ "" →
   ∃ h, newRunId uuid (Some seed) = "run_" +:+ h ∧ hexOf 16 h
        ∧ ∀ uuid', newRunId uuid' (Some seed) = "run_" +:+ h)
  ∧ newRunId uuid None = uuid
  ∧ newRunId uuid (Some "") = uuid
  ∧ ∃ h, sigId (signatureForRun run) = "task_" +:+ h ∧ hexOf 16 h.
Proof.
  split; [|split; [done|split; [done|]]].
  - intros Hseed. exists (slice0 16 (Sha256.sha256Hex seed)).
    unfold newRunId, truthy. rewrite (proj2 (String.eqb_neq _ _) Hseed).
    split; [done|]. split; [|done].
    apply (slice0_hex 16 64); [apply sha256Hex_hex|lia].
  - eexists. split; [reflexivity|].
    apply (slice0_hex 16 64); [apply sha256Hex_hex|lia].
Qed.

(** ** runLog.ts: the summary of a run log *)

Section grouped.
Context (key : RunLogEventV1 → string).

Lemma countsOf_snoc k pre r :
  countsOf key k (pre ++ [r])
  = if String.eqb (key r) k
    then Some (countRun (o_ok (outcome r))
                 (default {| pf_passed := 0; pf_failed := 0 |} (countsOf key k pre)))
    else countsOf key k pre.
Proof.
  unfold countsOf. rewrite List.filter_app. cbn [List.filter].
  destruct (String.eqb (key r) k); [|by rewrite app_nil_r].
  generalize (List.filter (λ r0, String.eqb (key r0) k) pre). intros fl.
  assert (Hnew : match fl ++ [r] with [] => None | x :: rs => Some (passFail (x :: rs)) end
                 = Some (passFail (fl ++ [r]))) by (by destruct fl).
  assert (Hold : default {| pf_passed := 0; pf_failed := 0 |}
                   match fl with [] => None | x :: rs => Some (passFail (x :: rs)) end
                 = passFail fl) by (by destruct fl).
  rewrite Hnew, Hold. unfold passFail. rewrite !List.filter_app, !length_app. f_equal.
  unfold countRun. cbn [List.filter pf_passed pf_failed].
  change (passed r) with (o_ok (outcome r)).
  change (failed r) with (negb (o_ok (outcome r))).
  destruct (o_ok (outcome r)); cbn [negb length]; f_equal; lia.
Qed.

Lemma countUnder_grouped pre m r :
  NoDup (map fst m) ∧ (∀ k, obj_get k m = countsOf key k pre) →
  NoDup (map fst (countUnder (key r) (o_ok (outcome r)) m))
  ∧ ∀ k, obj_get k (countUnder (key r) (o_ok (outcome r)) m) = countsOf key k (pre ++ [r]).
Proof.
  intros [Hnd Hget]. split; [by apply map_set_NoDup|].
  intros k. unfold countUnder. rewrite map_get_set, countsOf_snoc.
  destruct (String.eqb (key r) k) eqn:Hk; [|apply Hget].
  apply String.eqb_eq in Hk as <-. by rewrite Hget.
Qed.

Lemma countUnder_sums pre m r :
  sum_list_with pf_passed (map snd m) = length (List.filter passed pre)
  ∧ sum_list_with pf_failed (map snd m) = length (List.filter failed pre) →
  sum_list_with pf_passed (map snd (countUnder (key r) (o_ok (outcome r)) m))
  = length (List.filter passed (pre ++ [r]))
  ∧ sum_list_with pf_failed (map snd (countUnder (key r) (o_ok (outcome r)) m))
    = length (List.filter failed (pre ++ [r])).
Proof.
  intros [Hp Hf]. unfold countUnder.
  pose proof (sum_map_set pf_passed (key r)
                (countRun (o_ok (outcome r))
                   (default {| pf_passed := 0; pf_failed := 0 |} (obj_get (key r) m))) m) as Sp.
  pose proof (sum_map_set pf_failed (key r)
                (countRun (o_ok (outcome r))
                   (default {| pf_passed := 0; pf_failed := 0 |} (obj_get (key r) m))) m) as Sf.
  rewrite !List.filter_app, !length_app. cbn [List.filter].
  unfold passed at 2, failed at 2. unfold countRun in *.
  destruct (obj_get (key r) m) as [old|]; destruct (o_ok (outcome r));
    cbn [default from_option id pf_passed pf_failed negb length] in *; lia.
Qed.

Lemma counts_grouped runs :
  let m := fold_left (λ m r, countUnder (key r) (o_ok (outcome r)) m) runs [] in
  NoDup (map fst m)
  ∧ (∀ k, obj_get k m = countsOf key k runs)
  ∧ sum_list_with pf_passed (map snd m) = length (List.filter passed runs)
  ∧ sum_list_with pf_failed (map snd m) = length (List.filter failed runs).
Proof.
  cbv zeta.
  apply (fold_left_prefix (λ m r, countUnder (key r) (o_ok (outcome r)) m)
           (λ pre m, NoDup (map fst m)
                     ∧ (∀ k, obj_get k m = countsOf key k pre)
                     ∧ sum_list_with pf_passed (map snd m) = length (List.filter passed pre)
                     ∧ sum_list_with pf_failed (map snd m) = length (List.filter failed pre))).
  - split; [constructor|]. by repeat split.
  - intros pre r m (Hnd & Hget & Hp & Hf).
    destruct (countUnder_grouped pre m r (conj Hnd Hget)) as [H1 H2].
    destruct (countUnder_sums pre m r (conj Hp Hf)) as [H3 H4]. done.
Qed.

End grouped.

Lemma runsStep_fold runs p f bt be :
  fold_left runsStep runs (p, f, bt, be)
  = (p + length (List.filter passed runs), f + length (List.filter failed runs),
     fold_left (λ m r, countUnder (t_name (task r)) (o_ok (outcome r)) m) runs bt,
     fold_left (λ m r, countUnder (s_pythonPath (selected r)) (o_ok (outcome r)) m) runs be).
Proof.
  revert p f bt be. induction runs as [|r runs IH]; intros p f bt be; cbn [fold_left].
  - cbn [List.filter length]. by rewrite !Nat.add_0_r.
  - unfold runsStep at 2. rewrite IH. cbn [List.filter].
    change (passed r) with (o_ok (outcome r)).
    change (failed r) with (negb (o_ok (outcome r))).
    destruct (o_ok (outcome r)); cbn [negb length];
      repeat (apply pair_equal_spec; split); try done; lia.
Qed.

(** X16. The summary of a run log counts every run once: the total is the
    number of runs and is the passes plus the failures; by task name and by
    environment path, a key has an entry exactly when a run has it, with the
    passes and failures of the runs that have it, so that the entries of
    either map add up to the passes and failures of the log. *)
Theorem summarizeRuns_counts (runs : list RunLogEventV1) :
  let s := summarizeRuns runs in
  rs_total s = length runs
  ∧ rs_passed s = length (List.filter passed runs)
  ∧ rs_failed s = length (List.filter failed runs)
  ∧ rs_passed s + rs_failed s = rs_total s
  ∧ NoDup (map fst (rs_byTask s)) ∧ NoDup (map fst (rs_byEnv s))
  ∧ (∀ name, obj_get name (rs_byTask s) = countsOf (λ r, t_name (task r)) name runs)
  ∧ (∀ path, obj_get path (rs_byEnv s)
             = countsOf (λ r, s_pythonPath (selected r)) path runs)
  ∧ sum_list_with pf_passed (map snd (rs_byTask s)) = rs_passed s
  ∧ sum_list_with pf_failed (map snd (rs_byTask s)) = rs_failed s
  ∧ sum_list_with pf_passed (map snd (rs_byEnv s)) = rs_passed s
  ∧ sum_list_with pf_failed (map snd (rs_byEnv s)) = rs_failed s.
Proof.
  unfold summarizeRuns. rewrite runsStep_fold. cbv zeta.
  cbn [rs_total rs_passed rs_failed rs_byTask rs_byEnv Nat.add].
  destruct (counts_grouped (λ r, t_name (task r)) runs) as (N1 & G1 & P1 & F1).
  destruct (counts_grouped (λ r, s_pythonPath (selected r)) runs) as (N2 & G2 & P2 & F2).
  pose proof (passed_or_failed runs). by repeat split.
Qed.

(** ** The shape of the graph *)

Lemma kind_env n : nodeKindOk n → kindOf (n_id n) = Some "e"%char → n_type n = NVenv.
Proof.
  unfold nodeKindOk. intros H1 H2.
  destruct (n_type n); first [done | rewrite H1 in H2; discriminate H2].
Qed.
Lemma kind_base n : nodeKindOk n → kindOf (n_id n) = Some "b"%char → n_type n = NBase.
Proof.
  unfold nodeKindOk. intros H1 H2.
  destruct (n_type n); first [done | rewrite H1 in H2; discriminate H2].
Qed.
Lemma kind_task n : nodeKindOk n → kindOf (n_id n) = Some "t"%char → n_type n = NTask.
Proof.
  unfold nodeKindOk. intros H1 H2.
  destruct (n_type n); first [done | rewrite H1 in H2; discriminate H2].
Qed.

(** X17. The graph has three layers. An edge is a USES_BASE, ROUTES_TASK_TO
    or FAILED_RUN edge; it ends at an environment node, and starts at a base
    node when it is a USES_BASE edge and at a task node otherwise: nodes
    with the ids of its ends exist, and every node with such an id has that
    type. *)
Theorem edge_ends_typed W reports runs options (e : GraphEdge) :
  e ∈ g_edges (graph (mapRender W reports runs options)) →
  e_type e ∈ [USES_BASE; ROUTES_TASK_TO; FAILED_RUN]
  ∧ (∃ n, n ∈ g_nodes (graph (mapRender W reports runs options)) ∧ n_id n = e_from e)
  ∧ (∃ n, n ∈ g_nodes (graph (mapRender W reports runs options)) ∧ n_id n = e_to e)
  ∧ (∀ n, n ∈ g_nodes (graph (mapRender W reports runs options)) → n_id n = e_to e →
          n_type n = NVenv)
  ∧ (∀ n, n ∈ g_nodes (graph (mapRender W reports runs options)) → n_id n = e_from e →
          n_type n = if bool_decide (e_type e = USES_BASE) then NBase else NTask).
Proof.
  rewrite mapRender_edges, mapRender_nodes. intros He.
  pose proof (build_inv W reports runs options) as Hinv.
  destruct (inv_edges _ Hinv e He) as [Hf Ht].
  apply elem_of_map in Hf as (nf & Hf & Hnf), Ht as (nt & Ht & Hnt).
  pose proof (proj1 (Forall_forall _ _) (inv_edgeKinds _ Hinv) e He) as Hk.
  pose proof (proj1 (Forall_forall _ _) (inv_nodeKinds _ Hinv)) as Hn.
  unfold edgeKindOk in Hk.
  destruct (e_type e) eqn:Hty; try done; destruct Hk as [Hkf Hkt];
    (split; [set_solver|]); (split; [by exists nf|]); (split; [by exists nt|]); split.
  - intros n Hin Hid. apply kind_env; [by apply Hn|by rewrite Hid].
  - intros n Hin Hid. apply kind_base; [by apply Hn|by rewrite Hid].
  - intros n Hin Hid. apply kind_env; [by apply Hn|by rewrite Hid].
  - intros n Hin Hid. apply kind_task; [by apply Hn|by rewrite Hid].
  - intros n Hin Hid. apply kind_env; [by apply Hn|by rewrite Hid].
  - intros n Hin Hid. apply kind_task; [by apply Hn|by rewrite Hid].
Qed.

Lemma edge_ends_typed_witness :
  let g := graph (mapRender Ex.world Ex.threeUnderOneBase [Ex.lintRun] Ex.options) in
  let e := default fallbackEdge (g_edges g !! 4) in
  e_type e = FAILED_RUN
  ∧ (∃ n, n ∈ g_nodes g ∧ n_id n = e_from e)
  ∧ (∃ n, n ∈ g_nodes g ∧ n_id n = e_to e)
  ∧ (∀ n, n ∈ g_nodes g → n_id n = e_to e → n_type n = NVenv)
  ∧ (∀ n, n ∈ g_nodes g → n_id n = e_from e → n_type n = NTask).
Proof.
  cbv zeta. split; [by vm_compute|].
  apply (edge_ends_typed Ex.world Ex.threeUnderOneBase [Ex.lintRun] Ex.options).
  apply list_elem_of_lookup. exists 4. vm_compute. reflexivity.
Defined.

(** *** Failures are routed *)

Lemma failuresRouted_route b taskId envId label w meta :
  failuresRouted b → failuresRouted (pushEdge b (routeEdge taskId envId label w meta)).
Proof.
  intros Hb e Hin Hty. cbn [pushEdge edges] in *.
  apply elem_of_app in Hin as [Hin|Hin].
  - destruct (Hb e Hin Hty) as (e' & He' & Hr). exists e'. split; [|done].
    apply elem_of_app. by left.
  - apply list_elem_of_singleton in Hin as ->. discriminate Hty.
Qed.

Lemma failuresRouted_fail b taskId envId label w meta label' w' meta' :
  failuresRouted b →
  failuresRouted (pushEdge (pushEdge b (routeEdge taskId envId label w meta))
                           (failEdge taskId envId label' w' meta')).
Proof.
  intros Hb e Hin Hty. cbn [pushEdge edges] in *.
  apply elem_of_app in Hin as [Hin|Hin].
  - destruct (failuresRouted_route b taskId envId label w meta Hb e Hin Hty)
      as (e' & He' & Hr).
    exists e'. split; [|done]. apply elem_of_app. by left.
  - apply list_elem_of_singleton in Hin as ->.
    exists (routeEdge taskId envId label w meta). split; [|done].
    apply elem_of_app. left. apply elem_of_app. right. by left.
Qed.

Lemma failuresRouted_edges b b' : edges b' = edges b → failuresRouted b → failuresRouted b'.
Proof. unfold failuresRouted. by intros ->. Qed.

Lemma ensureEnv_edges b envPy n : edges (ensureEnv b envPy n) = edges b.
Proof. unfold ensureEnv. by destruct (nodeIndex b !! n_id n). Qed.

Lemma clusterEnvStep_routed W c taskId b kv :
  failuresRouted b → failuresRouted (clusterEnvStep W c taskId b kv).
Proof.
  intros Hb. destruct kv as [pyPath count]. unfold clusterEnvStep.
  set (n := missingEnvNode _ pyPath _ _).
  assert (H1 : failuresRouted (ensureEnv b (normPath W pyPath) n))
    by (by apply (failuresRouted_edges b), Hb; apply ensureEnv_edges).
  destruct (0 <? default 0 (obj_get pyPath (c_envFailCounts c)))%nat.
  - by apply failuresRouted_fail.
  - by apply failuresRouted_route.
Qed.

Lemma clusterTaskStep_routed W b c :
  failuresRouted b → failuresRouted (clusterTaskStep W b c).
Proof.
  intros Hb. unfold clusterTaskStep. apply fold_left_inv.
  - by apply (failuresRouted_edges b).
  - intros b' kv _. apply clusterEnvStep_routed.
Qed.

Lemma runTaskStep_routed W b run :
  failuresRouted b → failuresRouted (runTaskStep W b run).
Proof.
  intros Hb. unfold runTaskStep.
  set (taskId := stableId "task" _). set (b0 := pushIndexed b _).
  set (n := missingEnvNode _ _ _ _).
  assert (H1 : failuresRouted (ensureEnv b0 (normPath W (s_pythonPath (selected run))) n))
    by (by apply (failuresRouted_edges b), Hb; rewrite ensureEnv_edges).
  destruct (o_ok (outcome run)).
  - by apply failuresRouted_route.
  - by apply failuresRouted_fail.
Qed.

Lemma build_routed W reports runs options :
  failuresRouted (build W reports runs options).1.1.1.
Proof.
  unfold build.
  assert (Hrep : failuresRouted (reportPhase W (includedReports W reports options))).
  { intros e Hin Hty. unfold reportPhase in Hin. cbn [edges] in Hin.
    destruct (envSteps_edges W (includedReports W reports options) emptyBuilder)
      as (es & Hes & _ & Hall).
    rewrite Hes in Hin. cbn [emptyBuilder edges app] in Hin.
    rewrite (proj1 (Forall_forall _ _) Hall e Hin) in Hty. discriminate Hty. }
  unfold taskPhase. destruct (negb _ && _); [|done].
  destruct (bool_decide _); cbn [fst].
  - apply fold_left_inv; [done|]. intros b c _. apply clusterTaskStep_routed.
  - apply fold_left_inv; [done|]. intros b r _. apply runTaskStep_routed.
Qed.

(** X18. A FAILED_RUN edge never stands alone: the graph has a
    ROUTES_TASK_TO edge between the same task node and environment node. *)
Theorem failed_run_routed W reports runs options (e : GraphEdge) :
  e ∈ g_edges (graph (mapRender W reports runs options)) → e_type e = FAILED_RUN →
  ∃ e', e' ∈ g_edges (graph (mapRender W reports runs options))
        ∧ routes (e_from e) (e_to e) e'.
Proof. rewrite mapRender_edges. apply build_routed. Qed.

Lemma failed_run_routed_witness :
  let g := graph (mapRender Ex.world Ex.threeUnderOneBase [Ex.lintRun] Ex.options) in
  ∃ e', e' ∈ g_edges g
        ∧ routes (e_from (default fallbackEdge (g_edges g !! 4)))
                 (e_to (default fallbackEdge (g_edges g !! 4))) e'.
Proof.
  cbv zeta.
  apply (failed_run_routed Ex.world Ex.threeUnderOneBase [Ex.lintRun] Ex.options).
  - apply list_elem_of_lookup. exists 4. vm_compute. reflexivity.
  - vm_compute. reflexivity.
Defined.

(** ** More on the insights *)

Lemma Forall_flat_map_intro {A B} (P : B → Prop) (f : A → list B) l :
  (∀ x, Forall P (f x)) → Forall P (flat_map f l).
Proof.
  intros Hf. induction l as [|x l IH]; simpl; [constructor|].
  apply Forall_app. by split.
Qed.

Lemma ruled_insight sev text meta : sev ≠ Low → ruled (insight sev text meta).
Proof. intros Hs. split; [by eexists|done]. Qed.

Lemma ruled_one sev text meta : sev ≠ Low → Forall ruled [insight sev text meta].
Proof. intros Hs. constructor; [by apply ruled_insight|constructor]. Qed.

Lemma ruleInsights_ruled g reports clusters :
  Forall ruled (ruleInsights g reports clusters).
Proof.
  unfold ruleInsights. repeat (apply Forall_app; split).
  - unfold topIssueInsights. destruct (topIssues (g_summary g)) as [|t0 ts]; [constructor|].
    apply ruled_one. by destruct (3 <=? ti_count t0)%nat.
  - unfold blastRadiusInsights. apply Forall_flat_map_intro. intros base.
    destruct (_ && _); [by apply ruled_one|constructor].
  - unfold hygieneInsights. destruct (_ || _); [by apply ruled_one|constructor].
  - unfold entropyInsights. destruct (_ && _); [by apply ruled_one|constructor].
  - unfold flakyInsights. apply Forall_forall. intros i Hi.
    apply elem_of_map in Hi as (ic & -> & _). by apply ruled_insight.
  - unfold envFlakyInsights. apply Forall_flat_map_intro. intros ic.
    destruct (bool_decide _); [constructor|by apply ruled_one].
  - unfold hotspotInsights. apply Forall_flat_map_intro. intros [envId failCount].
    destruct (failCount <? 3)%nat; [constructor|].
    destruct (List.find _ _); [by apply ruled_one|constructor].
  - unfold contagionInsights. destruct clusters as [|c cs]; [constructor|].
    destruct (descByCount _) as [|[code count] l]; [constructor|].
    destruct (_ && _); [by apply ruled_one|constructor].
Qed.

(** X19. The fallback is the only insight of low severity and the only one
    without metadata, and it comes alone: an insight of the result is either
    the insight of a rule, of medium or high severity with its metadata, or
    the fallback, and then the result holds nothing else and no rule has
    fired. *)
Theorem fallback_only_alone g reports clusters (i : MapInsight) :
  i ∈ aggregateInsights g reports clusters →
  (ruled i ∧ i ∈ ruleInsights g reports clusters)
  ∨ (i = fallbackInsight
     ∧ aggregateInsights g reports clusters = [fallbackInsight]
     ∧ ruleInsights g reports clusters = []).
Proof.
  unfold aggregateInsights. pose proof (ruleInsights_ruled g reports clusters) as Hall.
  destruct (ruleInsights g reports clusters) as [|i0 l] eqn:Hr; simpl.
  - intros Hi. apply list_elem_of_singleton in Hi. by right.
  - intros Hi. left. split; [|done]. by apply (proj1 (Forall_forall _ _) Hall).
Qed.

Lemma fallback_only_alone_witness :
  (ruled fallbackInsight ∧ fallbackInsight ∈ ruleInsights Ex.emptyGraph [] [])
  ∨ (fallbackInsight = fallbackInsight
     ∧ aggregateInsights Ex.emptyGraph [] [] = [fallbackInsight]
     ∧ ruleInsights Ex.emptyGraph [] [] = []).
Proof.
  apply (fallback_only_alone Ex.emptyGraph [] [] fallbackInsight).
  vm_compute. by left.
Defined.

(** ** The dominant issue of a report *)

Lemma sorted_head_first {A} (R : A → A → Prop) (x : A) l :
  (∀ a b c, R a b → R b c → R a c) → (∀ a, R a a) →
  Sorted R (x :: l) → Forall (R x) (x :: l).
Proof.
  intros Htrans Hrefl Hs. apply Sorted_StronglySorted in Hs; [|exact Htrans].
  inversion_clear Hs. constructor; [apply Hrefl|done].
Qed.

(** X20. The dominant issue of a report is the code of a finding that is
    not informational and whose penalty no other such finding exceeds (a
    missing penalty counting as 0); there is none exactly when every finding
    is informational. *)
Theorem dominantIssue_highest_penalty (findings : list Finding) :
  (dominantIssue findings = None ↔ Forall (λ f, f_severity f = SevInfo) findings)
  ∧ ∀ code, dominantIssue findings = Some code →
      ∃ f, f ∈ findings ∧ f_code f = code ∧ f_severity f ≠ SevInfo
           ∧ ∀ g, g ∈ findings → f_severity g ≠ SevInfo →
                  (default 0 (f_penalty g) ≤ default 0 (f_penalty f))%Z.
Proof.
  unfold dominantIssue.
  set (before := λ a b : Finding, (default 0 (f_penalty b) <? default 0 (f_penalty a))%Z).
  pose proof (sort_perm before (List.filter nonInfo findings)) as Hp.
  assert (Hs : Sorted (λ a b, (default 0 (f_penalty b) ≤ default 0 (f_penalty a))%Z)
                 (sort before (List.filter nonInfo findings))).
  { apply (Sorted_weaken (notAfter before)).
    - intros a b H. unfold notAfter, before in H. lia.
    - apply sort_sorted. intros a b. unfold before. lia. }
  assert (Hinfo : ∀ f, nonInfo f = true ↔ f_severity f ≠ SevInfo).
  { intros f. unfold nonInfo. rewrite negb_true_iff, bool_decide_eq_false. done. }
  destruct (sort before (List.filter nonInfo findings)) as [|f l] eqn:Hsort; simpl.
  - apply Permutation_nil_l in Hp. split.
    + split; [|done]. intros _. apply Forall_forall. intros f Hf.
      destruct (decide (f_severity f = SevInfo)) as [|Hn]; [done|].
      assert (Hin : f ∈ List.filter nonInfo findings)
        by (apply elem_of_bfilter; split; [done|by apply Hinfo]).
      rewrite <- Hp in Hin. by apply elem_of_nil in Hin.
    + discriminate.
  - assert (Hf : f ∈ List.filter nonInfo findings) by (rewrite <- Hp; by left).
    apply elem_of_bfilter in Hf as [Hf Hnf]. apply Hinfo in Hnf. split.
    + split; [discriminate|]. intros Hall.
      destruct Hnf. by apply (proj1 (Forall_forall _ _) Hall).
    + intros code [= <-]. exists f. repeat split; try done.
      intros g Hg Hng.
      assert (Hin : g ∈ f :: l).
      { rewrite Hp. apply elem_of_bfilter. split; [done|by apply Hinfo]. }
      assert (Hhead : Forall (λ b, (default 0 (f_penalty b) ≤ default 0 (f_penalty f))%Z)
                             (f :: l)).
      { apply (sorted_head_first
                 (λ a b, (default 0 (f_penalty b) ≤ default 0 (f_penalty a))%Z));
          [intros a b c; lia|intros a; lia|exact Hs]. }
      apply (proj1 (Forall_forall _ _) Hhead g Hin).
Qed.

(** ** Escaping for Mermaid *)

Lemma escapeMermaid_chars s :
  chars (escapeMermaid s)
  = concat (map (λ x, if is_special x then ["\"%char; x] else [x]) (chars s)).
Proof.
  unfold escapeMermaid, replace_char, str, chars.
  rewrite !list_ascii_of_string_of_list_ascii.
  induction (list_ascii_of_string s) as [|x l IH]; [done|].
  cbn [map concat]. rewrite map_app, concat_app, IH. f_equal.
  unfold is_special.
  destruct (Ascii.eqb x (ascii_of_nat 34)) eqn:Hq.
  - apply Ascii.eqb_eq in Hq as ->. reflexivity.
  - cbn [orb map concat app]. rewrite app_nil_r. unfold dq.
    destruct (Ascii.eqb x "|") eqn:Hb; [|done].
    by apply Ascii.eqb_eq in Hb as ->.
Qed.

Lemma escaped_guarded prev l :
  guarded prev (concat (map (λ x, if is_special x then ["\"%char; x] else [x]) l)) = true.
Proof.
  revert prev. induction l as [|x l IH]; intros prev; [done|]. cbn [map concat].
  destruct (is_special x) eqn:Hx.
  - cbn [app guarded]. rewrite Hx. cbn [is_special Ascii.eqb orb andb].
    change (Ascii.eqb "\" "\") with true. cbn [andb]. apply IH.
  - cbn [app guarded]. rewrite Hx. cbn [andb]. apply IH.
Qed.

Lemma escaped_unescape l :
  unescape (concat (map (λ x, if is_special x then ["\"%char; x] else [x]) l)) = l.
Proof.
  induction l as [|x l IH]; [done|]. cbn [map concat].
  destruct (is_special x) eqn:Hx.
  - cbn [app unescape]. rewrite Hx. change (Ascii.eqb "\" "\") with true.
    cbn [andb]. by rewrite IH.
  - cbn [app]. destruct l as [|y l]; [done|].
    cbn [map concat] in *. cbn [unescape].
    destruct (is_special y) eqn:Hy.
    + cbn [app] in *. change (is_special "\") with false.
      rewrite andb_false_r. by rewrite IH.
    + cbn [app] in *. rewrite Hy, andb_false_r. by rewrite IH.
Qed.

(** X21. In an escaped label every double quote and every bar stands behind
    a backslash; the escaping loses nothing (taking these backslashes away
    gives the label back, so two labels with the same escaped text are the
    same label), and it leaves a label without a double quote and a bar as
    it is. *)
Theorem escapeMermaid_guards (s : string) :
  guarded false (chars (escapeMermaid s)) = true
  ∧ unescape (chars (escapeMermaid s)) = chars s
  ∧ (∀ s', escapeMermaid s = escapeMermaid s' → s = s')
  ∧ (forallb (λ c, negb (is_special c)) (chars s) = true → escapeMermaid s = s).
Proof.
  split; [|split; [|split]].
  - rewrite escapeMermaid_chars. apply escaped_guarded.
  - rewrite escapeMermaid_chars. apply escaped_unescape.
  - intros s' H. apply (f_equal (λ t, unescape (chars t))) in H.
    rewrite !escapeMermaid_chars, !escaped_unescape in H. unfold chars in H.
    by rewrite <- (string_of_list_ascii_of_string s), H, string_of_list_ascii_of_string.
  - intros Hplain.
    rewrite <- (string_of_list_ascii_of_string (escapeMermaid s)).
    rewrite <- (string_of_list_ascii_of_string s) at 2. f_equal.
    change (list_ascii_of_string (escapeMermaid s)) with (chars (escapeMermaid s)).
    rewrite escapeMermaid_chars. unfold chars in *.
    induction (list_ascii_of_string s) as [|x l IH]; [done|].
    cbn [forallb] in Hplain. apply andb_true_iff in Hplain as [Hx Hl].
    apply negb_true_iff in Hx. cbn [map concat]. rewrite Hx. cbn [app]. f_equal.
    by apply IH.
Qed.

(** ** The status of a base node *)

Lemma envStep_shape W b r :
  ∃ env baseId news,
    nodes (envStep W b r) = nodes b ++ env :: news
    ∧ n_type env = NVenv
    ∧ edges (envStep W b r)
      = edges b ++ [usesBaseEdge baseId (n_id env) (dominantIssue (r_findings r))]
    ∧ Forall (λ n, n_type n = NBase ∧ n_id n = baseId) news
    ∧ length news ≤ 1.
Proof.
  unfold envStep, getOrCreateBaseNode.
  destruct (r_ranAt r) as [t|]; cbn [nodes baseIdByKey];
    destruct (baseIdByKey b !! normPath W (deriveBaseKey r)) as [id|]; cbn [nodes edges].
  - eexists _, id, []. split; [reflexivity|]. split_and!; by try constructor.
  - eexists _, _, [_]. split; [by rewrite <- app_assoc|].
    split_and!; [done|reflexivity| |done]. by repeat constructor.
  - eexists _, id, []. split; [reflexivity|]. split_and!; by try constructor.
  - eexists _, _, [_]. split; [by rewrite <- app_assoc|].
    split_and!; [done|reflexivity| |done]. by repeat constructor.
Qed.








(** ** The counts of the summary *)

Lemma typeCount_app t A B : typeCount t (A ++ B) = typeCount t A + typeCount t B.
Proof. unfold typeCount, countType. by rewrite List.filter_app, length_app. Qed.

Lemma typeCount_total ns :
  typeCount NVenv ns + typeCount NBase ns + typeCount NTask ns + typeCount NArtifact ns
  = length ns.
Proof.
  unfold typeCount, countType. induction ns as [|n ns IH]; [done|].
  cbn [List.filter length].
  destruct (n_type n);
    repeat match goal with
           | |- context [bool_decide ?P] =>
               first [rewrite (bool_decide_eq_true_2 P) by done
                     |rewrite (bool_decide_eq_false_2 P) by done]
           end; cbn [length]; lia.
Qed.

Lemma typeCount_venvs t D :
  t ≠ NVenv → Forall (λ n, n_type n = NVenv) D → typeCount t D = 0.
Proof.
  intros Ht. unfold typeCount, countType. induction 1 as [|n D Hn _ IH]; [done|].
  cbn [List.filter]. rewrite bool_decide_eq_false_2 by congruence. exact IH.
Qed.

Lemma typeCount_rollup t E ns : typeCount t (rollup E ns) = typeCount t ns.
Proof. apply countType_pointwise, rollup_times. Qed.

Lemma ensureEnv_venvs b envPy n :
  n_type n = NVenv →
  ∃ D, nodes (ensureEnv b envPy n) = nodes b ++ D ∧ Forall (λ m, n_type m = NVenv) D.
Proof.
  intros Hn. unfold ensureEnv. destruct (nodeIndex b !! n_id n).
  - exists []. by rewrite app_nil_r.
  - exists [n]. split; [done|]. by constructor.
Qed.

Lemma clusterEnvStep_venvs W c taskId b kv :
  ∃ D, nodes (clusterEnvStep W c taskId b kv) = nodes b ++ D
       ∧ Forall (λ m, n_type m = NVenv) D.
Proof.
  destruct kv as [pyPath count]. unfold clusterEnvStep.
  match goal with |- context [ensureEnv b ?p ?n] =>
    destruct (ensureEnv_venvs b p n eq_refl) as (D & HD & Hv) end.
  exists D. split; [|done]. by destruct (0 <? _)%nat.
Qed.

Lemma clusterEnvSteps_venvs W c taskId kvs b :
  ∃ D, nodes (fold_left (clusterEnvStep W c taskId) kvs b) = nodes b ++ D
       ∧ Forall (λ m, n_type m = NVenv) D.
Proof.
  revert b. induction kvs as [|kv kvs IH]; intros b; cbn [fold_left].
  - exists []. by rewrite app_nil_r.
  - destruct (clusterEnvStep_venvs W c taskId b kv) as (D1 & H1 & V1).
    destruct (IH (clusterEnvStep W c taskId b kv)) as (D2 & H2 & V2).
    exists (D1 ++ D2). rewrite H2, H1, <- app_assoc. split; [done|].
    by apply Forall_app.
Qed.

Lemma oneTask_intro t D :
  n_type t = NTask → Forall (λ m, n_type m = NVenv) D → oneTask (t :: D).
Proof.
  intros Ht HD. unfold oneTask.
  change (t :: D) with ([t] ++ D). rewrite !typeCount_app.
  rewrite !(typeCount_venvs _ D) by done.
  unfold typeCount, countType. cbn [List.filter]. rewrite Ht. by cbn.
Qed.

Lemma clusterTaskStep_one W b c :
  ∃ D, nodes (clusterTaskStep W b c) = nodes b ++ D ∧ oneTask D.
Proof.
  unfold clusterTaskStep.
  destruct (clusterEnvSteps_venvs W c ("task:" +:+ sigId (c_sig c)) (c_envCounts c)
              (pushIndexed b (clusterTaskNode c ("task:" +:+ sigId (c_sig c)))))
    as (D & HD & Hv).
  eexists (_ :: D). rewrite HD. cbn [pushIndexed nodes]. rewrite <- app_assoc.
  split; [reflexivity|]. by apply oneTask_intro.
Qed.

Lemma runTaskStep_one W b run :
  ∃ D, nodes (runTaskStep W b run) = nodes b ++ D ∧ oneTask D.
Proof.
  unfold runTaskStep.
  match goal with |- context [ensureEnv ?b0 ?p ?n] =>
    destruct (ensureEnv_venvs b0 p n eq_refl) as (D & HD & Hv) end.
  eexists (_ :: D).
  split; [destruct (o_ok (outcome run)); cbn [pushEdge nodes]; rewrite HD;
          cbn [pushIndexed nodes]; by rewrite <- app_assoc|].
  by apply oneTask_intro.
Qed.

Lemma steps_tasks {A} (step : Builder → A → Builder) l b :
  (∀ b x, ∃ D, nodes (step b x) = nodes b ++ D ∧ oneTask D) →
  ∃ D, nodes (fold_left step l b) = nodes b ++ D
       ∧ typeCount NTask D = length l ∧ typeCount NBase D = 0
       ∧ typeCount NArtifact D = 0.
Proof.
  intros Hstep. revert b. induction l as [|x l IH]; intros b; cbn [fold_left].
  - exists []. by rewrite app_nil_r.
  - destruct (Hstep b x) as (D1 & H1 & T1 & B1 & A1).
    destruct (IH (step b x)) as (D2 & H2 & T2 & B2 & A2).
    exists (D1 ++ D2). rewrite H2, H1, <- app_assoc, !typeCount_app. split; [done|].
    cbn [length]. lia.
Qed.

Lemma envSteps_kinds W rs b :
  ∃ D, nodes (fold_left (envStep W) rs b) = nodes b ++ D
       ∧ typeCount NVenv D = length rs ∧ typeCount NBase D ≤ length rs
       ∧ typeCount NTask D = 0 ∧ typeCount NArtifact D = 0.
Proof.
  revert b. induction rs as [|r rs IH]; intros b; cbn [fold_left].
  - exists []. by rewrite app_nil_r.
  - destruct (envStep_shape W b r) as (env & baseId & news & Hns & Henv & _ & Hnews & Hlen).
    destruct (IH (envStep W b r)) as (D2 & H2 & V2 & B2 & T2 & A2).
    exists ((env :: news) ++ D2). rewrite H2, Hns, <- app_assoc. split; [done|].
    rewrite !typeCount_app.
    assert (Hk : typeCount NVenv (env :: news) = 1 ∧ typeCount NBase (env :: news) ≤ 1
                 ∧ typeCount NTask (env :: news) = 0
                 ∧ typeCount NArtifact (env :: news) = 0).
    { unfold typeCount, countType. cbn [List.filter]. rewrite Henv.
      destruct news as [|m [|m' news]]; [by cbn| |cbn in Hlen; lia].
      apply Forall_cons in Hnews as [[Hm _] _]. cbn [List.filter]. rewrite Hm. by cbn. }
    cbn [length]. lia.
Qed.

Lemma first_report_base W r rs :
  1 ≤ typeCount NBase (nodes (fold_left (envStep W) (r :: rs) emptyBuilder)).
Proof.
  cbn [fold_left].
  destruct (envSteps_kinds W rs (envStep W emptyBuilder r)) as (D & -> & _).
  rewrite typeCount_app.
  assert (1 ≤ typeCount NBase (nodes (envStep W emptyBuilder r))); [|lia].
  unfold envStep, getOrCreateBaseNode. destruct (r_ranAt r); by cbn.
Qed.

Lemma statuses_apart ns :
  length (List.filter (hasStatus Good) ns) + length (List.filter (hasStatus Warn) ns)
    + length (List.filter (hasStatus Bad) ns) ≤ length ns.
Proof.
  induction ns as [|n ns IH]; [done|]. cbn [List.filter length].
  destruct (hasStatus Good n) eqn:Hg, (hasStatus Warn n) eqn:Hw, (hasStatus Bad n) eqn:Hb;
    cbn [length]; try lia; exfalso;
    repeat match goal with
           | H : hasStatus _ _ = true |- _ => apply bool_decide_eq_true in H
           end; congruence.
Qed.

(** X23. The counts of the summary: the environment, base and task counts
    add up to the number of nodes; there is one task node per cluster in
    clustered mode, one per run in per-run mode and none in mode none; the
    passed and failed runs add up to the runs (to 0 in mode none); there
    are at least as many environment nodes as surviving reports, exactly as
    many in mode none; there are at most as many base nodes as surviving
    reports, and at least one when a report survives; and healthy, warning
    and broken together do not exceed the environment count. *)
Theorem summary_counts W reports runs options :
  let g := graph (mapRender W reports runs options) in
  let s := g_summary g in
  let included := includedReports W reports options in
  let mode := default TMClustered (taskMode options) in
  envCount s + baseCount s + taskCount s = length (g_nodes g)
  ∧ taskCount s = match mode with
                  | TMNone => 0
                  | TMRuns => length runs
                  | TMClustered => length (clusterRuns runs)
                  end
  ∧ runsPassed s + runsFailed s = (if bool_decide (mode = TMNone) then 0 else length runs)
  ∧ length included ≤ envCount s
  ∧ (mode = TMNone → envCount s = length included)
  ∧ baseCount s ≤ length included
  ∧ (included ≠ [] → 1 ≤ baseCount s)
  ∧ healthy s + warning s + broken s ≤ envCount s.
Proof.
  intros g s included mode. subst g s.
  assert (Hsum : ∀ b : Builder,
             let '(h, w, k) := summarizeCounts (nodes b) in
             h + w + k ≤ length (countType NVenv (nodes b))).
  { intros b. unfold summarizeCounts. apply statuses_apart. }
  unfold mapRender, build. fold included. fold mode.
  set (b1 := fold_left (envStep W) included emptyBuilder).
  destruct (envSteps_kinds W included emptyBuilder) as (D1 & H1 & V1 & B1 & T1 & A1).
  fold b1 in H1. cbn [emptyBuilder nodes app] in H1.
  assert (Hbase1 : included ≠ [] → 1 ≤ typeCount NBase (nodes b1)).
  { unfold b1. destruct included as [|r rs]; [done|]. intros _. apply first_report_base. }
  assert (Hr : ∀ t, typeCount t (nodes (reportPhase W included)) = typeCount t D1).
  { intros t. unfold reportPhase. fold b1. cbn [nodes]. by rewrite typeCount_rollup, H1. }
  assert (Htasks : ∃ D k,
             nodes (taskPhase W mode runs (reportPhase W included)).1.1.1
             = nodes (reportPhase W included) ++ D
             ∧ typeCount NTask D = k ∧ typeCount NBase D = 0 ∧ typeCount NArtifact D = 0
             ∧ k = match mode with
                   | TMNone => 0
                   | TMRuns => length runs
                   | TMClustered => length (clusterRuns runs)
                   end
             ∧ (mode = TMNone → D = [])
             ∧ (taskPhase W mode runs (reportPhase W included)).1.1.2
               + (taskPhase W mode runs (reportPhase W included)).1.2
               = (if bool_decide (mode = TMNone) then 0 else length runs)).
  { unfold taskPhase. destruct mode; cbn [bool_decide negb andb decide_rel].
    - exists [], 0. rewrite app_nil_r. by cbn.
    - rewrite bool_decide_eq_false_2 by done. rewrite bool_decide_eq_false_2 by done.
      cbn [negb andb]. destruct runs as [|r runs']; [exists [], 0; rewrite app_nil_r; by cbn|].
      change (0 <? length (r :: runs'))%nat with true. cbv iota.
      destruct (steps_tasks (runTaskStep W) (r :: runs') (reportPhase W included)
                  (runTaskStep_one W)) as (D & HD & TD & BD & AD).
      exists D, (length (r :: runs')). cbn [fst snd]. split_and!; try done.
      apply List.filter_length.
    - rewrite bool_decide_eq_false_2 by done. rewrite bool_decide_eq_true_2 by done.
      cbn [negb andb]. destruct runs as [|r runs']; [exists [], 0; rewrite app_nil_r; by cbn|].
      change (0 <? length (r :: runs'))%nat with true. cbv iota.
      destruct (steps_tasks (clusterTaskStep W) (clusterRuns (r :: runs'))
                  (reportPhase W included) (clusterTaskStep_one W))
        as (D & HD & TD & BD & AD).
      exists D, (length (clusterRuns (r :: runs'))). cbn [fst snd]. split_and!; try done.
      apply List.filter_length. }
  destruct Htasks as (D & k & HD & TD & BD & AD & Hk & Hnone & Hruns).
  destruct (taskPhase W mode runs (reportPhase W included)) as [[[b p] f] cl].
  cbn [fst snd] in HD, Hruns.
  pose proof (Hsum b) as Hs. destruct (summarizeCounts (nodes b)) as [[h w] kk].
  cbn [graph g_summary g_nodes envCount baseCount taskCount healthy warning broken
       runsPassed runsFailed].
  pose proof (typeCount_total (nodes b)) as Htot.
  pose proof (Hr NVenv) as RV. pose proof (Hr NBase) as RB. pose proof (Hr NTask) as RT.
  pose proof (Hr NArtifact) as RA.
  assert (Hb1 : typeCount NBase (nodes b1) = typeCount NBase D1) by by rewrite H1.
  unfold typeCount in *. rewrite HD in *.
  unfold countType in *. rewrite !List.filter_app, !length_app in *.
  split_and!; try lia; intros Hx.
  - rewrite (Hnone Hx) in *. cbn [List.filter length] in *. lia.
  - specialize (Hbase1 Hx). lia.
Qed.

(** ** The top issues *)

Lemma fold_left_flat_map {A B C} (f : C → B → C) (g : A → list B) l a :
  fold_left (λ acc x, fold_left f (g x) acc) l a = fold_left f (flat_map g l) a.
Proof.
  revert a. induction l as [|x l IH]; intros a; cbn [fold_left flat_map]; [done|].
  by rewrite fold_left_app, IH.
Qed.

Lemma countTopIssues_steps reports maxTop :
  countTopIssues reports maxTop
  = map (λ kv, {| ti_code := kv.1; ti_count := kv.2; ti_hint := hintForIssue kv.1 |})
        (slice_to maxTop
           (sort (λ a b : string * nat, (b.2 <? a.2)%nat)
                 (fold_left issueStep (flat_map r_findings reports) []))).
Proof.
  unfold countTopIssues. do 3 f_equal.
  apply (fold_left_flat_map issueStep r_findings).
Qed.

Lemma occurrences_snoc k pre f :
  occurrences k (pre ++ [f])
  = occurrences k pre + (if nonInfo f && String.eqb (f_code f) k then 1 else 0).
Proof.
  unfold occurrences. rewrite List.filter_app, length_app. cbn [List.filter].
  by destruct (nonInfo f && String.eqb (f_code f) k).
Qed.

Lemma issueSteps_counts fs :
  NoDup (map fst (fold_left issueStep fs []))
  ∧ ∀ k, default 0 (obj_get k (fold_left issueStep fs [])) = occurrences k fs
         ∧ ∀ v, obj_get k (fold_left issueStep fs []) = Some v → 1 ≤ v.
Proof.
  apply (fold_left_prefix issueStep
           (λ pre m, NoDup (map fst m)
                     ∧ ∀ k, default 0 (obj_get k m) = occurrences k pre
                            ∧ ∀ v, obj_get k m = Some v → 1 ≤ v)).
  - split; [constructor|]. intros k. by split.
  - intros pre f m [Hnd Hm]. unfold issueStep.
    destruct (nonInfo f) eqn:Hf.
    + split; [by apply map_set_NoDup|]. intros k.
      rewrite occurrences_snoc, Hf, map_get_set. cbn [andb].
      destruct (String.eqb (f_code f) k) eqn:Hk.
      * apply String.eqb_eq in Hk as <-. cbn [default from_option].
        destruct (Hm (f_code f)) as [-> _]. split; [done|]. intros v [= <-]. lia.
      * destruct (Hm k) as [-> Hv]. split; [lia|done].
    + split; [done|]. intros k. rewrite occurrences_snoc, Hf. cbn [andb].
      destruct (Hm k) as [-> Hv]. split; [lia|done].
Qed.

Lemma Sorted_map_intro {A B} (R : B → B → Prop) (f : A → B) l :
  Sorted (λ x y, R (f x) (f y)) l → Sorted R (map f l).
Proof.
  induction 1 as [|x l Hs IH Hd]; cbn [map]; constructor; [done|].
  destruct Hd; by constructor.
Qed.

(** X24. The top issues of the summary: no code appears twice; the count
    of a code is the number of findings of the surviving reports, other
    than informational ones, that name it (a report naming a code twice
    counts twice) and is at least 1; the list is in descending order of
    count; for a limit of 0 or more it has at most that many entries (10
    when no limit is given); and a code left out has a count no higher
    than any code listed. *)
Theorem topIssues_most_frequent W reports runs options :
  let top := topIssues (g_summary (graph (mapRender W reports runs options))) in
  let fs := includedFindings W reports options in
  let limit := default 10%Z (maxTopIssues options) in
  NoDup (map ti_code top)
  ∧ Forall (λ t, ti_count t = occurrences (ti_code t) fs ∧ 1 ≤ ti_count t
                 ∧ ti_hint t = hintForIssue (ti_code t)) top
  ∧ Sorted (λ a b, ti_count b ≤ ti_count a) top
  ∧ ((0 ≤ limit)%Z → length top ≤ Z.to_nat limit)
  ∧ (∀ code, 1 ≤ occurrences code fs → code ∉ map ti_code top →
             Forall (λ t, occurrences code fs ≤ ti_count t) top).
Proof.
  intros top fs limit. subst top. rewrite mapRender_topIssues, countTopIssues_steps.
  fold limit. change (flat_map r_findings (includedReports W reports options)) with fs.
  destruct (issueSteps_counts fs) as [Hnd Hm].
  set (m := fold_left issueStep fs []) in *.
  set (cmp := λ a b : string * nat, (b.2 <? a.2)%nat).
  set (mk := λ kv : string * nat,
               {| ti_code := kv.1; ti_count := kv.2; ti_hint := hintForIssue kv.1 |}).
  pose proof (sort_perm cmp m) as Hperm.
  assert (Hsorted : Sorted (λ a b : string * nat, b.2 ≤ a.2) (sort cmp m)).
  { apply (Sorted_weaken (notAfter cmp)).
    - intros a b H. unfold notAfter, cmp in H. apply Nat.ltb_ge in H. exact H.
    - apply sort_sorted. intros a b. unfold cmp. rewrite Nat.ltb_lt, Nat.ltb_ge. lia. }
  assert (Hslice : ∃ n, slice_to limit (sort cmp m) = take n (sort cmp m)
                        ∧ ((0 ≤ limit)%Z → n = Z.to_nat limit)).
  { unfold slice_to. destruct (limit <? 0)%Z eqn:Hl.
    - eexists. split; [reflexivity|]. lia.
    - eexists. split; [reflexivity|]. done. }
  destruct Hslice as (n & -> & Hn).
  assert (Hin : ∀ kv, kv ∈ take n (sort cmp m) → kv ∈ m).
  { intros kv Hkv. rewrite <- Hperm. by apply (subseteq_take n). }
  assert (Hcodes : map ti_code (map mk (take n (sort cmp m)))
                   = take n (map fst (sort cmp m))).
  { rewrite map_map. cbn [mk ti_code]. by rewrite <- firstn_map. }
  split_and!.
  - rewrite Hcodes. apply (NoDup_app (take n _) (drop n (map fst (sort cmp m)))).
    rewrite take_drop. by rewrite Hperm.
  - apply Forall_forall. intros t Ht. apply elem_of_map in Ht as ([k v] & -> & Hkv).
    cbn [mk ti_code ti_count ti_hint fst snd].
    pose proof (elem_obj_get k v m Hnd (Hin _ Hkv)) as Hget.
    destruct (Hm k) as [Hocc Hpos]. rewrite Hget in Hocc. cbn in Hocc.
    split_and!; [done|by apply Hpos|done].
  - apply Sorted_map_intro. cbn [mk ti_count]. by apply Sorted_firstn.
  - intros Hl. rewrite length_map, (Hn Hl). apply firstn_le_length.
  - intros code Hocc Hout. rewrite Hcodes in Hout.
    destruct (Hm code) as [Hdef _].
    destruct (obj_get code m) as [v|] eqn:Hget; [|cbn in Hdef; lia].
    cbn in Hdef. subst v. apply obj_get_elem in Hget.
    rewrite <- Hperm, <- (take_drop n (sort cmp m)), elem_of_app in Hget.
    destruct Hget as [Hget|Hget].
    { destruct Hout. rewrite firstn_map. apply elem_of_map.
      by exists (code, occurrences code fs). }
    assert (Hss : StronglySorted (λ a b : string * nat, b.2 ≤ a.2)
                    (take n (sort cmp m) ++ drop n (sort cmp m))).
    { rewrite take_drop. apply Sorted_StronglySorted; [|done]. intros a b c. lia. }
    apply Forall_forall. intros t Ht. apply elem_of_map in Ht as (kv & -> & Hkv).
    cbn [mk ti_count].
    exact (StronglySorted_app_1_elem_of _ _ _ _ _ Hss Hkv Hget).
Qed.
